(* ===== verification/_CoqProject ===== *)
-Q . S2P
Prelude.v
PyValue.v
Format.v
HumanBytes.v
Hook.v
Options.v
Worker.v
WorkerSteps.v
Widgets.v
MainWindow.v
Startup.v
System.v
Threads.v
