(* ===== verification/Prelude.v ===== *)
(** * YT Bulk Downloader: a verification development

    The program (src/main.py, 244 lines of Python on PySide6 and yt-dlp) is a
    desktop tool: the user queues URLs in a table, picks a resolution cap and
    a container, and a background thread downloads the queue one item at a
    time through the yt-dlp library, relaying progress to the table.

    ** The parts of the program and where they are modelled

    - [build_format] (main.py 26-28), the format selector: file [Format].
    - [human_bytes] (main.py 30-34), the byte-rate printer with its scaling
      loop and the [.1f] formatting: file [HumanBytes].
    - the progress hook, the closure [hook] of [DLWorker.run] (main.py 55-67)
      that turns a raw library dictionary into an update payload: file
      [Hook].
    - the library options, the dictionary [ydl_opts] that [Main._start]
      builds from the options panel (main.py 169-187): file [Options].
    - [DLWorker] (main.py 36-85), the queue worker: its fields, [stop] and
      [run]: file [Worker].  The library is a black box: for each item an
      [item_env] says what the library does (constructor, metadata probe, the
      dictionaries it hands to the hook, how the download ends, whether
      closing the session raises, and whether the user's stop request
      arrives while the item is processed).
    - the thread of [DLWorker.run] one step at a time, with calls of
      [stop()] by the GUI thread at any point: file [WorkerSteps], a machine
      ([work], [act], [exec_sched]) over the position of the thread, the
      flag, the signals emitted and the values of the flag the loop has read.
    - [Main] (main.py 87-226), the window: module [Main] of file
      [MainWindow], one definition per method ([_build_ui], [__init__],
      [_restore], [_add_url], [_choose_outdir], [_start], [_stop],
      [_on_update], [_on_done], [closeEvent]), over a record [state] of the
      attributes the methods read and write.
    - [has_ffmpeg] (main.py 17-18): [Main.has_ffmpeg], over the lookup
      [which] of the environment of the window.
    - the connection of the two (main.py 190-196): file [System] delivers the
      trace of a run to the slots of the window, in order.
    - the start of the program (main.py 8-12, 20-24, 228-244): file
      [Startup], with [import_yt_dlp] for the guarded import, [script] for
      the module run as a script, [get_resource_path], [load_style] and
      [main]; a start ends in a window on which the event loop runs, in an
      exception, or in Qt ending the process.
    - the application while the event loop runs: file [Threads].  Its state
      ([app_state]) is the window, the thread where [run] stands, the queue
      of signals emitted and not delivered, and the number of runs started.
      An action ([app_action]) is an action of the user on an enabled widget
      ([user_step], which runs the handler of [MainWindow] and creates the
      thread when [_start] called [start()]), a step of the thread
      ([worker_step], the step of [WorkerSteps] on the rows and the flag of
      the worker object the window holds), the delivery of the first
      waiting signal to its slot ([deliver_step]), or the end of the thread
      ([exit_step], after which [isRunning()] is false).  These four steps
      are the program's; which of them comes next ([app_step], [app_exec],
      [app_reachable]) is decided by Qt's event loop and by the scheduler of
      the operating system, which are the environment of the program: the
      theorems hold for every order.
    - the environment: file [PyValue] holds the Python fragment the code
      relies on (values, truthiness, [or], [dict.get], numeric conversion,
      [int()], [str.strip()]); file [Widgets] holds the monad of the slots
      and the behaviour of the Qt widgets the handlers call (a table with
      its header, its items, kept row after row in one vector, and its cell
      widgets; a progress bar with its range; a combo box).
    - this file: the hint database [ytdl], a tactic, and the lemmas on
      strings and lists the components share.

    ** How state and effects are modelled

    Python dictionaries are [gmap string pyval]; a missing key is [None] for
    [get] and an error for a subscript.  Signals are values of [signal]; a run
    of the worker is the list of signals it emits together with how the run
    ended ([Finished], or [Crashed] when an exception leaves [run]).  The only
    cell the two threads share, the flag [_stop], is read once per loop
    iteration and only ever set; a run is therefore determined by the rows,
    the library's behaviour per item and the iteration at which the flag is
    first seen set.

    A handler of the window is a computation of [eff state], a state and
    exception monad: it changes the window step by step and either returns
    or raises, the changes made before the exception staying.  What a
    handler reads from outside (the clock, the result of [mkdir], the path
    join, the presence of ffmpeg) is an argument ([os_env]).  The windows
    the program can show are the states [reachable] from [__init__] by the
    events of [MainWindow.handle].

    The two threads share the worker object: the window holds it, the
    thread reads its rows and its flag at each step, and [Main._stop] sets
    the flag on it.  Their interleavings are the schedules of [Threads]:
    lists of actions, in any order.  Signals cross from the thread to the
    window through a queue that is delivered first in, first out.  The
    library may behave differently in each run: it is a function of the run
    and of the row.

    ** Numbers

    A Python [int] is [Z].  A Python [float] is modelled by the rational
    number it denotes ([Q]): the model computes with exact values.  The code
    divides by 1024 (exact in binary floating point for every finite value
    that does not underflow), compares with 0 and 1024 (exact), and prints
    with one decimal (Python rounds the exact value, half to even, as
    [format_1f] does).  The one place where rounding can differ is
    [got*100/total] in the hook, whose float quotient is truncated by [int]:
    the model truncates the exact quotient, which agrees with the float
    computation as long as [got*100] and [total] are below 2^53 and the
    quotient is not within one unit in the last place of an integer; for
    byte counts below 2^46 (64 TiB) this always holds.  Infinities and NaN
    are not modelled.  An [int] handed to Qt must fit a C [int]
    ([Widgets.c_int]); the model raises [OverflowError] otherwise.

    ** Fuel

    The only loop that is not structural is the [while] of [human_bytes];
    [HumanBytes.scale] takes fuel and returns [None] when it runs out.
    [human_bytes] gives it [length units] = 5, and [scale_terminates] shows
    that 4 is enough from index 0 and that more fuel does not change the
    result.  The loop of [run] is structural on the rows.  The thread of
    [WorkerSteps] needs no fuel: [work_left] bounds the steps it still
    takes (two per row, one per signal of the row, and two more), and
    [Threads.completion] gives the schedule that ends a run within that
    bound.

    ** What the theorems show

    - [Format]: the selector on every branch, that a zero cap is treated as
      no cap, that the cap is printed literally, and that different caps give
      different selectors.
    - [HumanBytes]: the loop terminates and agrees with a closed form, the
      unit lookup never fails, the printed value is within 1/20 of the scaled
      value, the function depends on the value of a float and not on its
      representation.
    - [Hook]: the payload on each branch, the percentage formula and its
      bounds (for [g] bytes of a total [t] it is at most 100 exactly when
      [100 * g < 101 * t]: nothing clamps it, 1005 of 1000 bytes show 100 and
      1010 of 1000 bytes show 101), and when the hook raises.
    - [Worker]: every item that starts emits [Starting] first and a terminal
      payload ([Done] or [Error]) last, items are processed in order, nothing
      is emitted for items at or after a stop, exactly one [sig_done] ends
      every run that does not crash, and a run crashes only when a row has no
      "url" key, having emitted the signals of the rows before it and no
      [sig_done].
    - [Options]: the caps of the panel are the arguments of [build_format];
      a combo box without a current item makes [int()] raise.
    - [MainWindow]: every handler keeps the invariant of the window ([inv]:
      the rows of the table as [_add_url] makes them, the bars between 0 and
      100, the indices of the combo boxes); what [_add_url], [_start],
      [_stop], [_on_update] and the settings round trip do on each branch;
      and that on the table as created, which has four columns, the status
      column 4 does not exist: the header shows four of the five labels, the
      "Queued" item is not stored, and [_on_update] raises on every payload
      that carries a status.
    - [WorkerSteps]: every schedule keeps the invariant of the thread; when
      the thread has left [run], what it emitted is the trace of
      [Worker.run] against the library as the loop observed it; the thread
      leaves [run] within [work_left] of its own steps; once the flag is set
      no further row starts.
    - [System]: after a run the window is ready for the next one; the bar of
      a row that succeeded is at 100; a run changes titles and bars and no
      other cell, so that no status and no error message of the worker is
      ever shown.
    - [Startup]: the window the event loop starts on; a style sheet that
      cannot be read is reported and never stops the start; a stored index
      that is not a number does; without [yt_dlp] the dialog is requested
      before the application object exists, so that it is never shown.
    - [Threads]: the invariant of the application ([app_inv]) holds in every
      state it reaches: one thread per worker, what was delivered followed
      by what waits is what the thread emitted, exactly one of [Start] and
      [Stop] is enabled.  From it: when [run] has returned the slots are
      given the trace of [Worker.run]; a stop request is honoured whatever
      else happens; the rows of a run are fixed when it starts; every run
      can be completed, after which [Start] is enabled; with a user who
      only watches, every interleaving ends in the window of
      [System.run_from]; and [Start] pressed after [sig_done] was delivered
      and before the thread has ended does nothing.

    ** Not modelled

    The layout calls of the window (sizes, layouts, stretch, the resize
    modes of lines 153-159, object names, the placeholder) change nothing a
    handler reads and are left out; line 159 names section 4 of a header
    that has four sections.  The internals of yt-dlp and of Qt are not
    modelled: the worker's theorems quantify over everything the library may
    do, and [Widgets] and [Startup.message_box] write out the behaviour of
    the few Qt calls the program makes.  What the library raises is an
    [Exception] ([Worker.lib_exn]); a [BaseException] that is not one
    ([KeyboardInterrupt], [SystemExit]), which neither handler of [run]
    catches, is not modelled.  The file
    system, the search path and the clock are inputs ([os_env],
    [Startup.sys_env]).  Closing the window saves the settings
    ([closeEvent]); the end of the process that follows, with a thread that
    may still run, is not modelled.  Time is not modelled: a schedule says
    in which order things happen, not when. *)

From stdpp Require Export base tactics option list strings gmap pretty sorting.
From Stdlib Require Export ZArith Lia.

(** * Hint database and tactics *)

Create HintDb ytdl discriminated.
Create Rewrite HintDb ytdl.

(** [case_bool] destructs the first boolean test found in the goal, keeping
    the equation. *)
Ltac case_bool :=
  match goal with
  | |- context [if ?b then _ else _] =>
      let E := fresh "E" in destruct b eqn:E
  end.

(** * Strings *)

Section strings.
Implicit Types s t u : string.

Lemma string_app_cons a s t : String a s +:+ t = String a (s +:+ t).
Proof. reflexivity. Qed.

Lemma string_app_nil_l s : "" +:+ s = s.
Proof. reflexivity. Qed.

Lemma string_app_nil_r s : s +:+ "" = s.
Proof. induction s as [|a s IH]; [done|]. by rewrite string_app_cons, IH. Qed.

Lemma string_app_assoc s t u : (s +:+ t) +:+ u = s +:+ t +:+ u.
Proof. induction s as [|a s IH]; [done|]. by rewrite !string_app_cons, IH. Qed.

Lemma string_length_app s t :
  String.length (s +:+ t) = String.length s + String.length t.
Proof.
  induction s as [|a s IH]; [done|]. rewrite string_app_cons. simpl. by rewrite IH.
Qed.

(** Cancellation on the right: the suffix is the same, so are the prefixes. *)
Lemma string_app_inj_r s t u : s +:+ u = t +:+ u → s = t.
Proof.
  revert t. induction s as [|a s IH]; intros [|b t] H;
    rewrite ?string_app_cons, ?string_app_nil_l in H.
  - done.
  - apply (f_equal String.length) in H. simpl in H.
    rewrite string_length_app in H. lia.
  - apply (f_equal String.length) in H. simpl in H.
    rewrite string_length_app in H. lia.
  - injection H as -> H. f_equal. by apply IH.
Qed.

(** Two concatenations that agree and whose first parts have the same
    length agree part by part. *)
Lemma string_app_eq_length_inv s1 s2 t1 t2 :
  String.length s1 = String.length s2 →
  s1 +:+ t1 = s2 +:+ t2 → s1 = s2 ∧ t1 = t2.
Proof.
  revert s2. induction s1 as [|a s1 IH]; intros [|b s2] Hl H;
    try discriminate Hl; [done|].
  rewrite !string_app_cons in H. injection H as -> H. injection Hl as Hl.
  by destruct (IH s2 Hl H) as [-> ->].
Qed.

End strings.

#[export] Hint Rewrite string_app_nil_r string_app_assoc string_length_app : ytdl.

(** * Occurrence of a string in another *)

(** [is_prefix s t]: [t] starts with [s]; [occurs s t]: [s] is a contiguous
    part of [t].  Both compute. *)
Fixpoint is_prefix (s t : string) : bool :=
  match s, t with
  | "", _ => true
  | String a s', String b t' => bool_decide (a = b) && is_prefix s' t'
  | String _ _, "" => false
  end.

Fixpoint occurs (s t : string) : bool :=
  is_prefix s t ||
  match t with
  | "" => false
  | String _ t' => occurs s t'
  end.

Lemma is_prefix_app s t : is_prefix s (s +:+ t) = true.
Proof.
  induction s as [|a s IH]; [done|].
  rewrite string_app_cons. simpl. by rewrite bool_decide_eq_true_2, IH.
Qed.

Lemma is_prefix_spec s t : is_prefix s t = true ↔ ∃ u, t = s +:+ u.
Proof.
  split.
  - revert t. induction s as [|a s IH]; intros t H; [by exists t|].
    destruct t as [|b t]; simpl in H; [done|].
    apply andb_true_iff in H as [->%bool_decide_eq_true Hp].
    destruct (IH _ Hp) as [u ->]. by exists u.
  - intros [u ->]. apply is_prefix_app.
Qed.

Lemma occurs_app_r s t u : occurs s u = true → occurs s (t +:+ u) = true.
Proof.
  intros H. induction t as [|a t IH]; [done|].
  rewrite string_app_cons. simpl. rewrite IH. apply orb_true_r.
Qed.

Lemma occurs_mid s t u : occurs s (t +:+ s +:+ u) = true.
Proof.
  apply occurs_app_r. destruct s as [|a s]; [by destruct u|].
  rewrite string_app_cons. simpl.
  by rewrite bool_decide_eq_true_2, is_prefix_app.
Qed.

#[export] Hint Resolve is_prefix_app occurs_mid occurs_app_r : ytdl.

(** * Lists: filters and binds *)

Section lists.
Context {A B : Type} (P : A → Prop) `{!∀ x, Decision (P x)}.
Implicit Types (l : list A) (k : list B) (f : B → list A).

Lemma filter_none l : Forall (λ x, ¬ P x) l → filter P l = [].
Proof.
  induction 1 as [|x l Hx _ IH]; [done|].
  by rewrite filter_cons_False.
Qed.

Lemma filter_all l : Forall P l → filter P l = l.
Proof.
  induction 1 as [|x l Hx _ IH]; [done|].
  by rewrite filter_cons_True, IH.
Qed.

Lemma filter_bind f k : filter P (k ≫= f) = k ≫= (λ x, filter P (f x)).
Proof.
  induction k as [|x k IH]; [done|].
  by rewrite !bind_cons, filter_app, IH.
Qed.

Lemma bind_nil_all f k : (∀ x, x ∈ k → f x = []) → k ≫= f = [].
Proof.
  induction k as [|x k IH]; intros Hk; [done|].
  rewrite bind_cons, Hk, IH; [done| |]; set_solver.
Qed.

Lemma bind_ext_in (f g : B → list A) k :
  (∀ x, x ∈ k → f x = g x) → k ≫= f = k ≫= g.
Proof.
  induction k as [|x k IH]; intros Hk; [done|].
  rewrite !bind_cons, Hk, IH; [done| |]; set_solver.
Qed.

Lemma length_bind_const f k n :
  (∀ x, x ∈ k → length (f x) = n) → length (k ≫= f) = length k * n.
Proof.
  induction k as [|x k IH]; intros Hk; [done|].
  rewrite bind_cons, length_app, Hk, IH; [simpl; lia| |]; set_solver.
Qed.

End lists.

Lemma StronglySorted_all_eq (l : list nat) c :
  (∀ x, x ∈ l → x = c) → StronglySorted le l.
Proof.
  induction l as [|x l IH]; intros H; constructor.
  - apply IH. set_solver.
  - apply Forall_forall. intros y Hy. rewrite (H x), (H y); set_solver.
Qed.

(** ** Folds over schedules

    A machine that takes one action at a time is folded over the list of
    its actions; what every action keeps, the fold keeps. *)
Section folds.
Context {St Act : Type} (step : St → Act → St).
Implicit Types (s : St) (a : Act) (l : list Act).

Lemma foldl_snoc l a s : foldl step s (l ++ [a]) = step (foldl step s l) a.
Proof. by rewrite foldl_app. Qed.

Lemma foldl_keeps (I : St → Prop) l s :
  (∀ s a, a ∈ l → I s → I (step s a)) → I s → I (foldl step s l).
Proof.
  induction l as [|a l IH] using rev_ind; [done|]. intros Hk Hs. rewrite foldl_snoc.
  apply Hk; [set_solver|]. apply IH; [|done]. intros. apply Hk; [set_solver|done].
Qed.

(** The same for an invariant that is kept by the steps after which a
    guard holds, when the guard of a state holds before the step that led to
    it. *)
Lemma foldl_keeps_while (I G : St → Prop) l s :
  (∀ s a, G (step s a) → G s) →
  (∀ s a, I s → G (step s a) → I (step s a)) →
  I s → G (foldl step s l) → I (foldl step s l).
Proof.
  intros Hg Hk Hs. induction l as [|a l IH] using rev_ind; [done|].
  rewrite foldl_snoc. intros H. apply Hk; [|done]. eapply IH, Hg, H.
Qed.

End folds.

(** A bind over a range that is empty except at [j]. *)
Lemma bind_seq_single {A} (j i k : nat) (l : list A) :
  seq i k ≫= (λ x, if decide (x = j) then l else []) =
    if decide (i ≤ j < i + k) then l else [].
Proof.
  revert i. induction k as [|k IH]; intros i; simpl.
  { case_decide; [lia|done]. }
  rewrite IH. repeat case_decide; try lia; by rewrite ?app_nil_r.
Qed.
