(* ===== verification/PyValue.v ===== *)
(** * The Python fragment the program relies on

    Values that the code reads out of dictionaries and passes around
    ([None], [bool], [int], [float], [str]), truthiness, the [or] operator,
    [dict.get], the numeric view of a value, [int()] on a float and on a
    string, and [str.strip()].  A float is the rational it denotes; [≡] on
    values identifies two representations of the same rational, and every
    operation respects it.  [int()] reads back what the decimal printing of
    an integer writes ([int_of_str_pretty]), and [strip] leaves a string
    without white space as it is and nothing of a blank one. *)

From S2P Require Import Prelude.
From Stdlib Require Import QArith Qround Lqa Ascii.

Declare Scope py_scope.
Delimit Scope py_scope with py.
Local Open Scope Z_scope.

(** ** Values *)

Inductive pyval : Type :=
| PNone
| PBool (b : bool)
| PInt (z : Z)
| PFloat (q : Q)
| PStr (s : string).

#[export] Instance Q_eq_dec : EqDecision Q.
Proof. solve_decision. Defined.

#[export] Instance pyval_eq_dec : EqDecision pyval.
Proof. solve_decision. Defined.

#[export] Instance pyval_inhabited : Inhabited pyval := populate PNone.

(** A Python [dict] with string keys. *)
Abbreviation dict := (gmap string pyval).

(** ** Equivalence: the value, not the representation of a float *)

Inductive pyval_equiv : Equiv pyval :=
| PNone_equiv : PNone ≡ PNone
| PBool_equiv b : PBool b ≡ PBool b
| PInt_equiv z : PInt z ≡ PInt z
| PFloat_equiv q1 q2 : Qeq q1 q2 → PFloat q1 ≡ PFloat q2
| PStr_equiv s : PStr s ≡ PStr s.
#[export] Existing Instance pyval_equiv.

#[export] Instance pyval_equivalence : Equivalence (≡@{pyval}).
Proof.
  split.
  - intros []; constructor. reflexivity.
  - intros ?? []; constructor. by symmetry.
  - intros ??? [] H'; inversion H'; subst; constructor. by etrans.
Qed.

(** ** Truthiness, [or], [dict.get] *)

(** [bool(v)]: what [if v], [not v] and [v or w] test. *)
Definition truthy (v : pyval) : bool :=
  match v with
  | PNone => false
  | PBool b => b
  | PInt z => negb (z =? 0)
  | PFloat q => negb (Qeq_bool q 0)
  | PStr s => negb (bool_decide (s = ""))
  end.

(** [a or b]: [a] when it is truthy, [b] otherwise. *)
Definition py_or (a b : pyval) : pyval := if truthy a then a else b.
Infix "`or`" := py_or (at level 50, left associativity) : py_scope.

(** [d.get(k)]: the value under [k], [None] when the key is missing. *)
Definition dict_get (d : dict) (k : string) : pyval := default PNone (d !! k).

(** [d[k]]: the value under [k]; [None] of the option is [KeyError]. *)
Definition dict_item (d : dict) (k : string) : option pyval := d !! k.

(** [k in d]. *)
Definition dict_has (d : dict) (k : string) : bool := bool_decide (is_Some (d !! k)).

(** [v == "lit"] for a string literal. *)
Definition eq_str (v : pyval) (s : string) : bool := bool_decide (v = PStr s).

(** ** Text: [str.strip()] and [int()] of a string

    Strings are ASCII.  [isspace] is [str.isspace] on ASCII: the characters
    9-13, 28-31 and 32. *)

Definition isspace (c : Ascii.ascii) : bool :=
  let n := Ascii.nat_of_ascii c in
  ((9 <=? n) && (n <=? 13) || (28 <=? n) && (n <=? 32))%nat.

Fixpoint lstrip (s : string) : string :=
  match s with
  | String c s' => if isspace c then lstrip s' else s
  | "" => ""
  end.

Definition rstrip (s : string) : string := String.rev (lstrip (String.rev s)).

Definition strip (s : string) : string := rstrip (lstrip s).

Definition digit_of (c : Ascii.ascii) : option Z :=
  match strings.Ascii.is_nat c with Some n => Some (Z.of_nat n) | None => None end.

Definition starts_with_digit (s : string) : bool :=
  match s with String c _ => bool_decide (is_Some (digit_of c)) | "" => false end.

(** Digits, with single underscores between them. *)
Fixpoint digits_value (acc : Z) (s : string) : option Z :=
  match s with
  | "" => Some acc
  | String c s' =>
      if bool_decide (c = "_"%char)
      then if starts_with_digit s' then digits_value acc s' else None
      else d ← digit_of c; digits_value (acc * 10 + d) s'
  end.

Definition unsigned_value (s : string) : option Z :=
  if starts_with_digit s then digits_value 0 s else None.

(** [int(s)]: white space around an optional sign and decimal digits;
    [None] is [ValueError]. *)
Definition int_of_str (s : string) : option Z :=
  match strip s with
  | String c s' =>
      if bool_decide (c = "-"%char) then Z.opp <$> unsigned_value s'
      else if bool_decide (c = "+"%char) then unsigned_value s'
      else unsigned_value (String c s')
  | "" => None
  end.

(** Every character of a string satisfies [P]. *)
Fixpoint all_chars (P : Ascii.ascii → bool) (s : string) : bool :=
  match s with
  | "" => true
  | String c s' => P c && all_chars P s'
  end.

(** No white space in a string. *)
Definition no_space (s : string) : bool := all_chars (λ c, negb (isspace c)) s.

(** ** Numbers *)

(** The number a value denotes in arithmetic and comparisons; [None] for a
    value on which they raise [TypeError].  [True] and [False] are 1 and 0. *)
Definition num_of (v : pyval) : option Q :=
  match v with
  | PBool b => Some (inject_Z (if b then 1 else 0))
  | PInt z => Some (inject_Z z)
  | PFloat q => Some q
  | PNone | PStr _ => None
  end.

(** [int(x)] on a float: truncation toward zero. *)
Definition Qtrunc (q : Q) : Z := Z.quot (Qnum q) (Zpos (Qden q)).

(** ** Laws *)

Section laws.
Implicit Types (a b c v : pyval) (d : dict) (k : string).
Local Open Scope py_scope.

#[export] Instance truthy_proper : Proper ((≡) ==> (=)) truthy.
Proof. intros ?? []; simpl; try done. by rewrite H. Qed.

#[export] Instance py_or_proper : Proper ((≡) ==> (≡) ==> (≡)) py_or.
Proof.
  intros a a' Ha b b' Hb. unfold py_or. rewrite (truthy_proper _ _ Ha).
  by destruct (truthy a').
Qed.

#[export] Instance num_of_proper : Proper ((≡) ==> option_Forall2 Qeq) num_of.
Proof. intros ?? []; simpl; constructor; done. Qed.

Lemma truthy_or a b : truthy (a `or` b) = truthy a || truthy b.
Proof. unfold py_or. by destruct (truthy a) eqn:E; rewrite ?E. Qed.

Lemma py_or_assoc a b c : a `or` b `or` c = a `or` (b `or` c).
Proof.
  unfold py_or. destruct (truthy a) eqn:Ea; rewrite ?Ea; [done|].
  by destruct (truthy b).
Qed.

Lemma py_or_truthy a b : truthy a = true → a `or` b = a.
Proof. unfold py_or. by intros ->. Qed.

Lemma py_or_falsy a b : truthy a = false → a `or` b = b.
Proof. unfold py_or. by intros ->. Qed.

Lemma truthy_num v q : num_of v = Some q → truthy v = negb (Qeq_bool q 0).
Proof.
  destruct v as [|[]|z|q'|s]; intros [= <-]; simpl; try done.
  unfold Qeq_bool. simpl. by rewrite Z.mul_1_r.
Qed.

Lemma dict_get_empty k : dict_get ∅ k = PNone.
Proof. done. Qed.

Lemma dict_get_insert d k v : dict_get (<[k:=v]> d) k = v.
Proof. unfold dict_get. by rewrite lookup_insert_eq. Qed.

Lemma dict_get_insert_ne d k k' v :
  k ≠ k' → dict_get (<[k:=v]> d) k' = dict_get d k'.
Proof. intros. unfold dict_get. by rewrite lookup_insert_ne. Qed.

Lemma dict_get_missing d k : d !! k = None → dict_get d k = PNone.
Proof. unfold dict_get. by intros ->. Qed.

Lemma dict_has_insert d k v : dict_has (<[k:=v]> d) k = true.
Proof. unfold dict_has. rewrite lookup_insert_eq. by apply bool_decide_eq_true_2. Qed.

Lemma eq_str_true v s : eq_str v s = true ↔ v = PStr s.
Proof. unfold eq_str. apply bool_decide_eq_true. Qed.

End laws.

#[export] Hint Rewrite dict_get_empty dict_get_insert truthy_or : ytdl.
#[export] Hint Rewrite dict_get_insert_ne using done : ytdl.

(** ** Rationals *)

Section rationals.
Local Open Scope Q_scope.

Lemma Qle_bool_false x y : Qle_bool x y = false ↔ y < x.
Proof.
  rewrite <- not_true_iff_false, Qle_bool_iff.
  split; [apply Qnot_le_lt | apply Qlt_not_le].
Qed.

Lemma Qdiv_1024 n : n / 1024 = n * (1 # 1024).
Proof. reflexivity. Qed.

Lemma Qlt_div_l a b c : 0 < b → a / b < c → a < c * b.
Proof.
  intros Hb H. assert (a == a / b * b) as -> by (field; lra).
  by apply Qmult_lt_r.
Qed.

(** The fractional part of a rational. *)
Lemma Qfloor_frac q : 0 <= q - inject_Z (Qfloor q) < 1.
Proof.
  pose proof (Qfloor_le q). pose proof (Qlt_floor q) as H1.
  rewrite inject_Z_plus in H1. change (inject_Z 1) with 1 in H1. split; lra.
Qed.

End rationals.

(** ** Truncation *)

Section trunc.
Local Open Scope Q_scope.

Lemma Qtrunc_inject_Z z : Qtrunc (inject_Z z) = z.
Proof. unfold Qtrunc. simpl. apply Z.quot_1_r. Qed.

(** Truncation is the floor of a non-negative value and the ceiling of a
    negative one. *)
Lemma Qtrunc_floor q :
  Qtrunc q = if Qle_bool 0 q then Qfloor q else (- Qfloor (- q))%Z.
Proof.
  destruct q as [a b]. unfold Qtrunc, Qle_bool, Qfloor, Qopp. cbn [Qnum Qden].
  rewrite Z.mul_0_l, Z.mul_1_r. destruct (Z.leb_spec 0 a).
  - apply Z.quot_div_nonneg; lia.
  - rewrite <- (Z.opp_involutive a) at 1. rewrite Z.quot_opp_l by lia.
    f_equal. apply Z.quot_div_nonneg; lia.
Qed.
#[export] Instance Qtrunc_proper : Proper (Qeq ==> eq) Qtrunc.
Proof.
  intros q1 q2 H. rewrite !Qtrunc_floor.
  rewrite (Qleb_comp 0 0 (Qeq_refl 0) _ _ H), (Qfloor_comp _ _ H).
  by rewrite (Qfloor_comp (- q1) (- q2)) by by rewrite H.
Qed.
Lemma Qtrunc_nonneg q : 0 <= q → Qtrunc q = Qfloor q.
Proof. intros H%Qle_bool_iff. by rewrite Qtrunc_floor, H. Qed.
(** [int(a / b)] on integers is the truncated quotient. *)
Lemma Qtrunc_div_Z a b : b ≠ 0%Z → Qtrunc (inject_Z a / inject_Z b) = (a ÷ b)%Z.
Proof.
  intros Hb. destruct b as [|b|b]; [done|..];
    unfold Qtrunc, Qdiv, Qinv, Qmult; simpl.
  - by rewrite Z.mul_1_r.
  - change (Z.neg b) with (- Z.pos b)%Z. rewrite Z.quot_opp_r by done.
    rewrite <- Z.quot_opp_l by done. f_equal. lia.
Qed.

End trunc.

(** ** Text *)

Section text.
Implicit Types (s t : string) (c : Ascii.ascii) (x : N) (z : Z).

Lemma all_chars_rev_app P s t :
  all_chars P (String.rev_app s t) = all_chars P s && all_chars P t.
Proof.
  revert t. induction s as [|c s IH]; intros t; simpl; [done|].
  rewrite IH. simpl. by destruct (P c), (all_chars P s).
Qed.

Lemma rev_app_rev_app s1 s2 s3 :
  String.rev_app (String.rev_app s1 s2) s3 = String.rev_app s2 (s1 +:+ s3).
Proof. revert s2 s3. induction s1 as [|c s1 IH]; intros s2 s3; simpl; [done|by rewrite IH]. Qed.

Lemma rev_involutive s : String.rev (String.rev s) = s.
Proof. unfold String.rev. rewrite rev_app_rev_app. simpl. apply string_app_nil_r. Qed.

Lemma lstrip_no_space s : no_space s = true → lstrip s = s.
Proof. unfold no_space. destruct s as [|c s]; simpl; [done|]. by destruct (isspace c). Qed.

(** [strip] leaves a string without white space as it is. *)
Lemma strip_no_space s : no_space s = true → strip s = s.
Proof.
  intros H. unfold strip, rstrip. rewrite (lstrip_no_space s H), lstrip_no_space.
  - apply rev_involutive.
  - unfold no_space, String.rev. by rewrite all_chars_rev_app, andb_true_r.
Qed.

(** [strip] removes all of a blank string. *)
Lemma lstrip_blank s : all_chars isspace s = true → lstrip s = "".
Proof. induction s as [|c s IH]; simpl; [done|]. by destruct (isspace c). Qed.

Lemma strip_blank s : all_chars isspace s = true → strip s = "".
Proof. intros H. unfold strip. by rewrite (lstrip_blank s H). Qed.

Lemma digit_of_char x : (x < 10)%N → digit_of (pretty_N_char x) = Some (Z.of_N x).
Proof.
  intros H.
  assert (x = 0 ∨ x = 1 ∨ x = 2 ∨ x = 3 ∨ x = 4 ∨ x = 5 ∨ x = 6 ∨ x = 7 ∨ x = 8 ∨ x = 9)%N
    as Hx by lia.
  by repeat destruct Hx as [->|Hx]; [..|subst x].
Qed.

Lemma char_plain x :
  (x < 10)%N → isspace (pretty_N_char x) = false ∧ pretty_N_char x ≠ "_"%char ∧
               pretty_N_char x ≠ "-"%char ∧ pretty_N_char x ≠ "+"%char.
Proof.
  intros H.
  assert (x = 0 ∨ x = 1 ∨ x = 2 ∨ x = 3 ∨ x = 4 ∨ x = 5 ∨ x = 6 ∨ x = 7 ∨ x = 8 ∨ x = 9)%N
    as Hx by lia.
  by repeat destruct Hx as [->|Hx]; [..|subst x].
Qed.

(** Reading the digits [pretty] puts in front of [s] shifts the value read
    so far and adds the number printed. *)
Lemma digits_value_pretty x :
  ∃ k : Z, (0 ≤ k)%Z ∧ ∀ acc s,
    digits_value acc (pretty_N_go x s) = digits_value (acc * 10 ^ k + Z.of_N x) s.
Proof.
  induction (N.lt_wf_0 x) as [x _ IH].
  assert (x = 0 ∨ 0 < x)%N as [->|Hx] by lia.
  { exists 0%Z. split; [done|]. intros acc s. rewrite pretty_N_go_0. f_equal. lia. }
  destruct (IH (x `div` 10)%N) as (k & Hk & IHk); [by apply N.div_lt|].
  exists (k + 1)%Z. split; [lia|]. intros acc s.
  assert (x `mod` 10 < 10)%N as Hm by by apply N.mod_lt.
  rewrite pretty_N_go_step, IHk by done. simpl.
  destruct (char_plain _ Hm) as (_ & Hu & _). rewrite bool_decide_eq_false_2 by done.
  rewrite (digit_of_char _ Hm). simpl. f_equal.
  rewrite Z.pow_add_r, Z.pow_1_r by lia.
  replace (Z.of_N x) with (10 * Z.of_N (x `div` 10) + Z.of_N (x `mod` 10))%Z; [ring|].
  rewrite (N.div_mod x 10) at 3 by done. lia.
Qed.

(** What [pretty] prints for a positive number starts with a digit and
    holds no white space. *)
Lemma pretty_go_plain x s :
  (0 < x)%N → no_space s = true →
  starts_with_digit (pretty_N_go x s) = true ∧ no_space (pretty_N_go x s) = true.
Proof.
  revert s. induction (N.lt_wf_0 x) as [x _ IH]. intros s Hx Hs.
  assert (x `mod` 10 < 10)%N as Hm by by apply N.mod_lt.
  destruct (char_plain _ Hm) as (Hsp & _).
  rewrite pretty_N_go_step by done.
  destruct (N.eq_0_gt_0_cases (x `div` 10)) as [->|Hd].
  - rewrite pretty_N_go_0. unfold no_space. simpl. rewrite Hsp, (digit_of_char _ Hm). simpl.
    split; [done|]. apply Hs.
  - apply IH; [by apply N.div_lt|done|]. unfold no_space. simpl. by rewrite Hsp.
Qed.

Lemma unsigned_value_pretty x : (0 < x)%N → unsigned_value (pretty_N_go x "") = Some (Z.of_N x).
Proof.
  intros Hx. unfold unsigned_value. destruct (pretty_go_plain x "" Hx eq_refl) as [-> _].
  destruct (digits_value_pretty x) as (k & _ & ->). simpl. by f_equal.
Qed.

(** [int(str(z))] is [z]. *)
Lemma int_of_str_pretty z : int_of_str (pretty z) = Some z.
Proof.
  destruct z as [|p|p]; [done|..]; unfold pretty, pretty_Z, pretty, pretty_positive, pretty, pretty_N;
    rewrite decide_False by done;
    destruct (pretty_go_plain (Npos p) "" eq_refl eq_refl) as [Hd Hs];
    pose proof (unsigned_value_pretty (Npos p) eq_refl) as Hv; unfold int_of_str;
    revert Hd Hs Hv; generalize (pretty_N_go (N.pos p) ""); intros t Hd Hs Hv.
  - rewrite strip_no_space by done. destruct t as [|c s]; [done|].
    assert (c ≠ "-"%char ∧ c ≠ "+"%char) as [? ?].
    { split; intros ->; by vm_compute in Hd. }
    by rewrite !bool_decide_eq_false_2.
  - rewrite strip_no_space by done.
    simpl. change ("" +:+ t) with t. by rewrite Hv.
Qed.

End text.
