(* ===== verification/Format.v ===== *)
(** * The format selector: [build_format] (src/main.py 26-28)

    [build_format] turns the optional resolution cap into the selector string
    handed to the library under the key "format".  The cap is an
    [Optional[int]]: [None] or an integer; the test [if max_res] is Python
    truthiness, so the integer 0 selects the uncapped branch. *)

From S2P Require Import Prelude PyValue.

Local Open Scope Z_scope.

(** An [Optional[int]] as a Python value. *)
Definition opt_int (o : option Z) : pyval := from_option PInt PNone o.

(** [f"{n}"] for an integer: its decimal digits, with a leading minus sign. *)
Definition str_int (n : Z) : string := pretty n.

(** The selector without a cap. *)
Definition uncapped : string := "bv*+ba/b".

(** The selector with the cap [r] printed in both height filters. *)
Definition capped (r : Z) : string :=
  "bv*[height<=" +:+ str_int r +:+ "]+ba/b[height<=" +:+ str_int r +:+ "]".

Definition build_format (max_res : option Z) : string :=
  if truthy (opt_int max_res)
  then capped (default 0 max_res)
  else uncapped.

(** The cap that takes effect: none for [None] and for 0. *)
Definition effective_cap (max_res : option Z) : option Z :=
  match max_res with
  | Some r => if r =? 0 then None else Some r
  | None => None
  end.

(** The caps the options panel offers (main.py 122, 171). *)
Definition max_res_choices : list (option Z) :=
  [None; Some 2160; Some 1440; Some 1080; Some 720].

(** ** Behaviour on each branch *)

Section selector.
Implicit Types (r : Z) (o : option Z).

Lemma build_format_None : build_format None = uncapped.
Proof. reflexivity. Qed.

(** A cap of 0 is falsy: the selector has no height filter although a cap
    was given. *)
Lemma build_format_zero : build_format (Some 0) = uncapped.
Proof. reflexivity. Qed.

Lemma build_format_capped r : r ≠ 0 → build_format (Some r) = capped r.
Proof.
  intros Hr. unfold build_format. simpl.
  by rewrite (proj2 (Z.eqb_neq r 0) Hr).
Qed.

(** The whole function in one equation. *)
Lemma build_format_spec o :
  build_format o =
    match o with
    | Some r => if r =? 0 then uncapped else capped r
    | None => uncapped
    end.
Proof. destruct o as [r|]; [|done]. unfold build_format. simpl. by destruct (r =? 0). Qed.

Lemma build_format_effective o :
  build_format o = from_option capped uncapped (effective_cap o).
Proof. rewrite build_format_spec. destruct o as [r|]; [|done]. simpl. by destruct (r =? 0). Qed.

(** ** The cap is printed literally *)

Lemma capped_occurs r : occurs (str_int r) (capped r) = true.
Proof. unfold capped. apply occurs_mid. Qed.

Lemma capped_length r :
  String.length (capped r) = (28 + 2 * String.length (str_int r))%nat.
Proof. unfold capped. rewrite !string_length_app. simpl. lia. Qed.

(** Two capped selectors are equal only for the same cap. *)
Lemma capped_inj : Inj (=) (=) capped.
Proof.
  intros r1 r2 H. apply (inj pretty).
  assert (String.length (str_int r1) = String.length (str_int r2)) as Hl.
  { apply (f_equal String.length) in H. rewrite !capped_length in H. lia. }
  unfold capped in H. apply (inj (String.app _)) in H.
  by destruct (string_app_eq_length_inv _ _ _ _ Hl H).
Qed.

Lemma capped_ne_uncapped r : capped r ≠ uncapped.
Proof.
  intros H. apply (f_equal String.length) in H.
  rewrite capped_length in H. simpl in H. lia.
Qed.

End selector.

(** ** Properties *)

(** C29. For a cap that is not 0, [build_format] returns the selector
    "bv*[height<=R]+ba/b[height<=R]" where R is the cap in decimal. *)
Theorem build_format_cap_literal (r : Z) :
  r ≠ 0 →
  build_format (Some r) =
    "bv*[height<=" +:+ pretty r +:+ "]+ba/b[height<=" +:+ pretty r +:+ "]"
  ∧ occurs (pretty r) (build_format (Some r)) = true.
Proof.
  intros Hr. rewrite build_format_capped by done. split; [done|].
  apply capped_occurs.
Qed.

Lemma build_format_cap_literal_witness :
  build_format (Some 1080) =
    "bv*[height<=" +:+ pretty 1080 +:+ "]+ba/b[height<=" +:+ pretty 1080 +:+ "]"
  ∧ occurs (pretty 1080) (build_format (Some 1080)) = true.
Proof. apply (build_format_cap_literal 1080). discriminate. Defined.

(** C39. Without a cap, and also for the cap 0 (which Python treats
    as false), the selector is "bv*+ba/b"; no other cap gives it. *)
Theorem build_format_uncapped (o : option Z) :
  build_format o = "bv*+ba/b" ↔ o = None ∨ o = Some 0.
Proof.
  rewrite build_format_spec. destruct o as [r|]; [|by split; [left|]].
  destruct (Z.eqb_spec r 0) as [->|Hr]; [by split; [right|]|].
  split; [intros H; by destruct (capped_ne_uncapped r)|].
  by intros [[=]|[=]].
Qed.

(** The selector determines the cap that takes effect: two
    arguments give the same selector exactly when their effective caps
    agree. *)
Theorem build_format_inj (o1 o2 : option Z) :
  build_format o1 = build_format o2 ↔ effective_cap o1 = effective_cap o2.
Proof.
  rewrite !build_format_effective. split; [|by intros ->].
  destruct (effective_cap o1) as [r1|], (effective_cap o2) as [r2|]; simpl;
    intros H; try done.
  f_equal. by apply capped_inj.
Qed.

(** The selectors of the options panel, computed. *)
Example build_format_choices :
  build_format <$> max_res_choices =
    ["bv*+ba/b";
     "bv*[height<=2160]+ba/b[height<=2160]";
     "bv*[height<=1440]+ba/b[height<=1440]";
     "bv*[height<=1080]+ba/b[height<=1080]";
     "bv*[height<=720]+ba/b[height<=720]"].
Proof. vm_compute. reflexivity. Qed.

(** ** Hints for the files that follow *)

#[export] Hint Rewrite build_format_None build_format_zero : ytdl.
#[export] Hint Resolve capped_occurs capped_ne_uncapped : ytdl.
