(* ===== verification/HumanBytes.v ===== *)
(** * The byte-rate printer: [human_bytes] (src/main.py 30-34)

    [human_bytes] prints a byte count in binary units with one decimal.  The
    argument is whatever the library put under "speed": the function is
    modelled on every Python value, [None] of the result being the
    [TypeError] that the comparison [n <= 0] raises on a string.

    The [while] loop is [scale], with fuel; [scale_enough] shows that the
    fuel [human_bytes] passes always suffices.  [format_1f] is Python's
    [f"{n:.1f}"]: the exact value rounded to one decimal, ties to even. *)

From S2P Require Import Prelude PyValue.
From Stdlib Require Import QArith Qround Qabs Lqa.

Local Open Scope Q_scope.

(** ** Definitions *)

(** [units] of line 32. *)
Definition units : list string := ["B"; "KB"; "MB"; "GB"; "TB"].

(** The guard of the loop, line 33: [n >= 1024 and i < len(units)-1]. *)
Definition loop_cond (n : Q) (i : nat) : bool :=
  Qle_bool 1024 n && bool_decide (i < length units - 1)%nat.

(** The loop of line 33 from the state [(n, i)]: [None] when the fuel runs
    out before the guard fails. *)
Fixpoint scale (fuel : nat) (n : Q) (i : nat) : option (Q * nat) :=
  if loop_cond n i then
    match fuel with
    | O => None
    | S fuel' => scale fuel' (n / 1024) (S i)
    end
  else Some (n, i).

(** The nearest integer, ties to the even one. *)
Definition round_half_even (q : Q) : Z :=
  let fl := Qfloor q in
  match Qcompare (q - inject_Z fl) (1 # 2) with
  | Lt => fl
  | Gt => (fl + 1)%Z
  | Eq => if Z.even fl then fl else (fl + 1)%Z
  end.

(** The number of tenths that [.1f] prints. *)
Definition tenths (q : Q) : Z := round_half_even (q * 10).

(** [f"{q:.1f}"]. *)
Definition format_1f (q : Q) : string :=
  let t := Z.abs (tenths q) in
  (if Qle_bool 0 q then "" else "-") +:+
  pretty (t / 10)%Z +:+ "." +:+ pretty (t mod 10)%Z.

(** [human_bytes], lines 30-34. *)
Definition human_bytes (n : pyval) : option string :=
  if negb (truthy n) then Some "0 B"
  else
    q ← num_of n;
    if Qle_bool q 0 then Some "0 B"
    else
      '(v, i) ← scale (length units) q 0;
      u ← units !! i;
      Some (format_1f v +:+ " " +:+ u).

(** ** A closed form, for reference *)

(** [1024 ^ k]. *)
Definition pow1024 (k : nat) : Q := inject_Z (1024 ^ Z.of_nat k).

(** The index of the unit by thresholds: the largest [k <= 4] with
    [1024 ^ k <= q]. *)
Definition unit_index (q : Q) : nat :=
  if Qle_bool (pow1024 4) q then 4
  else if Qle_bool (pow1024 3) q then 3
  else if Qle_bool (pow1024 2) q then 2
  else if Qle_bool (pow1024 1) q then 1
  else 0.

Definition unit_name (k : nat) : string := default "" (units !! k).

(** What [human_bytes] prints for a positive number, without a loop. *)
Definition human_bytes_ref (q : Q) : string :=
  format_1f (q / pow1024 (unit_index q)) +:+ " " +:+ unit_name (unit_index q).

(** ** The values the specification lists *)

Example human_bytes_zero : human_bytes (PInt 0) = Some "0 B".
Proof. reflexivity. Qed.

Example human_bytes_none : human_bytes PNone = Some "0 B".
Proof. reflexivity. Qed.

Example human_bytes_1536 : human_bytes (PInt 1536) = Some "1.5 KB".
Proof. vm_compute. reflexivity. Qed.

Example human_bytes_mib : human_bytes (PInt (1024 * 1024)) = Some "1.0 MB".
Proof. vm_compute. reflexivity. Qed.

Example human_bytes_examples :
  human_bytes <$> [PFloat (5 # 2); PInt 1023; PFloat (102399 # 100);
                   PInt (1024 ^ 5); PInt (-7); PBool true; PStr ""; PStr "x";
                   PFloat (1 # 4); PFloat (3 # 4)]
  = [Some "2.5 B"; Some "1023.0 B"; Some "1024.0 B";
     Some "1024.0 TB"; Some "0 B"; Some "1.0 B"; Some "0 B"; None;
     Some "0.2 B"; Some "0.8 B"].
Proof. vm_compute. reflexivity. Qed.

(** ** Rounding *)

Section rounding.
Implicit Types q : Q.

#[export] Instance round_half_even_proper : Proper (Qeq ==> eq) round_half_even.
Proof.
  intros q1 q2 H. unfold round_half_even.
  rewrite (Qfloor_comp _ _ H).
  assert (q1 - inject_Z (Qfloor q2) == q2 - inject_Z (Qfloor q2)) as Hd by lra.
  by rewrite (Qcompare_comp _ _ Hd _ _ (Qeq_refl _)).
Qed.

(** The rounded value is within one half of the argument. *)
Lemma round_half_even_bound q : Qabs (inject_Z (round_half_even q) - q) <= 1 # 2.
Proof.
  pose proof (Qfloor_frac q) as [H0 H1]. unfold round_half_even.
  apply Qabs_Qle_condition.
  destruct (Qcompare_spec (q - inject_Z (Qfloor q)) (1 # 2)) as [He|Hl|Hg];
    [destruct (Z.even _)|..];
    rewrite ?inject_Z_plus; change (inject_Z 1) with 1; split; lra.
Qed.

Lemma round_half_even_inject_Z z : round_half_even (inject_Z z) = z.
Proof.
  unfold round_half_even. rewrite Qfloor_Z.
  by destruct (Qcompare_spec (inject_Z z - inject_Z z) (1 # 2)) as [He|Hl|Hg];
    [lra| |lra].
Qed.

Lemma round_half_even_mono q1 q2 : q1 <= q2 → (round_half_even q1 <= round_half_even q2)%Z.
Proof.
  intros H. pose proof (Qfloor_resp_le _ _ H) as Hf.
  pose proof (Qfloor_frac q1) as [? ?]. pose proof (Qfloor_frac q2) as [? ?].
  destruct (decide (Qfloor q1 = Qfloor q2)) as [E|NE]; cycle 1.
  { assert (Qfloor q1 + 1 <= Qfloor q2)%Z as Hz by lia.
    transitivity (Qfloor q1 + 1)%Z; [|etrans; [apply Hz|]];
      unfold round_half_even; repeat case_match; lia. }
  unfold round_half_even. rewrite E.
  destruct (Qcompare_spec (q1 - inject_Z (Qfloor q2)) (1 # 2));
    destruct (Qcompare_spec (q2 - inject_Z (Qfloor q2)) (1 # 2));
    rewrite ?E in *; try destruct (Z.even _); try lia; lra.
Qed.

Lemma round_half_even_nonneg q : 0 <= q → (0 <= round_half_even q)%Z.
Proof.
  intros H. change 0%Z with (round_half_even (inject_Z 0)) at 1
    || rewrite <- (round_half_even_inject_Z 0).
  by apply round_half_even_mono.
Qed.

End rounding.

(** ** The scaling loop *)

Section scaling.
Implicit Types (n v q : Q) (i j k fuel : nat).

Lemma pow1024_pos k : 0 < pow1024 k.
Proof.
  unfold pow1024. change 0 with (inject_Z 0). rewrite <- Zlt_Qlt.
  apply Z.pow_pos_nonneg; lia.
Qed.

Lemma pow1024_S k : pow1024 (S k) == 1024 * pow1024 k.
Proof.
  unfold pow1024. rewrite Nat2Z.inj_succ, Z.pow_succ_r by lia.
  by rewrite inject_Z_mult.
Qed.

Lemma pow1024_0 : pow1024 0 == 1.
Proof. reflexivity. Qed.

Lemma loop_cond_true n i : loop_cond n i = true ↔ 1024 <= n ∧ (i < 4)%nat.
Proof.
  unfold loop_cond. rewrite andb_true_iff, Qle_bool_iff, bool_decide_eq_true.
  simpl. reflexivity.
Qed.

Lemma loop_cond_false n i : loop_cond n i = false ↔ n < 1024 ∨ (4 ≤ i)%nat.
Proof.
  unfold loop_cond. rewrite andb_false_iff, Qle_bool_false, bool_decide_eq_false.
  simpl. split; (intros [?|?]; [by left|right; lia]).
Qed.

Lemma scale_unfold fuel n i :
  scale (S fuel) n i = if loop_cond n i then scale fuel (n / 1024) (S i) else Some (n, i).
Proof. reflexivity. Qed.

Lemma scale_stop fuel n i : loop_cond n i = false → scale fuel n i = Some (n, i).
Proof. intros H. destruct fuel; simpl; by rewrite H. Qed.

(** The loop ends: the fuel [length units - 1 - i] lets it reach its exit. *)
Lemma scale_enough fuel n i : (length units - 1 - i ≤ fuel)%nat → is_Some (scale fuel n i).
Proof.
  revert n i. induction fuel as [|fuel IH]; intros n i Hf;
    destruct (loop_cond n i) eqn:E; rewrite ?scale_stop by done; eauto.
  - apply loop_cond_true in E. simpl in Hf. lia.
  - rewrite scale_unfold, E. apply IH. apply loop_cond_true in E. simpl in *. lia.
Qed.

(** More fuel does not change a result. *)
Lemma scale_fuel_mono fuel fuel' n i r :
  scale fuel n i = Some r → (fuel ≤ fuel')%nat → scale fuel' n i = Some r.
Proof.
  revert fuel' n i. induction fuel as [|fuel IH]; intros fuel' n i H Hf;
    destruct (loop_cond n i) eqn:E; rewrite ?scale_stop in * by done; try done.
  - simpl in H. by rewrite E in H.
  - destruct fuel' as [|fuel']; [lia|]. rewrite scale_unfold, E in *.
    apply IH; [done|lia].
Qed.

(** What the loop computes: it divides [k] times, [k] being the first count
    at which the guard fails. *)
Lemma scale_spec fuel n i v j :
  scale fuel n i = Some (v, j) →
  ∃ k, j = (i + k)%nat ∧ v == n / pow1024 k ∧ loop_cond v j = false ∧
       ∀ k', (k' < k)%nat → pow1024 (S k') <= n ∧ (i + k' < 4)%nat.
Proof.
  revert n i. induction fuel as [|fuel IH]; intros n i H;
    destruct (loop_cond n i) eqn:E; rewrite ?scale_stop in H by done.
  - simpl in H. by rewrite E in H.
  - injection H as <- <-. exists 0%nat. rewrite Nat.add_0_r, pow1024_0.
    split_and!; [done|field|done|lia].
  - rewrite scale_unfold, E in H. apply IH in H as (k & -> & Hv & Hc & Hk).
    apply loop_cond_true in E as [E1 E2].
    exists (S k). split_and!; [lia| |done|].
    + rewrite Hv, pow1024_S. field. pose proof (pow1024_pos k). lra.
    + intros [|k'] Hlt.
      * rewrite pow1024_S, pow1024_0. split; [lra|lia].
      * destruct (Hk k') as [H1 H2]; [lia|]. split; [|lia].
        rewrite pow1024_S. rewrite Qdiv_1024 in H1. lra.
  - injection H as <- <-. exists 0%nat. rewrite Nat.add_0_r, pow1024_0.
    split_and!; [done|field|done|lia].
Qed.

Lemma unit_index_spec q k :
  (∀ k', (k' < k)%nat → pow1024 (S k') <= q ∧ (k' < 4)%nat) →
  (q < pow1024 (S k) ∨ (4 ≤ k)%nat) →
  unit_index q = k.
Proof.
  intros Hlow Hup.
  assert (k ≤ 4)%nat as Hk4.
  { destruct k as [|k]; [lia|]. destruct (Hlow k); lia. }
  assert (∀ k', (k' < k)%nat → Qle_bool (pow1024 (S k')) q = true) as Hl.
  { intros k' ?. apply Qle_bool_iff. by apply Hlow. }
  assert (∀ k', (k ≤ k' < 4)%nat → Qle_bool (pow1024 (S k')) q = false) as Hu.
  { intros k' [? ?]. apply Qle_bool_false. destruct Hup as [Hup|?]; [|lia].
    eapply Qlt_le_trans; [done|]. unfold pow1024. rewrite <- Zle_Qle.
    apply Z.pow_le_mono_r; lia. }
  unfold unit_index.
  do 5 (destruct k as [|k];
    [by rewrite ?(Hl 3%nat), ?(Hl 2%nat), ?(Hl 1%nat), ?(Hl 0%nat),
       ?(Hu 3%nat), ?(Hu 2%nat), ?(Hu 1%nat), ?(Hu 0%nat) by lia|]).
  lia.
Qed.

(** The loop from [(q, 0)] with the fuel [human_bytes] gives it. *)
Lemma scale_closed q :
  ∃ v, scale (length units) q 0 = Some (v, unit_index q) ∧
       v == q / pow1024 (unit_index q).
Proof.
  destruct (scale_enough (length units) q 0) as [[v j] H]; [simpl; lia|].
  destruct (scale_spec _ _ _ _ _ H) as (k & -> & Hv & Hc & Hk). simpl in *.
  assert (unit_index q = k) as ->; [|eauto].
  apply unit_index_spec; [intros k' ?; destruct (Hk k'); auto|].
  apply loop_cond_false in Hc as [Hc|?]; [left|by right].
  rewrite pow1024_S. rewrite Hv in Hc. pose proof (pow1024_pos k).
  apply Qlt_div_l in Hc; lra.
Qed.

End scaling.
(** ** Formatting and the function as a whole *)

#[export] Instance tenths_proper : Proper (Qeq ==> eq) tenths.
Proof. intros q1 q2 H. unfold tenths. apply round_half_even_proper. by rewrite H. Qed.

#[export] Instance format_1f_proper : Proper (Qeq ==> eq) format_1f.
Proof.
  intros q1 q2 H. unfold format_1f.
  by rewrite (tenths_proper _ _ H), (Qleb_comp _ _ (Qeq_refl 0) _ _ H).
Qed.

Lemma tenths_bound q : Qabs (inject_Z (tenths q) / 10 - q) <= 1 # 20.
Proof.
  pose proof (round_half_even_bound (q * 10)) as H. fold (tenths q) in H.
  apply Qabs_Qle_condition in H as [H1 H2]. apply Qabs_Qle_condition.
  change (inject_Z (tenths q) / 10) with (inject_Z (tenths q) * (1 # 10)).
  split; lra.
Qed.

Lemma unit_index_le q : (unit_index q ≤ 4)%nat.
Proof. unfold unit_index. repeat case_match; lia. Qed.

Lemma unit_name_lookup k : (k ≤ 4)%nat → units !! k = Some (unit_name k).
Proof. intros H. do 5 (destruct k as [|k]; [done|]). lia. Qed.

Lemma human_bytes_falsy n : truthy n = false → human_bytes n = Some "0 B".
Proof. unfold human_bytes. by intros ->. Qed.

Lemma human_bytes_nonpos n q : num_of n = Some q → q <= 0 → human_bytes n = Some "0 B".
Proof.
  intros Hn Hq%Qle_bool_iff. unfold human_bytes. rewrite Hn. simpl. rewrite Hq.
  by destruct (truthy n).
Qed.

Lemma truthy_pos n q : num_of n = Some q → 0 < q → truthy n = true.
Proof.
  intros Hn Hq. rewrite (truthy_num _ _ Hn). apply negb_true_iff.
  apply not_true_iff_false. intros H%Qeq_bool_iff. lra.
Qed.

Lemma human_bytes_pos n q :
  num_of n = Some q → 0 < q → human_bytes n = Some (human_bytes_ref q).
Proof.
  intros Hn Hq. unfold human_bytes.
  rewrite (truthy_pos _ _ Hn Hq), Hn. cbn [negb mbind option_bind].
  rewrite (proj2 (Qle_bool_false q 0) Hq).
  destruct (scale_closed q) as (v & -> & Hv). cbn [mbind option_bind].
  rewrite (unit_name_lookup _ (unit_index_le q)). cbn [mbind option_bind].
  unfold human_bytes_ref. by rewrite (format_1f_proper _ _ Hv).
Qed.

Lemma human_bytes_str s : human_bytes (PStr s) = if bool_decide (s = "") then Some "0 B" else None.
Proof. unfold human_bytes. simpl. by case_bool_decide. Qed.

Lemma pow1024_values :
  pow1024 0 = 1 ∧ pow1024 1 = 1024 ∧ pow1024 2 = 1048576 ∧
  pow1024 3 = 1073741824 ∧ pow1024 4 = 1099511627776.
Proof. by vm_compute. Qed.

Lemma unit_index_range q :
  0 < q →
  (unit_index q ≤ 4)%nat ∧
  ((0 < unit_index q)%nat → 1 <= q / pow1024 (unit_index q)) ∧
  ((unit_index q < 4)%nat → q / pow1024 (unit_index q) < 1024).
Proof.
  intros Hq. destruct pow1024_values as (E0 & E1 & E2 & E3 & E4).
  unfold unit_index. rewrite E1, E2, E3, E4.
  repeat match goal with
  | |- context [Qle_bool ?a q] =>
      let E := fresh "E" in
      destruct (Qle_bool a q) eqn:E;
      [apply Qle_bool_iff in E | apply Qle_bool_false in E]
  end;
  rewrite ?E0, ?E1, ?E2, ?E3, ?E4;
  (split_and!; [lia| intros ?; try lia | intros ?; try lia]);
  try (apply Qle_shift_div_l; lra); try (apply Qlt_shift_div_r; lra).
Qed.

#[export] Instance unit_index_proper : Proper (Qeq ==> eq) unit_index.
Proof.
  intros q1 q2 H. unfold unit_index.
  by rewrite !(Qleb_comp _ _ (Qeq_refl _) _ _ H).
Qed.

#[export] Instance human_bytes_ref_proper : Proper (Qeq ==> eq) human_bytes_ref.
Proof.
  intros q1 q2 H. unfold human_bytes_ref. rewrite (unit_index_proper _ _ H).
  f_equal. apply format_1f_proper. by rewrite H.
Qed.

Lemma human_bytes_proper : Proper ((≡) ==> (=)) human_bytes.
Proof.
  intros n1 n2 [| | |q1 q2 H|]; try done.
  destruct (Qlt_le_dec 0 q1) as [Hp|Hn].
  - rewrite (human_bytes_pos (PFloat q1) q1), (human_bytes_pos (PFloat q2) q2);
      try done; [|by rewrite <- H].
    by rewrite H.
  - rewrite (human_bytes_nonpos (PFloat q1) q1), (human_bytes_nonpos (PFloat q2) q2);
      try done. by rewrite <- H.
Qed.

Lemma human_bytes_num n q :
  num_of n = Some q →
  human_bytes n = Some (if Qle_bool q 0 then "0 B" else human_bytes_ref q).
Proof.
  intros Hn. destruct (Qle_bool q 0) eqn:E.
  - apply Qle_bool_iff in E. by eapply human_bytes_nonpos.
  - apply Qle_bool_false in E. by apply human_bytes_pos.
Qed.

Lemma human_bytes_None n : human_bytes n = None ↔ ∃ s, n = PStr s ∧ s ≠ "".
Proof.
  destruct (num_of n) as [q|] eqn:Hn.
  - rewrite (human_bytes_num _ _ Hn). split; [done|].
    by intros (s & -> & _).
  - destruct n as [| | | |s]; try done; [by split; [|intros (?&?&?)]|].
    rewrite human_bytes_str. case_bool_decide; split; try done.
    + by intros (? & [= <-] & ?).
    + eauto.
Qed.

(** ** Properties *)

(** C21. For a positive number, [human_bytes] prints what the closed
    form [human_bytes_ref] gives: the value divided by [1024 ^ k] with one
    decimal, a space and the [k]-th unit, [k] chosen by thresholds.  The loop
    and the closed form agree. *)
Theorem human_bytes_closed_form (n : pyval) (q : Q) :
  num_of n = Some q → 0 < q → human_bytes n = Some (human_bytes_ref q).
Proof. apply human_bytes_pos. Qed.

Lemma human_bytes_closed_form_witness :
  human_bytes (PInt 1536) = Some (human_bytes_ref (inject_Z 1536)).
Proof. apply (human_bytes_closed_form (PInt 1536) (inject_Z 1536)); reflexivity. Defined.

(** The unit chosen for a positive value is one of the five, the
    scaled magnitude is at least 1 unless the unit is B, and below 1024
    unless the unit is TB. *)
Theorem human_bytes_unit_range (q : Q) :
  0 < q →
  (unit_index q ≤ 4)%nat ∧
  ((0 < unit_index q)%nat → 1 <= q / pow1024 (unit_index q)) ∧
  ((unit_index q < 4)%nat → q / pow1024 (unit_index q) < 1024).
Proof. apply unit_index_range. Qed.

Lemma human_bytes_unit_range_witness :
  (unit_index 1536 ≤ 4)%nat ∧
  ((0 < unit_index 1536)%nat → 1 <= 1536 / pow1024 (unit_index 1536)) ∧
  ((unit_index 1536 < 4)%nat → 1536 / pow1024 (unit_index 1536) < 1024).
Proof. apply (human_bytes_unit_range 1536). reflexivity. Defined.

(** C31. The loop of [human_bytes] terminates: from any state, fuel
    [len(units) - 1 - i] reaches the exit of the loop, and more fuel gives
    the same result. *)
Theorem scale_terminates (fuel : nat) (n : Q) (i : nat) :
  (length units - 1 - i ≤ fuel)%nat →
  ∃ r, scale fuel n i = Some r ∧
       ∀ fuel', (fuel ≤ fuel')%nat → scale fuel' n i = Some r.
Proof.
  intros Hf. destruct (scale_enough fuel n i Hf) as [r Hr].
  exists r. split; [done|]. intros fuel' ?. by apply (scale_fuel_mono fuel).
Qed.

Lemma scale_terminates_witness :
  ∃ r, scale 4 (5000000 # 1) 0 = Some r ∧
       ∀ fuel', (4 ≤ fuel')%nat → scale fuel' (5000000 # 1) 0 = Some r.
Proof. apply (scale_terminates 4 (5000000 # 1) 0). simpl. lia. Defined.

(** [human_bytes] raises (the comparison [n <= 0] on a string)
    exactly on a non-empty string; on [None], booleans and numbers it
    returns. *)
Theorem human_bytes_raises_iff (n : pyval) :
  human_bytes n = None ↔ ∃ s, n = PStr s ∧ s ≠ "".
Proof. apply human_bytes_None. Qed.

(** A falsy argument ([None], 0, 0.0, [False], the empty string)
    and a number that is not positive print as "0 B". *)
Theorem human_bytes_zero_repr (n : pyval) :
  truthy n = false ∨ (∃ q, num_of n = Some q ∧ q <= 0) →
  human_bytes n = Some "0 B".
Proof.
  intros [H|(q & Hn & Hq)]; [by apply human_bytes_falsy|].
  by eapply human_bytes_nonpos.
Qed.

Lemma human_bytes_zero_repr_witness : human_bytes (PInt (-7)) = Some "0 B".
Proof.
  apply (human_bytes_zero_repr (PInt (-7))). right.
  exists (inject_Z (-7)). split; [reflexivity|discriminate].
Defined.

(** The value printed with one decimal, [tenths q / 10], is
    within 1/20 of the value [q]. *)
Theorem format_1f_accuracy (q : Q) :
  Qabs (inject_Z (tenths q) / 10 - q) <= 1 # 20.
Proof. apply tenths_bound. Qed.

(** [human_bytes] depends on the number a float denotes, not
    on the fraction that represents it. *)
Theorem human_bytes_respects_value (n1 n2 : pyval) :
  n1 ≡ n2 → human_bytes n1 = human_bytes n2.
Proof. apply human_bytes_proper. Qed.

Lemma human_bytes_respects_value_witness :
  human_bytes (PFloat (3 # 2)) = human_bytes (PFloat (6 # 4)).
Proof.
  apply (human_bytes_respects_value (PFloat (3 # 2)) (PFloat (6 # 4))).
  constructor. reflexivity.
Defined.

(** The values the specification lists: 0 and [None] print as
    "0 B", 1536 as "1.5 KB" and 1024 * 1024 as "1.0 MB". *)
Theorem human_bytes_spec_values :
  human_bytes (PInt 0) = Some "0 B" ∧ human_bytes PNone = Some "0 B" ∧
  human_bytes (PInt 1536) = Some "1.5 KB" ∧
  human_bytes (PInt (1024 * 1024)) = Some "1.0 MB".
Proof. by vm_compute. Qed.

(** ** Hints for the files that follow *)

#[export] Existing Instance human_bytes_proper.

#[export] Hint Resolve pow1024_pos unit_index_le scale_enough : ytdl.
#[export] Hint Rewrite human_bytes_str : ytdl.
