(* ===== verification/Hook.v ===== *)
(** * Signals and the progress hook (src/main.py 37-38, 55-67)

    The worker talks to the window through two signals: [sig_update], which
    carries a row index and a payload dictionary, and [sig_done].  The
    progress hook is the closure [hook] that [DLWorker.run] builds for each
    item: the library calls it with a raw status dictionary [d], and the hook
    emits at most one [sig_update] for the item's row.  The hook raises when
    the arithmetic or [human_bytes] raises on an ill-typed value; what the
    library does with such an exception is the library's business. *)

From S2P Require Import Prelude PyValue HumanBytes.
From Stdlib Require Import QArith Qround Lqa.

Local Open Scope py_scope.

(** ** Signals *)

(** [sig_update = Signal(int, dict)] and [sig_done = Signal()]. *)
Inductive signal : Type :=
| SigUpdate (row : nat) (payload : dict)
| SigDone.

#[export] Instance signal_eq_dec : EqDecision signal.
Proof. solve_decision. Defined.

(** What a call of the hook does. *)
Inductive hook_result : Type :=
| HookEmit (s : signal)
| HookSkip
| HookRaise.

(** ** The hook *)

(** Line 58: [d.get("total_bytes") or d.get("total_bytes_estimate") or 0]. *)
Definition hook_total (d : dict) : pyval :=
  dict_get d "total_bytes" `or` dict_get d "total_bytes_estimate" `or` PInt 0.

(** Line 59: [d.get("downloaded_bytes") or 0]. *)
Definition hook_got (d : dict) : pyval :=
  dict_get d "downloaded_bytes" `or` PInt 0.

(** Line 60: [int(got*100/total) if total else 0]; [None] when the
    arithmetic raises. *)
Definition pct (got total : pyval) : option Z :=
  if truthy total then
    g ← num_of got;
    t ← num_of total;
    Some (Qtrunc (g * 100 / t)%Q)
  else Some 0%Z.

(** Line 64: [f"{human_bytes(d.get('speed'))}/s" if d.get("speed") else ""]. *)
Definition speed_text (speed : pyval) : option string :=
  if truthy speed then s ← human_bytes speed; Some (s +:+ "/s")
  else Some "".

(** The payload of lines 61-65. *)
Definition downloading_payload (p : Z) (speed : string) : dict :=
  {[ "status" := PStr "Downloading"; "progress" := PInt p; "speed" := PStr speed ]}.

(** The payload of line 67. *)
Definition merging_payload : dict :=
  {[ "status" := PStr "Merging"; "progress" := PInt 100 ]}.

(** [hook], lines 55-67, for the item of row [i]. *)
Definition hook (i : nat) (d : dict) : hook_result :=
  let st := dict_get d "status" in
  if eq_str st "downloading" then
    match pct (hook_got d) (hook_total d), speed_text (dict_get d "speed") with
    | Some p, Some s => HookEmit (SigUpdate i (downloading_payload p s))
    | _, _ => HookRaise
    end
  else if eq_str st "finished" then HookEmit (SigUpdate i merging_payload)
  else HookSkip.

(** The signals a call of the hook emits. *)
Definition hook_signals (i : nat) (d : dict) : list signal :=
  match hook i d with
  | HookEmit s => [s]
  | HookSkip | HookRaise => []
  end.

(** ** Well-formed payloads *)

(** The keys a payload may hold and the type of the value under each:
    "progress" holds an [int], the other keys a [str]. *)
Definition field_ok (k : string) (v : pyval) : bool :=
  match v with
  | PInt _ => bool_decide (k = "progress")
  | PStr _ => bool_decide (k ∈ ["status"; "speed"; "title"; "error"])
  | _ => false
  end.

Definition payload_wf (p : dict) : Prop := map_Forall (λ k v, field_ok k v = true) p.

#[export] Instance payload_wf_dec p : Decision (payload_wf p).
Proof. unfold payload_wf. apply _. Defined.

Definition signal_wf (sg : signal) : Prop :=
  match sg with
  | SigUpdate _ p => payload_wf p
  | SigDone => True
  end.

#[export] Instance signal_wf_dec sg : Decision (signal_wf sg).
Proof. destruct sg; apply _. Defined.

(** A value as the library documents its numeric fields: absent, or a
    number. *)
Definition numeric_or_none (v : pyval) : Prop := v = PNone ∨ is_Some (num_of v).

(** The progress a call of the hook reports, if it emits. *)
Definition hook_progress (r : hook_result) : option pyval :=
  match r with
  | HookEmit (SigUpdate _ p) => p !! "progress"
  | _ => None
  end.

(** ** Examples *)

Example hook_downloading_half :
  hook 3 {[ "status" := PStr "downloading"; "downloaded_bytes" := PInt 512;
            "total_bytes" := PInt 1024; "speed" := PFloat (1536 # 1) ]}
  = HookEmit (SigUpdate 3 (downloading_payload 50 "1.5 KB/s")).
Proof. vm_compute. reflexivity. Qed.

Example hook_estimate_only :
  hook 0 {[ "status" := PStr "downloading"; "downloaded_bytes" := PInt 1;
            "total_bytes" := PNone; "total_bytes_estimate" := PFloat (3 # 1) ]}
  = HookEmit (SigUpdate 0 (downloading_payload 33 "")).
Proof. vm_compute. reflexivity. Qed.

Example hook_unknown_total :
  hook 0 {[ "status" := PStr "downloading"; "downloaded_bytes" := PInt 700 ]}
  = HookEmit (SigUpdate 0 (downloading_payload 0 "")).
Proof. vm_compute. reflexivity. Qed.

Example hook_finished :
  hook 1 {[ "status" := PStr "finished" ]} = HookEmit (SigUpdate 1 merging_payload).
Proof. vm_compute. reflexivity. Qed.

Example hook_error_status : hook 1 {[ "status" := PStr "error" ]} = HookSkip.
Proof. vm_compute. reflexivity. Qed.

Example hook_ill_typed :
  hook 1 {[ "status" := PStr "downloading"; "downloaded_bytes" := PStr "12";
            "total_bytes" := PInt 100 ]} = HookRaise.
Proof. vm_compute. reflexivity. Qed.

(** ** The percentage *)

Section percentage.
Implicit Types (got total : pyval) (g t : Z) (d : dict).

Lemma pct_falsy got total : truthy total = false → pct got total = Some 0%Z.
Proof. unfold pct. by intros ->. Qed.

Lemma pct_num got total qg qt :
  truthy total = true → num_of got = Some qg → num_of total = Some qt →
  pct got total = Some (Qtrunc (qg * 100 / qt)%Q).
Proof. unfold pct. by intros -> -> ->. Qed.

Lemma pct_int g t : t ≠ 0%Z → pct (PInt g) (PInt t) = Some ((g * 100) ÷ t)%Z.
Proof.
  intros Ht. rewrite (pct_num _ _ (inject_Z g) (inject_Z t)); try done.
  - f_equal. rewrite <- Qtrunc_div_Z by done. apply Qtrunc_proper.
    by rewrite inject_Z_mult.
  - simpl. by apply negb_true_iff, Z.eqb_neq.
Qed.

Lemma pct_None got total :
  pct got total = None ↔
  truthy total = true ∧ (num_of got = None ∨ num_of total = None).
Proof.
  unfold pct. destruct (truthy total); [|by split; [|intros []]].
  destruct (num_of got), (num_of total); simpl; split; try done;
    try (by intros [_ [?|?]]); auto.
Qed.

(** For byte counts: the floor of the exact percentage. *)
Lemma pct_floor g t :
  (0 ≤ g)%Z → (0 < t)%Z → pct (PInt g) (PInt t) = Some (g * 100 / t)%Z.
Proof.
  intros Hg Ht. rewrite pct_int by lia. f_equal. apply Z.quot_div_nonneg; lia.
Qed.

Lemma pct_range g t p :
  (0 ≤ g)%Z → (0 < t)%Z → pct (PInt g) (PInt t) = Some p →
  (0 ≤ p)%Z ∧ ((p ≤ 100)%Z ↔ (g * 100 < 101 * t)%Z).
Proof.
  intros Hg Ht. rewrite pct_floor by done. intros [= <-].
  split; [apply Z.div_pos; lia|].
  split; intros H.
  - apply Z.nle_gt. intros Hc.
    assert (101 ≤ g * 100 / t)%Z; [|lia].
    apply Z.div_le_lower_bound; lia.
  - assert (g * 100 / t < 101)%Z; [|lia].
    apply Z.div_lt_upper_bound; lia.
Qed.

Lemma pct_mono g g' t p p' :
  (0 ≤ g ≤ g')%Z → (0 < t)%Z →
  pct (PInt g) (PInt t) = Some p → pct (PInt g') (PInt t) = Some p' → (p ≤ p')%Z.
Proof.
  intros Hg Ht. rewrite !pct_floor by lia. intros [= <-] [= <-].
  apply Z.div_le_mono; lia.
Qed.

End percentage.

(** ** The hook on each branch *)

Section hook_branches.
Implicit Types (d : dict) (i : nat) (sg : signal).

Lemma speed_text_None v : speed_text v = None ↔ ∃ s, v = PStr s ∧ s ≠ "".
Proof.
  unfold speed_text. destruct (truthy v) eqn:Ev.
  - destruct (human_bytes v) as [s|] eqn:Eh; simpl.
    + split; [done|]. intros Hs%human_bytes_None. congruence.
    + split; [|done]. intros _. by apply human_bytes_None.
  - split; [done|]. intros (s & -> & Hs). simpl in Ev.
    by rewrite bool_decide_eq_false_2 in Ev.
Qed.

Lemma speed_text_falsy v : truthy v = false → speed_text v = Some "".
Proof. unfold speed_text. by intros ->. Qed.

Lemma hook_downloading i d p sp :
  dict_get d "status" = PStr "downloading" →
  pct (hook_got d) (hook_total d) = Some p →
  speed_text (dict_get d "speed") = Some sp →
  hook i d = HookEmit (SigUpdate i (downloading_payload p sp)).
Proof. unfold hook. by intros -> -> ->. Qed.

Lemma hook_finished_emit i d :
  dict_get d "status" = PStr "finished" →
  hook i d = HookEmit (SigUpdate i merging_payload).
Proof. unfold hook. by intros ->. Qed.

Lemma hook_other i d :
  dict_get d "status" ≠ PStr "downloading" →
  dict_get d "status" ≠ PStr "finished" →
  hook i d = HookSkip.
Proof.
  intros H1 H2. unfold hook, eq_str.
  by rewrite !bool_decide_eq_false_2.
Qed.

(** Every case of the hook at once. *)
Lemma hook_cases i d :
  (dict_get d "status" = PStr "downloading" ∧
     ((∃ p sp, pct (hook_got d) (hook_total d) = Some p ∧
               speed_text (dict_get d "speed") = Some sp ∧
               hook i d = HookEmit (SigUpdate i (downloading_payload p sp))) ∨
      ((pct (hook_got d) (hook_total d) = None ∨
        speed_text (dict_get d "speed") = None) ∧ hook i d = HookRaise))) ∨
  (dict_get d "status" = PStr "finished" ∧
     hook i d = HookEmit (SigUpdate i merging_payload)) ∨
  (dict_get d "status" ≠ PStr "downloading" ∧
     dict_get d "status" ≠ PStr "finished" ∧ hook i d = HookSkip).
Proof.
  destruct (decide (dict_get d "status" = PStr "downloading")) as [E|NE].
  - left. split; [done|]. unfold hook. rewrite E. simpl.
    destruct (pct _ _) as [p|], (speed_text _) as [sp|]; eauto 10.
  - right. destruct (decide (dict_get d "status" = PStr "finished")) as [E|NE'].
    + left. auto using hook_finished_emit.
    + right. auto using hook_other.
Qed.

Lemma hook_emit_row i d sg : hook i d = HookEmit sg → ∃ p, sg = SigUpdate i p.
Proof.
  destruct (hook_cases i d) as [[_ [(p & sp & _ & _ & ->)|[_ ->]]]|[[_ ->]|(_ & _ & ->)]];
    intros [= <-] || done; eauto.
Qed.

Lemma hook_signals_length i d : length (hook_signals i d) ≤ 1.
Proof. unfold hook_signals. destruct (hook i d); simpl; lia. Qed.

End hook_branches.

Section payloads.
Implicit Types (p : Z) (sp : string).

Lemma payload_wf_insert_str k s (m : dict) :
  k ∈ ["status"; "speed"; "title"; "error"] → payload_wf m → payload_wf (<[k:=PStr s]> m).
Proof. intros Hk Hm. apply map_Forall_insert_2; [|done]. simpl. by apply bool_decide_eq_true. Qed.

Lemma payload_wf_insert_progress z (m : dict) :
  payload_wf m → payload_wf (<["progress":=PInt z]> m).
Proof. intros Hm. by apply map_Forall_insert_2. Qed.

Lemma payload_wf_empty : payload_wf ∅.
Proof. apply map_Forall_empty. Qed.

Lemma downloading_payload_wf p sp : payload_wf (downloading_payload p sp).
Proof. apply (bool_decide_unpack _). by vm_compute. Qed.

Lemma merging_payload_wf : payload_wf merging_payload.
Proof. apply (bool_decide_unpack _). by vm_compute. Qed.

Lemma downloading_payload_get p sp :
  dict_get (downloading_payload p sp) "status" = PStr "Downloading" ∧
  dict_get (downloading_payload p sp) "progress" = PInt p ∧
  dict_get (downloading_payload p sp) "speed" = PStr sp.
Proof. unfold downloading_payload, dict_get. by simplify_map_eq. Qed.

Lemma hook_emit_wf i d sg : hook i d = HookEmit sg → signal_wf sg.
Proof.
  destruct (hook_cases i d) as [[_ [(p & sp & _ & _ & ->)|[_ ->]]]|[[_ ->]|(_ & _ & ->)]];
    intros [= <-] || done; simpl;
    auto using downloading_payload_wf, merging_payload_wf.
Qed.

End payloads.

(** ** Hooks on well-typed dictionaries *)

Section typed.
Implicit Types (d : dict) (i : nat) (v w : pyval).

Lemma or_numeric v w :
  numeric_or_none v → is_Some (num_of w) → is_Some (num_of (v `or` w)).
Proof.
  intros [->|Hv] Hw; [done|]. unfold py_or. by destruct (truthy v).
Qed.

Lemma hook_got_numeric d :
  numeric_or_none (dict_get d "downloaded_bytes") → is_Some (num_of (hook_got d)).
Proof. intros H. by apply or_numeric. Qed.

Lemma hook_total_numeric d :
  numeric_or_none (dict_get d "total_bytes") →
  numeric_or_none (dict_get d "total_bytes_estimate") →
  is_Some (num_of (hook_total d)).
Proof.
  intros H1 H2. unfold hook_total. rewrite py_or_assoc.
  apply or_numeric; [done|]. by apply or_numeric.
Qed.

Lemma hook_raise_iff i d :
  hook i d = HookRaise ↔
  dict_get d "status" = PStr "downloading" ∧
  (pct (hook_got d) (hook_total d) = None ∨ speed_text (dict_get d "speed") = None).
Proof.
  destruct (hook_cases i d) as [[Hs [(p & sp & Hp & Hsp & ->)|[Hn ->]]]|[[Hs ->]|(Hs & _ & ->)]].
  - split; [done|]. intros [_ [?|?]]; congruence.
  - done.
  - split; [done|]. intros [? _]. congruence.
  - split; [done|]. intros [? _]. congruence.
Qed.

Lemma hook_typed_no_raise i d :
  numeric_or_none (dict_get d "total_bytes") →
  numeric_or_none (dict_get d "total_bytes_estimate") →
  numeric_or_none (dict_get d "downloaded_bytes") →
  numeric_or_none (dict_get d "speed") →
  hook i d ≠ HookRaise.
Proof.
  intros Ht He Hg Hsp [_ [Hp|Hs]]%hook_raise_iff.
  - apply pct_None in Hp as [_ [Hp|Hp]].
    + destruct (hook_got_numeric d Hg). congruence.
    + destruct (hook_total_numeric d Ht He). congruence.
  - apply speed_text_None in Hs as (s & Hs & Hne).
    destruct Hsp as [Hsp|[q Hsp]]; rewrite Hs in Hsp; done.
Qed.

Lemma hook_total_cases d :
  hook_total d =
    if truthy (dict_get d "total_bytes") then dict_get d "total_bytes"
    else if truthy (dict_get d "total_bytes_estimate")
         then dict_get d "total_bytes_estimate"
         else PInt 0.
Proof.
  unfold hook_total, py_or.
  destruct (truthy (dict_get d "total_bytes")) eqn:E1; rewrite ?E1; [done|].
  by destruct (truthy (dict_get d "total_bytes_estimate")).
Qed.

End typed.

(** ** Properties *)

(** C20. While downloading with byte counts [g >= 0] received out
    of a known total [t > 0] and no speed, the hook emits for its row the
    status "Downloading", the progress [floor(g * 100 / t)] and an empty
    speed. *)
Theorem hook_percent_floor (i : nat) (d : dict) (g t : Z) :
  dict_get d "status" = PStr "downloading" →
  dict_get d "downloaded_bytes" = PInt g → dict_get d "total_bytes" = PInt t →
  dict_get d "speed" = PNone → (0 ≤ g)%Z → (0 < t)%Z →
  hook i d = HookEmit (SigUpdate i (downloading_payload (g * 100 / t) "")).
Proof.
  intros Hs Hg Ht Hsp Hg0 Ht0. apply hook_downloading; [done| |by rewrite Hsp].
  assert (hook_total d = PInt t) as ->.
  { rewrite hook_total_cases, Ht. simpl. by rewrite (proj2 (Z.eqb_neq t 0)) by lia. }
  assert (hook_got d = PInt g) as ->.
  { unfold hook_got, py_or. rewrite Hg. simpl. destruct (Z.eqb_spec g 0); by subst. }
  by apply pct_floor.
Qed.

Lemma hook_percent_floor_witness :
  hook 3 {[ "status" := PStr "downloading"; "downloaded_bytes" := PInt 512;
            "total_bytes" := PInt 1024 ]}
  = HookEmit (SigUpdate 3 (downloading_payload (512 * 100 / 1024) "")).
Proof.
  apply (hook_percent_floor 3 _ 512 1024); (reflexivity || lia).
Defined.

(** C28. For byte counts [g >= 0] and [t > 0] the percentage is
    not negative, and it is at most 100 exactly when [g * 100 < 101 * t]:
    nothing clamps it.  A count a little above the total still shows 100
    (1005 of 1000 bytes), a count of 1.01 times the (estimated) total or more
    shows more than 100 (1010 of 1000 bytes shows 101). *)
Theorem pct_bounds (g t p : Z) :
  (0 ≤ g)%Z → (0 < t)%Z → pct (PInt g) (PInt t) = Some p →
  (0 ≤ p)%Z ∧ ((p ≤ 100)%Z ↔ (g * 100 < 101 * t)%Z).
Proof. apply pct_range. Qed.

Lemma pct_bounds_witness :
  pct (PInt 1005) (PInt 1000) = Some 100%Z ∧ pct (PInt 1010) (PInt 1000) = Some 101%Z ∧
  ((100 ≤ 100)%Z ↔ (1005 * 100 < 101 * 1000)%Z) ∧
  ((101 ≤ 100)%Z ↔ (1010 * 100 < 101 * 1000)%Z).
Proof.
  split; [reflexivity|]. split; [reflexivity|]. split.
  - refine (proj2 (pct_bounds 1005 1000 100 _ _ _)); (reflexivity || lia).
  - refine (proj2 (pct_bounds 1010 1000 101 _ _ _)); (reflexivity || lia).
Defined.

(** For a fixed total, the percentage does not decrease when
    the bytes received do not. *)
Theorem pct_monotone (g g' t p p' : Z) :
  (0 ≤ g ≤ g')%Z → (0 < t)%Z →
  pct (PInt g) (PInt t) = Some p → pct (PInt g') (PInt t) = Some p' → (p ≤ p')%Z.
Proof. apply pct_mono. Qed.

Lemma pct_monotone_witness : (25 ≤ 50)%Z.
Proof. apply (pct_monotone 50 100 200 25 50); (reflexivity || lia). Defined.

(** When neither a total nor an estimate is known (absent,
    [None] or 0), the progress reported is 0, whatever was received. *)
Theorem hook_unknown_total_zero (i : nat) (d : dict) (sp : string) :
  dict_get d "status" = PStr "downloading" →
  truthy (dict_get d "total_bytes") = false →
  truthy (dict_get d "total_bytes_estimate") = false →
  speed_text (dict_get d "speed") = Some sp →
  hook i d = HookEmit (SigUpdate i (downloading_payload 0 sp)).
Proof.
  intros Hs H1 H2 Hsp. apply hook_downloading; [done| |done].
  apply pct_falsy. by rewrite hook_total_cases, H1, H2.
Qed.

Lemma hook_unknown_total_zero_witness :
  hook 0 {[ "status" := PStr "downloading"; "downloaded_bytes" := PInt 700 ]}
  = HookEmit (SigUpdate 0 (downloading_payload 0 "")).
Proof. apply (hook_unknown_total_zero 0 _ ""); reflexivity. Defined.

(** The hook raises exactly while downloading when the
    percentage or the speed cannot be computed; it never raises when the four
    fields it reads are absent or numbers. *)
Theorem hook_raises_iff (i : nat) (d : dict) :
  (hook i d = HookRaise ↔
   dict_get d "status" = PStr "downloading" ∧
   (pct (hook_got d) (hook_total d) = None ∨
    speed_text (dict_get d "speed") = None)) ∧
  (numeric_or_none (dict_get d "total_bytes") →
   numeric_or_none (dict_get d "total_bytes_estimate") →
   numeric_or_none (dict_get d "downloaded_bytes") →
   numeric_or_none (dict_get d "speed") →
   hook i d ≠ HookRaise).
Proof. split; [apply hook_raise_iff | apply hook_typed_no_raise]. Qed.

(** Whatever the dictionary, the hook of row [i] emits at most
    one signal, an update of row [i] with a well-formed payload; a status
    other than "downloading" and "finished" emits nothing. *)
Theorem hook_emits_own_row (i : nat) (d : dict) :
  length (hook_signals i d) ≤ 1 ∧
  Forall (λ sg, ∃ p, sg = SigUpdate i p ∧ payload_wf p) (hook_signals i d) ∧
  (dict_get d "status" ≠ PStr "downloading" →
   dict_get d "status" ≠ PStr "finished" → hook_signals i d = []).
Proof.
  split_and!; [apply hook_signals_length| |].
  - unfold hook_signals. destruct (hook i d) as [sg| |] eqn:E; repeat constructor.
    destruct (hook_emit_row _ _ _ E) as [p ->]. exists p. split; [done|].
    by apply (hook_emit_wf _ _ _ E).
  - intros H1 H2. unfold hook_signals. by rewrite hook_other.
Qed.

(** The hook keeps no state, so the progress it reports follows the
    library: with a file per stream, as the selectors of [build_format]
    request, "finished" of the first stream is followed by "downloading" of
    the second, and the progress goes from 100 back down. *)
Example hook_progress_can_decrease :
  hook_progress (hook 0 {[ "status" := PStr "finished" ]}) = Some (PInt 100) ∧
  hook_progress (hook 0 {[ "status" := PStr "downloading";
                           "downloaded_bytes" := PInt 1;
                           "total_bytes" := PInt 100 ]}) = Some (PInt 1).
Proof. by vm_compute. Qed.

(** ** Hints for the files that follow *)

#[export] Hint Resolve downloading_payload_wf merging_payload_wf payload_wf_empty
  payload_wf_insert_progress hook_emit_wf : ytdl.
