(* ===== verification/Options.v ===== *)
(** * The library options: the first half of [Main._start]
    (src/main.py 169-187)

    [_start] reads the options panel and builds the dictionary [ydl_opts]
    that configures every library session of the run.  The dictionary has a
    fixed set of keys; it is modelled as a record with one field per key.
    The two combo boxes are modelled by their items (main.py 122-123) and the
    index of the current one; an index outside the items is Qt's "no current
    item", whose text is empty. *)

From S2P Require Import Prelude PyValue Format.

Local Open Scope Z_scope.

(** ** The combo boxes *)

(** The items of [self.max_res], line 122. *)
Definition max_res_items : list string := ["No cap"; "2160"; "1440"; "1080"; "720"].

(** The items of [self.format_combo], line 123. *)
Definition format_items : list string := ["MKV (safe)"; "MP4"].

(** [combo.currentText()]: the item at the current index, the empty string
    when there is none. *)
Definition currentText (items : list string) (index : Z) : string :=
  if index <? 0 then "" else default "" (items !! Z.to_nat index).

(** Line 171: [None if max_res_text=="No cap" else int(max_res_text)]; the
    outer [None] is the [ValueError]. *)
Definition max_res_val (max_res_text : string) : option (option Z) :=
  if bool_decide (max_res_text = "No cap") then Some None
  else Some <$> int_of_str max_res_text.

(** Line 172: ["mkv" if self.format_combo.currentIndex()==0 else "mp4"]. *)
Definition merge_fmt (format_index : Z) : string :=
  if format_index =? 0 then "mkv" else "mp4".

(** ** The options dictionary *)

(** [ydl_opts], lines 174-187, one field per key. *)
Record ydl_opts : Type := YdlOpts {
  format : string;
  merge_output_format : string;
  outtmpl : gmap string string;
  quiet : bool;
  geo_bypass : bool;
  extractor_args : gmap string (gmap string (list string));
  http_headers : gmap string string;
  http_chunk_size : Z;
  retries : Z;
  fragment_retries : Z;
  continuedl : bool;
  ignoreerrors : string
}.

(** The template of line 177, relative to the output folder. *)
Definition out_template : string := "%(title)s [%(id)s].%(ext)s".

(** The browser-like header of line 181. *)
Definition user_agent : string :=
  "Mozilla/5.0 (Windows NT 10.0; Win64; x64) AppleWebKit/537.36 (KHTML, like Gecko) Chrome/124.0 Safari/537.36".

(** Lines 174-187.  [out_path] is [str(outdir / out_template)]. *)
Definition make_ydl_opts (max_res : option Z) (fmt : string) (out_path : string) : ydl_opts :=
  {| format := build_format max_res;
     merge_output_format := fmt;
     outtmpl := {[ "default" := out_path ]};
     quiet := true;
     geo_bypass := true;
     extractor_args := {[ "youtube" := {[ "player_client" := ["android"] ]} ]};
     http_headers := {[ "User-Agent" := user_agent ]};
     http_chunk_size := 10 * 1024 * 1024;
     retries := 10;
     fragment_retries := 10;
     continuedl := true;
     ignoreerrors := "only_download" |}.

(** Options for the examples. *)
Definition sample_opts : ydl_opts := make_ydl_opts (Some 1080) "mkv" "downloads/%(title)s [%(id)s].%(ext)s".

(** ** The panel and the selector *)

Section options.
Implicit Types (i : Z) (s : string).

Lemma currentText_valid items i s :
  items !! Z.to_nat i = Some s → 0 ≤ i → currentText items i = s.
Proof. intros H Hi. unfold currentText. rewrite (proj2 (Z.ltb_ge i 0)) by done. by rewrite H. Qed.

Lemma currentText_invalid items i :
  i < 0 ∨ Z.of_nat (length items) ≤ i → currentText items i = "".
Proof.
  intros [Hi|Hi]; unfold currentText.
  - by rewrite (proj2 (Z.ltb_lt i 0)).
  - destruct (i <? 0); [done|]. rewrite lookup_ge_None_2; [done|lia].
Qed.

(** The caps of the panel are the caps [build_format] is given. *)
Lemma max_res_val_items :
  max_res_val <$> max_res_items = Some <$> max_res_choices.
Proof. by vm_compute. Qed.

Lemma max_res_val_index i :
  0 ≤ i < 5 →
  max_res_val (currentText max_res_items i) = max_res_choices !! Z.to_nat i.
Proof.
  intros Hi. assert (i = 0 ∨ i = 1 ∨ i = 2 ∨ i = 3 ∨ i = 4) as H by lia.
  by destruct H as [->|[->|[->|[->| ->]]]].
Qed.

(** With no current item the text is empty and [int("")] raises. *)
Lemma max_res_val_no_item i :
  i < 0 ∨ 5 ≤ i → max_res_val (currentText max_res_items i) = None.
Proof. intros H. by rewrite currentText_invalid. Qed.

Lemma merge_fmt_cases i : merge_fmt i = "mkv" ∧ i = 0 ∨ merge_fmt i = "mp4" ∧ i ≠ 0.
Proof. unfold merge_fmt. destruct (Z.eqb_spec i 0); auto. Qed.

End options.
