(* ===== verification/Worker.v ===== *)
(** * The queue worker: [DLWorker] (src/main.py 36-85)

    [DLWorker] holds the rows captured at start, the library options and the
    flag [_stop].  [run] walks the rows in order; before each row it reads
    [_stop] and leaves the loop when it is set; for a row it emits
    [Starting], opens a library session, probes the title, downloads (the
    library calls the hook), emits [Done], and turns an exception into an
    [Error] payload; after the loop it emits [sig_done].

    The library is an oracle: an [item_env] per row says what the library
    does there, and the theorems hold for every oracle. *)

From S2P Require Import Prelude PyValue HumanBytes Hook Options.
From stdpp Require Import sorting.

Local Open Scope py_scope.

(** ** The library as seen from [run] *)

(** An exception as the handlers of lines 81-84 tell them apart:
    [yt_dlp.utils.DownloadError] or any other [Exception]; [msg] is
    [str(e)]. *)
Inductive lib_exn : Type :=
| DownloadError (msg : string)
| OtherError (msg : string).

(** [ydl.extract_info(url, download=False, process=False)]: it returns
    [None] or a dictionary, or raises. *)
Inductive probe_result : Type :=
| ProbeInfo (info : option dict)
| ProbeRaises.

(** [ydl.download([url])]: it returns a code or raises. *)
Inductive dl_outcome : Type :=
| Returned (retcode : Z)
| Raised (e : lib_exn).

(** What happens around one row. *)
Record item_env : Type := ItemEnv {
  ctor : option lib_exn;       (** [YoutubeDL(opts)] and [__enter__] raising *)
  probe : probe_result;        (** the title probe *)
  raw : list dict;             (** the dictionaries handed to the hook, in order *)
  outcome : dl_outcome;        (** how [download] ends *)
  close : option lib_exn;      (** [__exit__] raising *)
  stop_during : bool           (** [stop()] is called before the next check of [_stop] *)
}.

(** ** The worker *)

Record DLWorker : Type := mkDLWorker {
  rows : list dict;
  opts : ydl_opts;
  _stop : bool
}.

(** [__init__], lines 40-44. *)
Definition __init__ (rs : list dict) (os : ydl_opts) : DLWorker :=
  {| rows := rs; opts := os; _stop := false |}.

(** [stop], line 46. *)
Definition stop (w : DLWorker) : DLWorker :=
  {| rows := rows w; opts := opts w; _stop := true |}.

(** How [run] ends: it returns, or an exception leaves it. *)
Inductive run_end : Type := Finished | Crashed.

#[export] Instance run_end_eq_dec : EqDecision run_end.
Proof. solve_decision. Defined.

(** The payloads of lines 53, 75, 80, 82 and 84. *)
Definition starting_payload : dict :=
  {[ "status" := PStr "Starting"; "progress" := PInt 0 ]}.
Definition title_payload (title : pyval) : dict := {[ "title" := title ]}.
Definition done_payload : dict :=
  {[ "status" := PStr "Done"; "progress" := PInt 100 ]}.
Definition error_payload (msg : string) : dict :=
  {[ "status" := PStr "Error"; "error" := PStr msg ]}.

(** Lines 73-77: the probe and the [title] update; a failure of the probe is
    swallowed. *)
Definition title_signals (i : nat) (p : probe_result) : list signal :=
  match p with
  | ProbeInfo (Some info) =>
      if negb (bool_decide (info = ∅)) && truthy (dict_get info "title")
      then [SigUpdate i (title_payload (dict_get info "title"))]
      else []
  | ProbeInfo None | ProbeRaises => []
  end.

(** What the body of the [with] block emits before the download ends: the
    title update and the updates of the hook. *)
Definition progress_signals (i : nat) (e : item_env) : list signal :=
  title_signals i (probe e) ++ (raw e ≫= hook_signals i).

(** Lines 72-80, the body of the [with] block: the signals it emits and the
    exception that leaves it, if any. *)
Definition with_body (i : nat) (e : item_env) : list signal * option lib_exn :=
  let sigs := progress_signals i e in
  match outcome e with
  | Returned _ => (sigs ++ [SigUpdate i done_payload], None)
  | Raised x => (sigs, Some x)
  end.

(** Line 71, the [with] statement: the session is opened, the body runs, the
    session is closed; an exception of closing replaces the body's. *)
Definition session (i : nat) (e : item_env) : list signal * option lib_exn :=
  match ctor e with
  | Some x => ([], Some x)
  | None =>
      let '(sigs, r) := with_body i e in
      (sigs, match close e with Some x => Some x | None => r end)
  end.

(** Lines 81-84, the handlers. *)
Definition handler_signals (i : nat) (x : lib_exn) : list signal :=
  match x with
  | DownloadError m => [SigUpdate i (error_payload ("Download failed: " +:+ m))]
  | OtherError m =>
      [SigUpdate i (error_payload ("An unexpected error occurred: " +:+ m))]
  end.

(** Lines 53-84: what one iteration emits once the URL is read. *)
Definition item_signals (i : nat) (e : item_env) : list signal :=
  let '(sigs, r) := session i e in
  SigUpdate i starting_payload :: sigs ++ from_option (handler_signals i) [] r.

(** Lines 52-84, one iteration after the check of [_stop]: [None] is the
    [KeyError] of [row["url"]], which nothing catches. *)
Definition run_item (i : nat) (row : dict) (e : item_env) : option (list signal) :=
  _ ← dict_item row "url";
  Some (item_signals i e).

(** Lines 50-84, the loop from row [i] on, [stopped] being the value of
    [_stop]. *)
Fixpoint run_loop (env : nat → item_env) (i : nat) (stopped : bool)
    (rs : list dict) : list signal * run_end :=
  match rs with
  | [] => ([], Finished)
  | row :: rest =>
      if stopped then ([], Finished)
      else
        match run_item i row (env i) with
        | None => ([], Crashed)
        | Some sigs =>
            let '(more, r) := run_loop env (S i) (stop_during (env i)) rest in
            (sigs ++ more, r)
        end
  end.

(** [run], lines 48-85. *)
Definition run (w : DLWorker) (env : nat → item_env) : list signal * run_end :=
  let '(sigs, r) := run_loop env 0 (_stop w) (rows w) in
  match r with
  | Finished => (sigs ++ [SigDone], Finished)
  | Crashed => (sigs, Crashed)
  end.

(** ** A closed form of the loop *)

(** The number of rows, out of [n] remaining from row [i] on, that the loop
    processes before it sees [_stop] set. *)
Fixpoint processed (env : nat → item_env) (i : nat) (stopped : bool) (n : nat) : nat :=
  match n with
  | O => O
  | S n' => if stopped then O else S (processed env (S i) (stop_during (env i)) n')
  end.

(** Every row has a URL, as the rows that [_start] builds do. *)
Definition rows_ok (rs : list dict) : Prop := Forall (λ r, is_Some (r !! "url")) rs.

#[export] Instance rows_ok_dec rs : Decision (rows_ok rs).
Proof. unfold rows_ok. apply _. Defined.

(** Closed instances of [rows_ok], by evaluation. *)
Ltac rows_ok_eval := apply (bool_decide_unpack _); vm_compute; exact I.

(** The signals of the iteration for row [j]. *)
Definition row_block (env : nat → item_env) (j : nat) : list signal :=
  item_signals j (env j).

(** The terminal updates of an iteration, by cases: one [Error] when the
    session cannot be opened or the download raises, [Done] when the download
    returns, followed by an [Error] when closing the session then raises. *)
Definition terminals_of (i : nat) (e : item_env) : list signal :=
  match ctor e with
  | Some x => handler_signals i x
  | None =>
      match outcome e, close e with
      | Returned _, None => [SigUpdate i done_payload]
      | Returned _, Some y => SigUpdate i done_payload :: handler_signals i y
      | Raised x, None => handler_signals i x
      | Raised _, Some y => handler_signals i y
      end
  end.

(** Whether a probe result carries a title that is a string, or no title. *)
Definition title_ok (p : probe_result) : Prop :=
  match p with
  | ProbeInfo (Some info) =>
      truthy (dict_get info "title") = true → ∃ s, dict_get info "title" = PStr s
  | ProbeInfo None | ProbeRaises => True
  end.

(** The prefix of the message of an [Error] payload, lines 82 and 84. *)
Definition error_prefix (x : lib_exn) : string :=
  match x with
  | DownloadError _ => "Download failed: "
  | OtherError _ => "An unexpected error occurred: "
  end.

(** [str(e)]. *)
Definition exn_msg (x : lib_exn) : string :=
  match x with DownloadError m | OtherError m => m end.

(** ** Observations on traces *)

(** The row a signal is about. *)
Definition signal_row (sg : signal) : option nat :=
  match sg with SigUpdate i _ => Some i | SigDone => None end.

(** The status a signal carries. *)
Definition signal_status (sg : signal) : pyval :=
  match sg with SigUpdate _ p => dict_get p "status" | SigDone => PNone end.

(** A terminal update: [Done] or [Error]. *)
Definition is_terminal (sg : signal) : bool :=
  bool_decide (signal_status sg = PStr "Done") ||
  bool_decide (signal_status sg = PStr "Error").

Definition is_starting (sg : signal) : bool :=
  bool_decide (signal_status sg = PStr "Starting").

(** The rows of the updates of a trace, in order. *)
Definition rows_of (tr : list signal) : list nat := omap signal_row tr.

(** The signals of a trace about row [i]. *)
Definition of_row (i : nat) (tr : list signal) : list signal :=
  filter (λ sg, signal_row sg = Some i) tr.

(** ** Examples *)

Definition ok_env : item_env :=
  {| ctor := None;
     probe := ProbeInfo (Some {[ "title" := PStr "A song" ]});
     raw := [ {[ "status" := PStr "downloading"; "downloaded_bytes" := PInt 50;
                 "total_bytes" := PInt 200 ]};
              {[ "status" := PStr "finished" ]} ];
     outcome := Returned 0; close := None; stop_during := false |}.

Definition geo_env : item_env :=
  {| ctor := None; probe := ProbeRaises; raw := [];
     outcome := Raised (DownloadError "geo-blocked");
     close := None; stop_during := false |}.

(** The row after which the user asks to stop. *)
Definition stop_env : item_env :=
  {| ctor := None; probe := ProbeInfo None; raw := []; outcome := Returned 0;
     close := None; stop_during := true |}.

(** A download that returns a failure code without raising. *)
Definition failed_env : item_env :=
  {| ctor := None; probe := ProbeInfo None; raw := []; outcome := Returned 1;
     close := None; stop_during := false |}.

(** A session that fails to close after a successful download. *)
Definition close_env : item_env :=
  {| ctor := None; probe := ProbeInfo None; raw := []; outcome := Returned 0;
     close := Some (OtherError "cookie jar"); stop_during := false |}.

Definition url_row (u : string) : dict := {[ "url" := PStr u ]}.

Example run_two_ok :
  run (__init__ [url_row "a"; url_row "b"] sample_opts) (λ _, ok_env) =
  ([SigUpdate 0 starting_payload; SigUpdate 0 (title_payload (PStr "A song"));
    SigUpdate 0 (downloading_payload 25 ""); SigUpdate 0 merging_payload;
    SigUpdate 0 done_payload;
    SigUpdate 1 starting_payload; SigUpdate 1 (title_payload (PStr "A song"));
    SigUpdate 1 (downloading_payload 25 ""); SigUpdate 1 merging_payload;
    SigUpdate 1 done_payload;
    SigDone], Finished).
Proof. vm_compute. reflexivity. Qed.

Example run_geo_blocked :
  run (__init__ [url_row "a"] sample_opts) (λ _, geo_env) =
  ([SigUpdate 0 starting_payload;
    SigUpdate 0 (error_payload "Download failed: geo-blocked");
    SigDone], Finished).
Proof. vm_compute. reflexivity. Qed.

Example run_stopped_at_once :
  run (stop (__init__ [url_row "a"; url_row "b"] sample_opts)) (λ _, ok_env) = ([SigDone], Finished).
Proof. vm_compute. reflexivity. Qed.

Example run_missing_url :
  run (__init__ [url_row "a"; ∅; url_row "c"] sample_opts) (λ _, geo_env) =
  ([SigUpdate 0 starting_payload;
    SigUpdate 0 (error_payload "Download failed: geo-blocked")], Crashed).
Proof. vm_compute. reflexivity. Qed.

(** ** One iteration *)

Section items.
Implicit Types (i j : nat) (e : item_env) (sg : signal) (tr : list signal) (x : lib_exn).

(** The four ways an iteration goes, as equations. *)
Lemma item_signals_ctor i e x :
  ctor e = Some x →
  item_signals i e = SigUpdate i starting_payload :: handler_signals i x.
Proof. unfold item_signals, session. by intros ->. Qed.

Lemma item_signals_done i e rc :
  ctor e = None → outcome e = Returned rc → close e = None →
  item_signals i e =
    SigUpdate i starting_payload :: progress_signals i e ++ [SigUpdate i done_payload].
Proof.
  unfold item_signals, session, with_body. intros -> -> ->. simpl.
  by rewrite app_nil_r.
Qed.

Lemma item_signals_done_close i e rc y :
  ctor e = None → outcome e = Returned rc → close e = Some y →
  item_signals i e =
    SigUpdate i starting_payload ::
      progress_signals i e ++ SigUpdate i done_payload :: handler_signals i y.
Proof.
  unfold item_signals, session, with_body. intros -> -> ->. simpl.
  by rewrite <- app_assoc.
Qed.

Lemma item_signals_raised i e x :
  ctor e = None → outcome e = Raised x →
  item_signals i e =
    SigUpdate i starting_payload ::
      progress_signals i e ++ handler_signals i (default x (close e)).
Proof.
  unfold item_signals, session, with_body. intros -> ->. by destruct (close e).
Qed.

(** Case analysis on an iteration. *)
Lemma item_signals_cases i e :
  (∃ x, ctor e = Some x ∧
        item_signals i e = SigUpdate i starting_payload :: handler_signals i x) ∨
  (∃ rc, ctor e = None ∧ outcome e = Returned rc ∧ close e = None ∧
        item_signals i e =
          SigUpdate i starting_payload ::
            progress_signals i e ++ [SigUpdate i done_payload]) ∨
  (∃ rc y, ctor e = None ∧ outcome e = Returned rc ∧ close e = Some y ∧
        item_signals i e =
          SigUpdate i starting_payload ::
            progress_signals i e ++ SigUpdate i done_payload :: handler_signals i y) ∨
  (∃ x, ctor e = None ∧ outcome e = Raised x ∧
        item_signals i e =
          SigUpdate i starting_payload ::
            progress_signals i e ++ handler_signals i (default x (close e))).
Proof.
  destruct (ctor e) as [x|] eqn:Ec; [left; eauto using item_signals_ctor|].
  right. destruct (outcome e) as [rc|x] eqn:Eo.
  - destruct (close e) as [y|] eqn:El.
    + right; left. eauto 10 using item_signals_done_close.
    + left. eauto 10 using item_signals_done.
  - right; right. eauto using item_signals_raised.
Qed.

Lemma hook_signals_row i d sg : sg ∈ hook_signals i d → signal_row sg = Some i.
Proof.
  unfold hook_signals. destruct (hook i d) as [sg'| |] eqn:E; [|set_solver..].
  intros ->%list_elem_of_singleton. by destruct (hook_emit_row _ _ _ E) as [p ->].
Qed.

Lemma title_signals_row i p sg : sg ∈ title_signals i p → signal_row sg = Some i.
Proof.
  destruct p as [[info|]|]; simpl; [|set_solver..].
  case_match; [|set_solver]. by intros ->%list_elem_of_singleton.
Qed.

Lemma handler_signals_row i x sg : sg ∈ handler_signals i x → signal_row sg = Some i.
Proof. destruct x; by intros ->%list_elem_of_singleton. Qed.

Lemma with_body_row i e sg : sg ∈ (with_body i e).1 → signal_row sg = Some i.
Proof.
  unfold with_body.
  assert (∀ sg, sg ∈ title_signals i (probe e) ++ (raw e ≫= hook_signals i) →
            signal_row sg = Some i) as H.
  { intros sg' [?|(d & ? & _)%list_elem_of_bind]%elem_of_app;
      eauto using title_signals_row, hook_signals_row. }
  destruct (outcome e); simpl; [|by auto].
  intros [?| ->%list_elem_of_singleton]%elem_of_app; auto.
Qed.

Lemma session_row i e sg : sg ∈ (session i e).1 → signal_row sg = Some i.
Proof.
  unfold session. destruct (ctor e); [set_solver|].
  pose proof (with_body_row i e sg). by destruct (with_body i e).
Qed.

(** Every signal of an iteration is about the row of the iteration. *)
Lemma item_signals_row i e sg : sg ∈ item_signals i e → signal_row sg = Some i.
Proof.
  unfold item_signals. pose proof (session_row i e sg) as H.
  destruct (session i e) as [sigs r]. simpl in H.
  intros [->|[?|Hh]%elem_of_app]%elem_of_cons; [done|auto|].
  destruct r as [x|]; [by eapply handler_signals_row|set_solver].
Qed.

Lemma item_signals_head i e : ∃ tl, item_signals i e = SigUpdate i starting_payload :: tl.
Proof. unfold item_signals. destruct (session i e). eauto. Qed.

Lemma run_item_Some i row e :
  is_Some (row !! "url") → run_item i row e = Some (item_signals i e).
Proof. unfold run_item, dict_item. by intros [u ->]. Qed.

Lemma run_item_None i row e : row !! "url" = None → run_item i row e = None.
Proof. unfold run_item, dict_item. by intros ->. Qed.

End items.

(** ** Statuses *)

Section status.
Implicit Types (i : nat) (e : item_env) (sg : signal) (x : lib_exn).

Lemma status_starting i : signal_status (SigUpdate i starting_payload) = PStr "Starting".
Proof. reflexivity. Qed.
Lemma status_done i : signal_status (SigUpdate i done_payload) = PStr "Done".
Proof. reflexivity. Qed.
Lemma status_merging i : signal_status (SigUpdate i merging_payload) = PStr "Merging".
Proof. reflexivity. Qed.
Lemma status_error i msg : signal_status (SigUpdate i (error_payload msg)) = PStr "Error".
Proof. reflexivity. Qed.
Lemma status_title i t : signal_status (SigUpdate i (title_payload t)) = PNone.
Proof. reflexivity. Qed.
Lemma status_downloading i p sp :
  signal_status (SigUpdate i (downloading_payload p sp)) = PStr "Downloading".
Proof. reflexivity. Qed.

Lemma hook_signals_status i d sg :
  sg ∈ hook_signals i d →
  signal_status sg = PStr "Downloading" ∨ signal_status sg = PStr "Merging".
Proof.
  unfold hook_signals.
  destruct (hook_cases i d) as [[_ [(p & sp & _ & _ & ->)|[_ ->]]]|[[_ ->]|(_ & _ & ->)]];
    intros Hsg; try (by apply elem_of_nil in Hsg);
    apply list_elem_of_singleton in Hsg as ->; auto.
Qed.

Lemma hook_signals_not_terminal i d : filter is_terminal (hook_signals i d) = [].
Proof.
  apply filter_none, Forall_forall. intros sg [H|H]%hook_signals_status;
    unfold is_terminal; rewrite H; vm_compute; tauto.
Qed.

Lemma title_signals_not_terminal i p : filter is_terminal (title_signals i p) = [].
Proof. destruct p as [[info|]|]; simpl; try done. by case_match. Qed.

Lemma handler_signals_terminal i x : filter is_terminal (handler_signals i x) = handler_signals i x.
Proof. by destruct x. Qed.

Lemma handler_signals_length i x : length (handler_signals i x) = 1.
Proof. by destruct x. Qed.

End status.

(** ** Terminal updates of an iteration *)

Section block.
Implicit Types (i : nat) (e : item_env) (sg : signal) (x : lib_exn).

Lemma progress_not_terminal i e : filter is_terminal (progress_signals i e) = [].
Proof.
  unfold progress_signals.
  rewrite filter_app, title_signals_not_terminal, filter_bind. simpl.
  apply bind_nil_all. intros d _. apply hook_signals_not_terminal.
Qed.

Lemma filter_terminal_starting i tr :
  filter is_terminal (SigUpdate i starting_payload :: tr) = filter is_terminal tr.
Proof. apply filter_cons_False. vm_compute. tauto. Qed.

Lemma filter_terminal_done i tr :
  filter is_terminal (SigUpdate i done_payload :: tr) =
    SigUpdate i done_payload :: filter is_terminal tr.
Proof. apply filter_cons_True. by vm_compute. Qed.

Lemma item_signals_terminals i e :
  filter is_terminal (item_signals i e) = terminals_of i e.
Proof.
  unfold terminals_of.
  destruct (item_signals_cases i e) as
    [(x & -> & ->)|[(rc & -> & -> & -> & ->)|[(rc & y & -> & -> & -> & ->)|(x & -> & -> & ->)]]];
    rewrite filter_terminal_starting, ?filter_app, ?progress_not_terminal,
      ?filter_terminal_done, ?handler_signals_terminal; try done.
  by destruct (close e).
Qed.

Lemma terminals_of_length i e :
  (ctor e = None → (∃ rc, outcome e = Returned rc) → close e = None) →
  length (terminals_of i e) = 1.
Proof.
  unfold terminals_of. intros H.
  destruct (ctor e) as [x|]; [apply handler_signals_length|].
  destruct (outcome e) as [rc|x], (close e) as [y|];
    rewrite ?handler_signals_length; try done.
  by discriminate H; eauto.
Qed.

Lemma handler_signals_last i x tr :
  ∃ sg, last (tr ++ handler_signals i x) = Some sg ∧ is_terminal sg = true.
Proof. destruct x; simpl; rewrite last_snoc; eauto. Qed.

(** An iteration ends with a terminal update. *)
Lemma item_signals_last i e :
  ∃ sg, last (item_signals i e) = Some sg ∧ is_terminal sg = true.
Proof.
  destruct (item_signals_cases i e) as
    [(x & _ & ->)|[(rc & _ & _ & _ & ->)|[(rc & y & _ & _ & _ & ->)|(x & _ & _ & ->)]]].
  - apply (handler_signals_last i x [_]).
  - rewrite app_comm_cons, last_snoc. eauto.
  - rewrite (app_comm_cons _ _ (SigUpdate i starting_payload)).
    rewrite (cons_middle (SigUpdate i done_payload)), app_assoc.
    apply handler_signals_last.
  - rewrite app_comm_cons. apply handler_signals_last.
Qed.

End block.

(** ** The loop *)

Section loop.
Context (env : nat → item_env).
Implicit Types (i j k n : nat) (rs : list dict) (stopped : bool).

Lemma run_loop_nil i stopped : run_loop env i stopped [] = ([], Finished).
Proof. done. Qed.

Lemma run_loop_stopped i rs : run_loop env i true rs = ([], Finished).
Proof. by destruct rs. Qed.

Lemma run_loop_cons i row rs :
  is_Some (row !! "url") →
  run_loop env i false (row :: rs) =
    (row_block env i ++ (run_loop env (S i) (stop_during (env i)) rs).1,
     (run_loop env (S i) (stop_during (env i)) rs).2).
Proof.
  intros H. simpl. rewrite run_item_Some by done.
  by destruct (run_loop env (S i) _ rs).
Qed.

Lemma processed_le i stopped n : processed env i stopped n ≤ n.
Proof.
  revert i stopped. induction n as [|n IH]; intros i stopped; simpl; [done|].
  destruct stopped; [lia|]. specialize (IH (S i) (stop_during (env i))). lia.
Qed.

(** With a URL in every row, the loop emits the blocks of the rows it
    processes, in order, and returns. *)
Lemma run_loop_closed i stopped rs :
  rows_ok rs →
  run_loop env i stopped rs =
    (seq i (processed env i stopped (length rs)) ≫= row_block env, Finished).
Proof.
  intros Hrs. revert i stopped.
  induction Hrs as [|row rs Hrow Hrs IH]; intros i stopped; [done|].
  destruct stopped; [by rewrite run_loop_stopped|].
  rewrite run_loop_cons by done. rewrite IH. done.
Qed.

End loop.

(** ** Traces of a run *)

Section whole_run.
Context (env : nat → item_env).
Implicit Types (i j k n : nat) (rs : list dict) (stopped : bool) (w : DLWorker).

Lemma processed_stopped i n : processed env i true n = 0.
Proof. by destruct n. Qed.

Lemma processed_no_stop i n :
  (∀ j, i ≤ j < i + n → stop_during (env j) = false) →
  processed env i false n = n.
Proof.
  revert i. induction n as [|n IH]; intros i H; simpl; [done|].
  rewrite (H i) by lia. rewrite IH; [done|]. intros j ?. apply H. lia.
Qed.

(** The loop stops after the first row during which [stop] is called. *)
Lemma processed_spec i n k :
  processed env i false n = k ↔
  k ≤ n ∧ (∀ j, i ≤ j → S j < i + k → stop_during (env j) = false) ∧
  (k < n → 0 < k ∧ stop_during (env (i + k - 1)) = true).
Proof.
  revert i k. induction n as [|n IH]; intros i k; simpl.
  { split; [intros <-; split_and!; [done|lia..]|lia]. }
  destruct (stop_during (env i)) eqn:Es.
  - rewrite processed_stopped. split.
    + intros <-. split_and!; [lia|intros; lia|].
      intros _. split; [lia|]. by replace (i + 1 - 1) with i by lia.
    + intros (Hk & Hf & Hs). destruct (decide (k = 1)) as [|Hne]; [done|].
      destruct (decide (k = 0)) as [->|]; [destruct Hs; lia|].
      rewrite (Hf i) in Es by lia. done.
  - destruct k as [|k].
    { split; [done|]. intros (_ & _ & Hs). destruct Hs; lia. }
    rewrite (inj_iff S), IH. split; intros (Hk & Hf & Hs); split_and!; try lia.
    + intros j ? ?. destruct (decide (j = i)) as [->|]; [done|]. apply Hf; lia.
    + intros ?. destruct Hs as [? Hs]; [lia|]. split; [lia|].
      by replace (i + S k - 1) with (S i + k - 1) by lia.
    + intros j ? ?. apply Hf; lia.
    + intros ?. destruct Hs as [? Hs]; [lia|].
      destruct (decide (k = 0)) as [->|].
      { replace (i + 1 - 1) with i in Hs by lia. congruence. }
      split; [lia|]. by replace (S i + k - 1) with (i + S k - 1) by lia.
Qed.

Lemma of_row_row_block j i' :
  of_row j (row_block env i') = if decide (i' = j) then row_block env j else [].
Proof.
  unfold of_row. case_decide as E.
  - subst. apply filter_all, Forall_forall. intros sg. apply item_signals_row.
  - apply filter_none, Forall_forall. intros sg Hsg%item_signals_row. congruence.
Qed.

(** The signals about one row in the blocks of rows [i .. i + k - 1]. *)
Lemma of_row_blocks j i k :
  of_row j (seq i k ≫= row_block env) = if decide (i ≤ j < i + k) then row_block env j else [].
Proof.
  unfold of_row. rewrite filter_bind. rewrite <- bind_seq_single.
  apply bind_ext_in. intros i' _. apply of_row_row_block.
Qed.

Lemma rows_of_block i' x : x ∈ rows_of (row_block env i') → x = i'.
Proof.
  unfold rows_of. intros (sg & Hsg & Hx)%list_elem_of_omap.
  apply item_signals_row in Hsg. congruence.
Qed.

Lemma rows_of_blocks_bounds i k x : x ∈ rows_of (seq i k ≫= row_block env) → i ≤ x < i + k.
Proof.
  unfold rows_of. intros (sg & (i' & Hsg & Hi')%list_elem_of_bind & Hx)%list_elem_of_omap.
  apply item_signals_row in Hsg. apply elem_of_seq in Hi'.
  assert (x = i') by congruence. lia.
Qed.

Lemma rows_of_blocks_sorted i k : StronglySorted le (rows_of (seq i k ≫= row_block env)).
Proof.
  revert i. induction k as [|k IH]; intros i; [constructor|].
  simpl. unfold rows_of. rewrite omap_app. apply StronglySorted_app_2.
  - intros x1 x2 ->%rows_of_block Hx2%rows_of_blocks_bounds. lia.
  - apply (StronglySorted_all_eq _ i). apply rows_of_block.
  - apply IH.
Qed.

Lemma filter_terminal_blocks i k :
  filter is_terminal (seq i k ≫= row_block env) = seq i k ≫= (λ j, terminals_of j (env j)).
Proof. rewrite filter_bind. apply bind_ext_in. intros j _. apply item_signals_terminals. Qed.

Lemma run_closed w :
  rows_ok (rows w) →
  run w env =
    ((seq 0 (processed env 0 (_stop w) (length (rows w))) ≫= row_block env) ++ [SigDone],
     Finished).
Proof. intros H. unfold run. by rewrite run_loop_closed. Qed.

End whole_run.

Section traces.
Context (env : nat → item_env).
Implicit Types (i j k n : nat) (rs : list dict) (stopped : bool) (w : DLWorker).

Lemma SigDone_not_in_blocks i k : SigDone ∉ seq i k ≫= row_block env.
Proof. intros (j & Hj & _)%list_elem_of_bind. by apply item_signals_row in Hj. Qed.

Lemma of_row_snoc_done j tr : of_row j (tr ++ [SigDone]) = of_row j tr.
Proof. unfold of_row. rewrite filter_app. simpl. apply app_nil_r. Qed.

Lemma rows_of_snoc_done tr : rows_of (tr ++ [SigDone]) = rows_of tr.
Proof. unfold rows_of. rewrite omap_app. apply app_nil_r. Qed.

Lemma filter_terminal_snoc_done tr :
  filter is_terminal (tr ++ [SigDone]) = filter is_terminal tr.
Proof. rewrite filter_app. apply app_nil_r. Qed.

Lemma run_trace w :
  rows_ok (rows w) →
  (run w env).1 =
    (seq 0 (processed env 0 (_stop w) (length (rows w))) ≫= row_block env) ++ [SigDone].
Proof. intros H. by rewrite run_closed. Qed.

Lemma run_of_row_closed w j :
  rows_ok (rows w) →
  of_row j (run w env).1 =
    if decide (j < processed env 0 (_stop w) (length (rows w)))
    then row_block env j else [].
Proof.
  intros Hok. rewrite run_trace, of_row_snoc_done, of_row_blocks by done.
  repeat case_decide; (done || lia).
Qed.

(** The loop crashes exactly when it reaches a row without a URL. *)
Lemma run_loop_crash i stopped rs :
  (run_loop env i stopped rs).2 = Crashed ↔
  ∃ k row, rs !! k = Some row ∧ row !! "url" = None ∧ rows_ok (take k rs) ∧
           processed env i stopped (S k) = S k.
Proof.
  revert i stopped. induction rs as [|row rs IH]; intros i stopped.
  { split; [done|]. by intros (k & row & ? & _). }
  destruct stopped.
  { rewrite run_loop_stopped. split; [done|]. by intros (k & r & _ & _ & _ & ?). }
  destruct (row !! "url") as [u|] eqn:Eu.
  - rewrite run_loop_cons by eauto. simpl. rewrite IH. split.
    + intros (k & r & Hk & Hr & Hok & Hp). exists (S k), r. split_and!; try done.
      * simpl. constructor; eauto.
      * simpl in *. by rewrite Hp.
    + intros ([|k] & r & Hk & Hr & Hok & Hp); simplify_eq/=.
      exists k, r. split_and!; try done. by inversion Hok.
  - simpl. rewrite run_item_None by done. split; [|done]. intros _.
    exists 0, row. split_and!; try done. constructor.
Qed.

(** What the loop has emitted when it crashes at row [k]: the blocks of the
    rows before it. *)
Lemma run_loop_crash_trace i stopped rs k row :
  rs !! k = Some row → row !! "url" = None → rows_ok (take k rs) →
  processed env i stopped (S k) = S k →
  run_loop env i stopped rs = (seq i k ≫= row_block env, Crashed).
Proof.
  revert i stopped k. induction rs as [|r rs IH]; intros i stopped k Hk Hu Hok Hp; [done|].
  destruct stopped; [done|]. destruct k as [|k]; simplify_eq/=.
  - by rewrite run_item_None.
  - inversion Hok as [|? ? Hr Hok']; subst. rewrite run_item_Some by done.
    by rewrite (IH (S i) _ k) by (done || lia).
Qed.

Lemma run_crash_trace w k row :
  rows w !! k = Some row → row !! "url" = None → rows_ok (take k (rows w)) →
  processed env 0 (_stop w) (S k) = S k →
  run w env = (seq 0 k ≫= row_block env, Crashed).
Proof. intros Hk Hu Hok Hp. unfold run. by rewrite (run_loop_crash_trace _ _ _ k row). Qed.

End traces.

(** ** Well-formed payloads *)

Section wf.
Implicit Types (i : nat) (e : item_env) (sg : signal).

Lemma title_signals_wf i p : title_ok p → Forall signal_wf (title_signals i p).
Proof.
  destruct p as [[info|]|]; simpl; intros H; try by constructor.
  case_match eqn:E; [|by constructor].
  apply andb_true_iff in E as [_ Et]. destruct (H Et) as [s ->].
  repeat constructor. apply (bool_decide_unpack _). by vm_compute.
Qed.

Lemma hook_signals_wf i d : Forall signal_wf (hook_signals i d).
Proof.
  unfold hook_signals. destruct (hook i d) eqn:E; repeat constructor.
  by eapply hook_emit_wf.
Qed.

Lemma handler_signals_wf i x : Forall signal_wf (handler_signals i x).
Proof.
  destruct x; repeat constructor; apply (bool_decide_unpack _); by vm_compute.
Qed.

Lemma progress_signals_wf i e : title_ok (probe e) → Forall signal_wf (progress_signals i e).
Proof.
  intros H. apply Forall_app. split; [by apply title_signals_wf|].
  apply Forall_forall. intros sg (d & Hsg & _)%list_elem_of_bind.
  by eapply Forall_forall in Hsg; [|apply hook_signals_wf].
Qed.

Lemma starting_wf i : signal_wf (SigUpdate i starting_payload).
Proof. apply (bool_decide_unpack _). by vm_compute. Qed.

Lemma done_wf i : signal_wf (SigUpdate i done_payload).
Proof. apply (bool_decide_unpack _). by vm_compute. Qed.

Lemma item_signals_wf i e : title_ok (probe e) → Forall signal_wf (item_signals i e).
Proof.
  intros H. pose proof (progress_signals_wf i e H).
  pose proof (starting_wf i). pose proof (done_wf i).
  destruct (item_signals_cases i e) as
    [(x & _ & ->)|[(rc & _ & _ & _ & ->)|[(rc & y & _ & _ & _ & ->)|(x & _ & _ & ->)]]];
    repeat first [assumption | apply handler_signals_wf | apply Forall_nil_2
                 | apply Forall_cons_2 | apply Forall_app_2].
Qed.

End wf.

(** ** Properties *)

(** C3. When every row has a URL, [run] returns and its trace ends
    with [sig_done], which occurs nowhere else: exactly one run-finished
    signal, after every update. *)
Theorem run_done_once (w : DLWorker) (env : nat → item_env) :
  rows_ok (rows w) →
  ∃ tr, run w env = (tr ++ [SigDone], Finished) ∧ SigDone ∉ tr.
Proof.
  intros H. rewrite run_closed by done. eexists. split; [done|].
  apply SigDone_not_in_blocks.
Qed.

Lemma run_done_once_witness :
  ∃ tr, run (__init__ [url_row "a"; url_row "b"] sample_opts) (λ _, geo_env)
          = (tr ++ [SigDone], Finished) ∧ SigDone ∉ tr.
Proof.
  apply (run_done_once (__init__ [url_row "a"; url_row "b"] sample_opts) (λ _, geo_env)).
  rows_ok_eval.
Defined.

(** C1. With N rows and no stop request, the trace is the blocks
    of rows 0 .. N-1 in order followed by [sig_done], and, when no session
    fails to close, it holds exactly N terminal updates. *)
Theorem run_no_stop (w : DLWorker) (env : nat → item_env) :
  rows_ok (rows w) → _stop w = false →
  (∀ i, i < length (rows w) → stop_during (env i) = false) →
  (∀ i, i < length (rows w) → close (env i) = None) →
  (run w env).1 = (seq 0 (length (rows w)) ≫= row_block env) ++ [SigDone] ∧
  length (filter is_terminal (run w env).1) = length (rows w).
Proof.
  intros Hok Hs Hns Hcl. rewrite run_trace by done. rewrite Hs.
  rewrite processed_no_stop by (intros; apply Hns; lia). split; [done|].
  rewrite filter_terminal_snoc_done, filter_terminal_blocks.
  rewrite (length_bind_const _ _ 1), length_seq; [lia|].
  intros j Hj%elem_of_seq. apply terminals_of_length. intros _ _. apply Hcl. lia.
Qed.

Lemma run_no_stop_witness :
  (run (__init__ [url_row "a"; url_row "b"] sample_opts) (λ _, ok_env)).1 =
    (seq 0 2 ≫= row_block (λ _, ok_env)) ++ [SigDone] ∧
  length (filter is_terminal
            (run (__init__ [url_row "a"; url_row "b"] sample_opts) (λ _, ok_env)).1) = 2.
Proof.
  apply (run_no_stop (__init__ [url_row "a"; url_row "b"] sample_opts) (λ _, ok_env));
    [rows_ok_eval|reflexivity..].
Defined.

(** C4. When every row holds a URL, the signals about row [j] in a run
    are the block of row [j] if the loop processed row [j], and none if it
    did not: a row the loop did not start emits nothing, and the block of a
    row it started is emitted whole, whatever the library does on the other
    rows. *)
Theorem run_of_row (w : DLWorker) (env : nat → item_env) (j : nat) :
  rows_ok (rows w) →
  of_row j (run w env).1 =
    if decide (j < processed env 0 (_stop w) (length (rows w)))
    then row_block env j else [].
Proof. apply run_of_row_closed. Qed.

Lemma run_of_row_witness :
  of_row 1 (run (__init__ [url_row "a"; url_row "b"] sample_opts) (λ _, ok_env)).1 =
    if decide (1 < processed (λ _, ok_env) 0
                     (_stop (__init__ [url_row "a"; url_row "b"] sample_opts))
                     (length (rows (__init__ [url_row "a"; url_row "b"] sample_opts))))
    then row_block (λ _, ok_env) 1 else [].
Proof.
  apply (run_of_row (__init__ [url_row "a"; url_row "b"] sample_opts) (λ _, ok_env) 1).
  rows_ok_eval.
Defined.

(** C2. A stop request that arrives while row [k-1] is processed
    (and none before) lets rows 0 .. k-1 run to their terminal updates, emits
    nothing for rows k .. N-1, and ends with [sig_done]. *)
Theorem run_stop_before (w : DLWorker) (env : nat → item_env) (k : nat) :
  rows_ok (rows w) → _stop w = false → 0 < k < length (rows w) →
  (∀ j, S j < k → stop_during (env j) = false) →
  stop_during (env (k - 1)) = true →
  (run w env).1 = (seq 0 k ≫= row_block env) ++ [SigDone] ∧
  ∀ j, k ≤ j → of_row j (run w env).1 = [].
Proof.
  intros Hok Hs Hk Hbefore Hat.
  assert (processed env 0 false (length (rows w)) = k) as Hp.
  { apply processed_spec. split_and!; [lia|intros; apply Hbefore; lia|].
    intros _. split; [lia|]. by rewrite Nat.add_0_l. }
  split.
  - by rewrite run_trace, Hs, Hp by done.
  - intros j Hj. rewrite run_of_row_closed, Hs, Hp by done. case_decide; [lia|done].
Qed.

Lemma run_stop_before_witness :
  (run (__init__ [url_row "a"; url_row "b"] sample_opts) (λ _, stop_env)).1 =
     (seq 0 1 ≫= row_block (λ _, stop_env)) ++ [SigDone] ∧
  ∀ j, 1 ≤ j →
    of_row j (run (__init__ [url_row "a"; url_row "b"] sample_opts) (λ _, stop_env)).1 = [].
Proof.
  apply (run_stop_before (__init__ [url_row "a"; url_row "b"] sample_opts) (λ _, stop_env) 1);
    [rows_ok_eval|reflexivity|simpl; lia|intros; lia|reflexivity].
Defined.

(** C38. The rows of the updates of a run never decrease: every
    update of row [i] precedes every update of row [i+1]. *)
Theorem run_rows_sorted (w : DLWorker) (env : nat → item_env) :
  rows_ok (rows w) → StronglySorted le (rows_of (run w env).1).
Proof.
  intros Hok. rewrite run_trace, rows_of_snoc_done by done.
  apply rows_of_blocks_sorted.
Qed.

Lemma run_rows_sorted_witness :
  StronglySorted le
    (rows_of (run (__init__ [url_row "a"; url_row "b"] sample_opts) (λ _, ok_env)).1).
Proof.
  apply (run_rows_sorted (__init__ [url_row "a"; url_row "b"] sample_opts) (λ _, ok_env)).
  rows_ok_eval.
Defined.

(** C9. [run] is left by an exception exactly when the loop reaches
    a row without the key "url": the rows before it have one, and no stop
    request was seen up to it.  What was emitted then is the blocks of the
    rows before that row and nothing else: no [sig_done] is emitted. *)
Theorem run_crash_iff (w : DLWorker) (env : nat → item_env) :
  ((run w env).2 = Crashed ↔
   ∃ k row, rows w !! k = Some row ∧ row !! "url" = None ∧
            rows_ok (take k (rows w)) ∧ processed env 0 (_stop w) (S k) = S k) ∧
  (∀ k row, rows w !! k = Some row → row !! "url" = None →
            rows_ok (take k (rows w)) → processed env 0 (_stop w) (S k) = S k →
            run w env = (seq 0 k ≫= row_block env, Crashed)) ∧
  ((run w env).2 = Crashed → SigDone ∉ (run w env).1).
Proof.
  assert ((run w env).2 = Crashed ↔
          ∃ k row, rows w !! k = Some row ∧ row !! "url" = None ∧
                   rows_ok (take k (rows w)) ∧ processed env 0 (_stop w) (S k) = S k) as Hiff.
  { rewrite <- run_loop_crash. unfold run.
    by destruct (run_loop env 0 (_stop w) (rows w)) as [tr []]. }
  split; [done|]. split; [apply run_crash_trace|].
  intros (k & row & Hk & Hu & Hok & Hp)%Hiff.
  rewrite (run_crash_trace env w k row) by done. apply SigDone_not_in_blocks.
Qed.

(** A queue whose second row has no URL: the first row is processed, the
    run crashes there, the third row is not reached and no [sig_done] is
    emitted. *)
Lemma run_crash_iff_witness :
  run (__init__ [url_row "a"; ∅; url_row "c"] sample_opts) (λ _, geo_env) =
    (seq 0 1 ≫= row_block (λ _, geo_env), Crashed).
Proof.
  apply (proj1 (proj2 (run_crash_iff (__init__ [url_row "a"; ∅; url_row "c"] sample_opts)
                         (λ _, geo_env))) 1 ∅); [done|done|rows_ok_eval|done].
Defined.

(** C8. The block of a row is [Starting], then (when the
    session opens) the title update and the hook's updates, then the
    terminal updates; the progress part holds no terminal update.  The block
    ends with the [Error] of the handler when an exception left the session,
    and with [Done] otherwise. *)
Theorem item_protocol (i : nat) (e : item_env) :
  item_signals i e =
    SigUpdate i starting_payload ::
      match ctor e with
      | Some _ => []
      | None => progress_signals i e
      end ++ terminals_of i e
  ∧ filter is_terminal (progress_signals i e) = []
  ∧ match (session i e).2 with
    | Some x =>
        ∃ pre, item_signals i e =
                 pre ++ [SigUpdate i (error_payload (error_prefix x +:+ exn_msg x))]
    | None => ∃ pre, item_signals i e = pre ++ [SigUpdate i done_payload]
    end.
Proof.
  split; [|split; [apply progress_not_terminal|]].
  - unfold terminals_of.
    destruct (item_signals_cases i e) as
      [(x & -> & ->)|[(rc & -> & -> & -> & ->)|[(rc & y & -> & -> & -> & ->)|(x & -> & -> & ->)]]];
      try done.
    by destruct (close e).
  - assert (∀ x, handler_signals i x =
                   [SigUpdate i (error_payload (error_prefix x +:+ exn_msg x))]) as Hh
      by by intros [].
    unfold item_signals, session, with_body.
    destruct (ctor e) as [x|]; [|destruct (outcome e) as [rc|x], (close e) as [y|]]; simpl;
      rewrite ?Hh, ?app_nil_r; first [by eexists [_]|by eexists (_ :: _)].
Qed.

(** An exception becomes one [Error] update whose message
    is "Download failed: " followed by the cause for the library's
    [DownloadError] and "An unexpected error occurred: " followed by the
    cause otherwise; the first prefix tells the two apart. *)
Theorem handler_error_message (i : nat) (x : lib_exn) :
  handler_signals i x = [SigUpdate i (error_payload (error_prefix x +:+ exn_msg x))] ∧
  dict_get (error_payload (error_prefix x +:+ exn_msg x)) "status" = PStr "Error" ∧
  dict_get (error_payload (error_prefix x +:+ exn_msg x)) "error" =
    PStr (error_prefix x +:+ exn_msg x) ∧
  (is_prefix "Download failed: " (error_prefix x +:+ exn_msg x) = true ↔
   ∃ m, x = DownloadError m).
Proof.
  destruct x as [m|m]; (split_and!; [done..|]).
  - split; [eauto|]. intros _. apply is_prefix_app.
  - split; [|by intros [? ?]]. intros H. by vm_compute in H.
Qed.

(** A title probe that raises changes nothing else: the block is
    the one of a probe that returned no information, so the download goes on
    and no error is surfaced. *)
Theorem probe_failure_silent (i : nat) (e : item_env) :
  probe e = ProbeRaises →
  item_signals i e =
    item_signals i {| ctor := ctor e; probe := ProbeInfo None; raw := raw e;
                      outcome := outcome e; close := close e;
                      stop_during := stop_during e |}
  ∧ progress_signals i e = raw e ≫= hook_signals i.
Proof.
  intros Hp. unfold item_signals, session, with_body, progress_signals.
  simpl. by rewrite Hp.
Qed.

Lemma probe_failure_silent_witness :
  item_signals 0 geo_env =
    item_signals 0 {| ctor := ctor geo_env; probe := ProbeInfo None;
                      raw := raw geo_env; outcome := outcome geo_env;
                      close := close geo_env; stop_during := stop_during geo_env |}
  ∧ progress_signals 0 geo_env = raw geo_env ≫= hook_signals 0.
Proof. apply (probe_failure_silent 0 geo_env). reflexivity. Defined.

(** C37. Every payload a run emits carries only the keys "status",
    "progress", "speed", "title" and "error", with an [int] under "progress"
    and a [str] under the others, provided the titles the library reports are
    strings: the window can apply each payload without a type error. *)
Theorem run_payloads_wf (w : DLWorker) (env : nat → item_env) :
  rows_ok (rows w) → (∀ i, title_ok (probe (env i))) →
  Forall signal_wf (run w env).1.
Proof.
  intros Hok Ht. rewrite run_trace by done. apply Forall_app. split; [|by repeat constructor].
  apply Forall_forall. intros sg (j & Hsg & _)%list_elem_of_bind.
  by eapply Forall_forall in Hsg; [|apply item_signals_wf].
Qed.

Lemma run_payloads_wf_witness :
  Forall signal_wf (run (__init__ [url_row "a"; url_row "b"] sample_opts) (λ _, ok_env)).1.
Proof.
  apply (run_payloads_wf (__init__ [url_row "a"; url_row "b"] sample_opts) (λ _, ok_env));
    [rows_ok_eval|].
  intros _ _. by exists "A song".
Defined.

(** C35. [Done] is emitted whenever [download] returns, whatever
    code it returns: the code is not looked at. *)
Theorem done_whatever_retcode (i : nat) (e : item_env) (rc : Z) :
  ctor e = None → outcome e = Returned rc → close e = None →
  terminals_of i e = [SigUpdate i done_payload] ∧
  last (item_signals i e) = Some (SigUpdate i done_payload).
Proof.
  intros Hc Ho Hl. unfold terminals_of. rewrite Hc, Ho, Hl. split; [done|].
  rewrite (item_signals_done i e rc) by done.
  by rewrite app_comm_cons, last_snoc.
Qed.

Lemma done_whatever_retcode_witness :
  terminals_of 0 failed_env = [SigUpdate 0 done_payload] ∧
  last (item_signals 0 failed_env) = Some (SigUpdate 0 done_payload).
Proof. apply (done_whatever_retcode 0 failed_env 1); reflexivity. Defined.

(** C36. [Done] is emitted inside the [with] block: when closing the
    session then raises, the handler emits an [Error] for the same row after
    [Done], so the row has two terminal updates and ends as an error. *)
Theorem done_then_error_on_close (i : nat) (e : item_env) (rc : Z) (y : lib_exn) :
  ctor e = None → outcome e = Returned rc → close e = Some y →
  terminals_of i e = SigUpdate i done_payload :: handler_signals i y ∧
  length (filter is_terminal (item_signals i e)) = 2.
Proof.
  intros Hc Ho Hl. rewrite item_signals_terminals. unfold terminals_of.
  rewrite Hc, Ho, Hl. split; [done|]. simpl. by rewrite handler_signals_length.
Qed.

Lemma done_then_error_on_close_witness :
  terminals_of 0 close_env =
    SigUpdate 0 done_payload :: handler_signals 0 (OtherError "cookie jar") ∧
  length (filter is_terminal (item_signals 0 close_env)) = 2.
Proof.
  apply (done_then_error_on_close 0 close_env 0 (OtherError "cookie jar")); reflexivity.
Defined.

(** [stop] only sets the flag: it keeps the rows and the options,
    it is idempotent, and a worker stopped before its first check emits
    [sig_done] alone. *)
Theorem stop_sets_flag (w : DLWorker) (env : nat → item_env) :
  _stop (stop w) = true ∧ rows (stop w) = rows w ∧ opts (stop w) = opts w ∧
  stop (stop w) = stop w ∧ run (stop w) env = ([SigDone], Finished).
Proof.
  split_and!; try done. unfold run. simpl. by rewrite run_loop_stopped.
Qed.

(** ** Hints for the files that follow *)

#[export] Hint Resolve item_signals_row item_signals_wf handler_signals_wf
  SigDone_not_in_blocks rows_of_blocks_sorted : ytdl.
#[export] Hint Rewrite of_row_snoc_done rows_of_snoc_done filter_terminal_snoc_done
  run_loop_stopped processed_stopped : ytdl.
