(* ===== verification/WorkerSteps.v ===== *)
(** * The worker thread step by step, with the stop flag

    [Worker.run] describes a run by the library's behaviour per row, where
    [stop_during] says whether the stop request arrives while the row is
    processed.  This file justifies that description.  The thread of
    [DLWorker.run] (src/main.py 48-85) is a machine that takes one step at a
    time: the test of [_stop] at the head of an iteration, each emission of a
    signal, the end of an iteration, the emission of [sig_done].  The GUI
    thread interleaves calls of [stop()] (line 46) with these steps in any
    order; a schedule is the list of the actions of both threads.

    The theorems: every schedule keeps an invariant that ties the signals
    emitted to the blocks of the rows; when the thread has left [run], what
    it emitted is the trace of [Worker.run] against the library as the loop
    observed it; the thread leaves [run] within a known number of its own
    steps, whatever the GUI thread does; and once [_stop] is set no further
    row starts. *)

From S2P Require Import Prelude PyValue HumanBytes Hook Options Worker.

(** ** The worker thread, step by step *)

(** Where the thread is in [run]: about to test [_stop] for row [i]
    (line 51), inside the iteration of row [i] with [k] of its signals
    emitted (lines 52-84), after the loop (line 85), returned, or left by the
    [KeyError] of line 52. *)
Inductive pc : Type :=
  | AtCheck (i : nat)
  | InItem (i k : nat)
  | AfterLoop
  | Returned_
  | Crashed_.

#[export] Instance pc_eq_dec : EqDecision pc.
Proof. solve_decision. Defined.

(** The state of a run in progress: the position of the thread, the flag
    [_stop], the signals emitted so far, and (a history variable) the values
    of [_stop] the loop has read so far. *)
Record wstate : Type := WState {
  w_pc : pc;
  w_flag : bool;
  w_out : list signal;
  w_seen : list bool
}.

(** The state [start()] leaves, [flag] being [_stop] at that time. *)
Definition winit (flag : bool) : wstate := WState (AtCheck 0) flag [] [].

(** What the two threads do: the GUI thread calls [stop()] (line 46), the
    worker thread takes its next step. *)
Inductive action : Type := AStop | AWork.

#[export] Instance action_eq_dec : EqDecision action.
Proof. solve_decision. Defined.

Section steps.
Context (rs : list dict) (env : nat → item_env).

(** One step of the worker thread. *)
Definition work (s : wstate) : wstate :=
  match w_pc s with
  | AtCheck i =>
      match rs !! i with
      | None => WState AfterLoop (w_flag s) (w_out s) (w_seen s)
      | Some row =>
          if w_flag s then WState AfterLoop (w_flag s) (w_out s) (w_seen s ++ [true])
          else
            match run_item i row (env i) with
            | None => WState Crashed_ (w_flag s) (w_out s) (w_seen s ++ [false])
            | Some _ => WState (InItem i 0) (w_flag s) (w_out s) (w_seen s ++ [false])
            end
      end
  | InItem i k =>
      match item_signals i (env i) !! k with
      | Some sg => WState (InItem i (S k)) (w_flag s) (w_out s ++ [sg]) (w_seen s)
      | None => WState (AtCheck (S i)) (w_flag s) (w_out s) (w_seen s)
      end
  | AfterLoop => WState Returned_ (w_flag s) (w_out s ++ [SigDone]) (w_seen s)
  | Returned_ | Crashed_ => s
  end.

(** One action of either thread. *)
Definition act (a : action) (s : wstate) : wstate :=
  match a with
  | AStop => WState (w_pc s) true (w_out s) (w_seen s)
  | AWork => work s
  end.

(** A schedule: the actions of the two threads in the order they happen. *)
Definition exec_sched (sch : list action) (s : wstate) : wstate :=
  foldl (λ s a, act a s) s sch.

(** The thread has left [run]. *)
Definition final (s : wstate) : bool :=
  match w_pc s with Returned_ | Crashed_ => true | _ => false end.

Definition end_of (s : wstate) : option run_end :=
  match w_pc s with
  | Returned_ => Some Finished
  | Crashed_ => Some Crashed
  | _ => None
  end.

(** The steps the thread still takes at most. *)
Definition block_cost (i : nat) : nat := 2 + length (item_signals i (env i)).

Definition work_left (s : wstate) : nat :=
  match w_pc s with
  | AtCheck i => 2 + sum_list (block_cost <$> seq i (length rs - i))
  | InItem i k =>
      2 + S (length (item_signals i (env i)) - k)
        + sum_list (block_cost <$> seq (S i) (length rs - S i))
  | AfterLoop => 1
  | Returned_ | Crashed_ => 0
  end.

(** The library as the loop saw it: [stop_during] of row [i] is the value
    of [_stop] read at the head of the next iteration. *)
Definition observed (seen : list bool) (i : nat) : item_env :=
  {| ctor := ctor (env i); probe := probe (env i); raw := raw (env i);
     outcome := outcome (env i); close := close (env i);
     stop_during := default false (seen !! S i) |}.

(** The worker as the loop saw it. *)
Definition observed_worker (os : ydl_opts) (seen : list bool) : DLWorker :=
  {| rows := rs; opts := os; _stop := default false (seen !! 0) |}.

(** The rows whose iteration has begun: the tests of [_stop] that found it
    clear. *)
Definition started (s : wstate) : nat := length (filter (λ b, b = false) (w_seen s)).

(** The steps of the worker thread in a schedule. *)
Definition work_steps (sch : list action) : nat :=
  length (filter (λ a, a = AWork) sch).

(** The invariant of the states a schedule reaches. *)
Definition winv (s : wstate) : Prop :=
  match w_pc s with
  | AtCheck i =>
      i ≤ length rs ∧ rows_ok (take i rs) ∧ w_seen s = replicate i false ∧
      w_out s = seq 0 i ≫= row_block env
  | InItem i k =>
      i < length rs ∧ rows_ok (take (S i) rs) ∧ w_seen s = replicate (S i) false ∧
      k ≤ length (row_block env i) ∧
      w_out s = (seq 0 i ≫= row_block env) ++ take k (row_block env i)
  | AfterLoop =>
      ∃ i, rows_ok (take i rs) ∧ w_out s = seq 0 i ≫= row_block env ∧
           (i = length rs ∧ w_seen s = replicate i false ∨
            i < length rs ∧ w_seen s = replicate i false ++ [true] ∧ w_flag s = true)
  | Returned_ =>
      ∃ i, rows_ok (take i rs) ∧ w_out s = (seq 0 i ≫= row_block env) ++ [SigDone] ∧
           (i = length rs ∧ w_seen s = replicate i false ∨
            i < length rs ∧ w_seen s = replicate i false ++ [true] ∧ w_flag s = true)
  | Crashed_ =>
      ∃ i row, rows_ok (take i rs) ∧ rs !! i = Some row ∧ row !! "url" = None ∧
               w_seen s = replicate (S i) false ∧ w_out s = seq 0 i ≫= row_block env
  end.

End steps.

(** * The invariant *)

Section sched_invariant.
Context (rs : list dict) (env : nat → item_env).
Implicit Types (s : wstate) (a : action) (sch : list action) (i k : nat).

Lemma winv_init flag : winv rs env (winit flag).
Proof. split_and!; [simpl; lia|constructor|done|done]. Qed.

Lemma blocks_snoc i : seq 0 (S i) ≫= row_block env = (seq 0 i ≫= row_block env) ++ row_block env i.
Proof. rewrite seq_S, bind_app. simpl. by rewrite app_nil_r. Qed.

Lemma rows_ok_snoc i row :
  rs !! i = Some row → is_Some (row !! "url") → rows_ok (take i rs) → rows_ok (take (S i) rs).
Proof.
  intros Hr Hu Hok. rewrite (take_S_r _ _ _ Hr). apply Forall_app. split; [done|].
  by constructor.
Qed.

Lemma winv_check i s :
  w_pc s = AtCheck i → winv rs env s → winv rs env (work rs env s).
Proof.
  unfold winv, work. intros -> (Hi & Hok & Hseen & Hout).
  destruct (rs !! i) as [row|] eqn:Hrow; simpl.
  - pose proof (lookup_lt_Some _ _ _ Hrow) as Hlt. destruct (w_flag s) eqn:Hf; simpl.
    + exists i. rewrite Hseen. split_and!; try done. by right.
    + destruct (row !! "url") as [u|] eqn:Hu.
      * rewrite run_item_Some by eauto. simpl. rewrite Hseen, app_nil_r.
        split_and!; [done|by eapply rows_ok_snoc|by rewrite <- replicate_S_end|lia|done].
      * rewrite run_item_None by done. simpl. exists i, row.
        rewrite Hseen. split_and!; try done. by rewrite <- replicate_S_end.
  - apply lookup_ge_None in Hrow. exists i. split_and!; try done. left. split; [lia|done].
Qed.

Lemma winv_item i k s :
  w_pc s = InItem i k → winv rs env s → winv rs env (work rs env s).
Proof.
  unfold winv, work. intros -> (Hi & Hok & Hseen & Hk & Hout). fold (row_block env i).
  destruct (row_block env i !! k) as [sg|] eqn:Hsg; cbn [w_pc w_flag w_out w_seen].
  - pose proof (lookup_lt_Some _ _ _ Hsg). split_and!; try done; try lia.
    by rewrite Hout, (take_S_r _ _ _ Hsg), app_assoc.
  - apply lookup_ge_None in Hsg. split_and!; try done; try lia.
    by rewrite Hout, blocks_snoc, take_ge by lia.
Qed.

Lemma winv_work s : winv rs env s → winv rs env (work rs env s).
Proof.
  destruct (w_pc s) as [i|i k| | |] eqn:Hpc; intros H.
  - by apply (winv_check i).
  - by apply (winv_item i k).
  - unfold winv, work in *. rewrite Hpc in *. simpl.
    destruct H as (i & Hok & Hout & Hs). exists i. by rewrite Hout.
  - unfold work. by rewrite Hpc.
  - unfold work. by rewrite Hpc.
Qed.

Lemma winv_stop s : winv rs env s → winv rs env (act rs env AStop s).
Proof.
  unfold winv, act. simpl. destruct (w_pc s); try done.
  - intros (i & Hok & Hout & Hs). exists i. split_and!; [done..|].
    destruct Hs as [?|(? & ? & _)]; [by left|by right].
  - intros (i & Hok & Hout & Hs). exists i. split_and!; [done..|].
    destruct Hs as [?|(? & ? & _)]; [by left|by right].
Qed.

Lemma winv_act a s : winv rs env s → winv rs env (act rs env a s).
Proof. destruct a; [apply winv_stop|apply winv_work]. Qed.

Lemma exec_sched_snoc sch a s :
  exec_sched rs env (sch ++ [a]) s = act rs env a (exec_sched rs env sch s).
Proof. unfold exec_sched. by rewrite foldl_app. Qed.

(** Every state a schedule reaches satisfies the invariant. *)
Lemma winv_exec sch flag : winv rs env (exec_sched rs env sch (winit flag)).
Proof.
  induction sch as [|a sch IH] using rev_ind; [apply winv_init|].
  rewrite exec_sched_snoc. by apply winv_act.
Qed.

End sched_invariant.

(** * The loop against the library as observed *)

Section observed_loop.
Context (rs : list dict) (env : nat → item_env).
Implicit Types (s : wstate) (a : action) (sch : list action) (i j k : nat) (seen : list bool).

Lemma observed_block seen i : row_block (observed env seen) i = row_block env i.
Proof. done. Qed.

Lemma observed_blocks seen l : l ≫= row_block (observed env seen) = l ≫= row_block env.
Proof. apply bind_ext_in. intros. apply observed_block. Qed.

(** The loop against the library as observed: it processes the rows whose
    test found the flag clear, and stops at the first that found it set or
    at the end of the rows. *)
Lemma run_loop_observed seen k d j :
  j + d = k → k ≤ length rs → rows_ok (take k rs) →
  (∀ i, i < k → seen !! i = Some false) →
  (k = length rs ∨ seen !! k = Some true) →
  run_loop (observed env seen) j (default false (seen !! j)) (drop j rs) =
    (seq j d ≫= row_block env, Finished).
Proof.
  intros Hk Hlen Hok Hf Hend. revert j Hk. induction d as [|d IH]; intros j Hk.
  - replace j with k by lia. destruct Hend as [->| ->].
    + by rewrite drop_all.
    + apply run_loop_stopped.
  - destruct (lookup_lt_is_Some_2 rs j) as [row Hrow]; [lia|].
    rewrite (drop_S _ _ _ Hrow), Hf by lia. simpl default.
    assert (is_Some (row !! "url")) as Hu.
    { eapply (Forall_lookup_1 _ _ j row) in Hok; [done|]. rewrite lookup_take_lt by lia. done. }
    rewrite run_loop_cons by done. change (stop_during (observed env seen j)) with
      (default false (seen !! S j)).
    rewrite IH by lia. by rewrite observed_block.
Qed.

Lemma run_loop_observed_crash seen k row d j :
  j + d = k → rs !! k = Some row → row !! "url" = None → rows_ok (take k rs) →
  (∀ i, i ≤ k → seen !! i = Some false) →
  run_loop (observed env seen) j (default false (seen !! j)) (drop j rs) =
    (seq j d ≫= row_block env, Crashed).
Proof.
  intros Hk Hrow Hu Hok Hf. revert j Hk. induction d as [|d IH]; intros j Hk.
  - replace j with k by lia. rewrite (drop_S _ _ _ Hrow), Hf by lia. simpl.
    by rewrite run_item_None.
  - pose proof (lookup_lt_Some _ _ _ Hrow).
    destruct (lookup_lt_is_Some_2 rs j) as [row' Hrow']; [lia|].
    rewrite (drop_S _ _ _ Hrow'), Hf by lia. simpl default.
    assert (is_Some (row' !! "url")) as Hu'.
    { eapply (Forall_lookup_1 _ _ j row') in Hok; [done|]. rewrite lookup_take_lt by lia. done. }
    rewrite run_loop_cons by done. change (stop_during (observed env seen j)) with
      (default false (seen !! S j)).
    rewrite IH by lia. by rewrite observed_block.
Qed.

Lemma seen_clear_lookup i k : i < k → replicate k false !! i = Some false.
Proof. intros. by apply lookup_replicate_2. Qed.

Lemma seen_stop_lookup k :
  (∀ i, i < k → (replicate k false ++ [true]) !! i = Some false) ∧
  (replicate k false ++ [true]) !! k = Some true.
Proof.
  split.
  - intros i Hi. rewrite lookup_app_l by (rewrite length_replicate; lia).
    by apply lookup_replicate_2.
  - rewrite lookup_app_r by (rewrite length_replicate; lia).
    rewrite length_replicate. by replace (k - k) with 0 by lia.
Qed.

End observed_loop.

(** * Final states, termination and the flag *)

Section final_states.
Context (rs : list dict) (env : nat → item_env).
Implicit Types (s : wstate) (a : action) (sch : list action) (i j k : nat).

(** A state that satisfies the invariant and is final holds the result of
    [run] against the library as observed. *)
Lemma winv_final os s e :
  winv rs env s → end_of s = Some e →
  run (observed_worker rs os (w_seen s)) (observed env (w_seen s)) = (w_out s, e).
Proof.
  unfold winv, end_of, run. destruct (w_pc s); try done; intros H [= <-]; simpl.
  - destruct H as (k & Hok & -> & Hs).
    pose proof (run_loop_observed rs env (w_seen s) k k 0) as Hrun. rewrite drop_0 in Hrun.
    destruct Hs as [[Hk Hs]|(Hk & Hs & _)]; rewrite Hs in *.
    + rewrite Hrun; [done|done|lia|done| |by left]. intros i Hi. by apply seen_clear_lookup.
    + destruct (seen_stop_lookup k) as [Hf Ht]. rewrite Hrun; [done|done|lia|done|done|by right].
  - destruct H as (k & row & Hok & Hrow & Hu & Hs & ->).
    pose proof (run_loop_observed_crash rs env (w_seen s) k row k 0) as Hrun.
    rewrite drop_0 in Hrun. rewrite Hrun; [done..|].
    intros i Hi. rewrite Hs. apply seen_clear_lookup. lia.
Qed.

Lemma final_work s : final s = true → work rs env s = s.
Proof. unfold final, work. by destruct (w_pc s). Qed.

Lemma final_act a s : final s = true → final (act rs env a s) = true.
Proof. intros H. destruct a; simpl; [done|by rewrite final_work]. Qed.

Lemma work_left_final s : work_left rs env s = 0 ↔ final s = true.
Proof. unfold work_left, final. destruct (w_pc s); split; (done || lia). Qed.

Lemma cost_from i :
  i < length rs →
  sum_list (block_cost env <$> seq i (length rs - i)) =
    block_cost env i + sum_list (block_cost env <$> seq (S i) (length rs - S i)).
Proof. intros H. by replace (length rs - i) with (S (length rs - S i)) by lia. Qed.

(** A step of the thread that has not finished brings it closer to the
    end. *)
Lemma work_left_work s :
  final s = false → work_left rs env (work rs env s) < work_left rs env s.
Proof.
  unfold final, work, work_left. destruct (w_pc s) as [i|i k| | |]; try done; intros _.
  - destruct (rs !! i) as [row|] eqn:Hrow; simpl; [|lia].
    pose proof (lookup_lt_Some _ _ _ Hrow). rewrite cost_from by done. unfold block_cost.
    destruct (w_flag s); simpl; [lia|]. destruct (run_item i row (env i)); simpl; lia.
  - destruct (item_signals i (env i) !! k) as [sg|] eqn:Hsg; cbn [w_pc]; [|lia].
    pose proof (lookup_lt_Some _ _ _ Hsg).
    replace (length (item_signals i (env i)) - k) with
      (S (length (item_signals i (env i)) - S k)) by lia. lia.
  - simpl. lia.
Qed.

Lemma work_left_act a s : work_left rs env (act rs env a s) ≤ work_left rs env s.
Proof.
  destruct a; [done|]. simpl. destruct (final s) eqn:Hf.
  - by rewrite final_work.
  - pose proof (work_left_work s Hf). lia.
Qed.

Lemma exec_sched_cons a sch s :
  exec_sched rs env (a :: sch) s = exec_sched rs env sch (act rs env a s).
Proof. done. Qed.

Lemma exec_final sch s :
  work_left rs env s ≤ work_steps sch → final (exec_sched rs env sch s) = true.
Proof.
  revert s. induction sch as [|a sch IH]; intros s H.
  { change (exec_sched rs env [] s) with s. apply work_left_final.
    unfold work_steps in H. simpl in H. lia. }
  rewrite exec_sched_cons. apply IH. unfold work_steps in *.
  destruct a.
  - rewrite filter_cons_False in H by done. pose proof (work_left_act AStop s). lia.
  - rewrite filter_cons_True in H by done. simpl in *.
    destruct (final s) eqn:Hf.
    + rewrite final_work by done. apply work_left_final in Hf. lia.
    + pose proof (work_left_work s Hf). lia.
Qed.

(** A thread that has left [run] stays where it is. *)
Lemma exec_final_fixed sch s :
  final s = true →
  w_pc (exec_sched rs env sch s) = w_pc s ∧ w_out (exec_sched rs env sch s) = w_out s.
Proof.
  revert s. induction sch as [|a sch IH]; intros s H; [done|].
  rewrite exec_sched_cons. destruct (IH (act rs env a s)) as [-> ->]; [by apply final_act|].
  destruct a; [done|]. simpl. by rewrite final_work.
Qed.

(** Once [_stop] is set it stays set and no further row starts. *)
Lemma flag_act a s : w_flag s = true → w_flag (act rs env a s) = true.
Proof.
  intros H. destruct a; [done|]. simpl. unfold work.
  repeat case_match; simpl; done.
Qed.

Lemma started_act a s : w_flag s = true → started (act rs env a s) = started s.
Proof.
  intros H. destruct a; [done|]. simpl. unfold work, started. rewrite H.
  repeat case_match; simpl; try done. by rewrite filter_app, filter_cons_False, app_nil_r.
Qed.

Lemma started_exec sch s :
  w_flag s = true → started (exec_sched rs env sch s) = started s ∧
                    w_flag (exec_sched rs env sch s) = true.
Proof.
  revert s. induction sch as [|a sch IH]; intros s H; [done|].
  rewrite exec_sched_cons. destruct (IH (act rs env a s)) as [-> ->]; [by apply flag_act|].
  by rewrite started_act.
Qed.

End final_states.

Section emitted_rows.
Context (rs : list dict) (env : nat → item_env).
Implicit Types (s : wstate) (a : action) (sch : list action) (i j k : nat) (sg : signal).

Lemma exec_sched_app sch1 sch2 s :
  exec_sched rs env (sch1 ++ sch2) s = exec_sched rs env sch2 (exec_sched rs env sch1 s).
Proof. apply foldl_app. Qed.

Lemma winv_exec_from sch s : winv rs env s → winv rs env (exec_sched rs env sch s).
Proof.
  revert s. induction sch as [|a sch IH]; intros s H; [done|].
  rewrite exec_sched_cons. by apply IH, winv_act.
Qed.

Lemma started_clear k : length (filter (λ b, b = false) (replicate k false)) = k.
Proof. rewrite filter_all; [apply length_replicate|]. by apply Forall_replicate. Qed.

Lemma started_stop k : length (filter (λ b, b = false) (replicate k false ++ [true])) = k.
Proof. by rewrite filter_app, filter_cons_False, app_nil_r, started_clear. Qed.

Lemma blocks_rows k sg j :
  sg ∈ seq 0 k ≫= row_block env → signal_row sg = Some j → j < k.
Proof.
  intros (i & Hsg & Hi)%list_elem_of_bind Hj. apply item_signals_row in Hsg.
  apply elem_of_seq in Hi. rewrite Hsg in Hj. injection Hj as <-. lia.
Qed.

(** The signals emitted so far are about rows that have started. *)
Lemma out_rows_started s sg j :
  winv rs env s → sg ∈ w_out s → signal_row sg = Some j → j < started s.
Proof.
  unfold winv, started. destruct (w_pc s).
  - intros (_ & _ & -> & ->) Hsg Hj. rewrite started_clear. by eapply blocks_rows.
  - intros (_ & _ & -> & _ & ->) [Hsg|Hsg%elem_of_take]%elem_of_app Hj; rewrite started_clear.
    + apply (blocks_rows _ _ _ Hsg) in Hj. lia.
    + destruct Hsg as (? & Hsg%list_elem_of_lookup_2 & _). apply item_signals_row in Hsg.
      rewrite Hsg in Hj. injection Hj as <-. lia.
  - intros (k & _ & -> & Hs) Hsg Hj. apply (blocks_rows _ _ _ Hsg) in Hj.
    destruct Hs as [[_ ->]|(_ & -> & _)]; by rewrite ?started_clear, ?started_stop.
  - intros (k & _ & -> & Hs) [Hsg| ->%list_elem_of_singleton]%elem_of_app Hj; [|done].
    apply (blocks_rows _ _ _ Hsg) in Hj.
    destruct Hs as [[_ ->]|(_ & -> & _)]; by rewrite ?started_clear, ?started_stop.
  - intros (k & row & _ & _ & _ & -> & ->) Hsg Hj. rewrite started_clear.
    apply (blocks_rows _ _ _ Hsg) in Hj. lia.
Qed.

(** No more rows start than there are. *)
Lemma started_le s : winv rs env s → started s ≤ length rs.
Proof.
  unfold winv, started. destruct (w_pc s).
  - intros (? & _ & -> & _). by rewrite started_clear.
  - intros (? & _ & -> & _). rewrite started_clear. lia.
  - intros (k & _ & _ & [[-> ->]|(? & -> & _)]); rewrite ?started_clear, ?started_stop; lia.
  - intros (k & _ & _ & [[-> ->]|(? & -> & _)]); rewrite ?started_clear, ?started_stop; lia.
  - intros (k & row & _ & Hrow%lookup_lt_Some & _ & -> & _). rewrite started_clear. lia.
Qed.

End emitted_rows.

(** * Properties *)

(** C5. Whatever the interleaving of the worker's steps with
    calls of [stop()], when the thread has left [run] the signals it emitted
    and the way it ended are those of [Worker.run] on the same rows against
    the library as the loop observed it: the flag at the first test is the
    worker's [_stop], and [stop_during] of a row is the flag read at the next
    test. *)
Theorem steps_refine_run (rs : list dict) (env : nat → item_env) (os : ydl_opts) (sch : list action) (flag : bool) (e : run_end) :
  end_of (exec_sched rs env sch (winit flag)) = Some e →
  run (observed_worker rs os (w_seen (exec_sched rs env sch (winit flag))))
      (observed env (w_seen (exec_sched rs env sch (winit flag)))) =
    (w_out (exec_sched rs env sch (winit flag)), e).
Proof. apply winv_final, winv_exec. Qed.

Lemma steps_refine_run_witness :
  run (observed_worker [url_row "a"; url_row "b"] sample_opts
         (w_seen (exec_sched [url_row "a"; url_row "b"] (λ _, ok_env)
                    ([AWork; AWork; AStop] ++ replicate 8 AWork) (winit false))))
      (observed (λ _, ok_env)
         (w_seen (exec_sched [url_row "a"; url_row "b"] (λ _, ok_env)
                    ([AWork; AWork; AStop] ++ replicate 8 AWork) (winit false)))) =
    (w_out (exec_sched [url_row "a"; url_row "b"] (λ _, ok_env)
              ([AWork; AWork; AStop] ++ replicate 8 AWork) (winit false)), Finished).
Proof.
  apply (steps_refine_run [url_row "a"; url_row "b"] (λ _, ok_env) sample_opts
           ([AWork; AWork; AStop] ++ replicate 8 AWork) false Finished).
  by vm_compute.
Defined.

(** A stop request while the first of two rows is processed: the first row
    is completed, the second never starts. *)
Example stop_during_first_row :
  w_out (exec_sched [url_row "a"; url_row "b"] (λ _, ok_env)
           ([AWork; AWork; AStop] ++ replicate 8 AWork) (winit false)) =
    row_block (λ _, ok_env) 0 ++ [SigDone].
Proof. by vm_compute. Qed.

(** C30. The thread leaves [run] within two steps per row, one per
    signal of the row, and two more, however the calls of [stop()] are
    interleaved; further actions change neither its position nor what it
    emitted. *)
Theorem steps_terminate (rs : list dict) (env : nat → item_env) (sch more : list action) (flag : bool) :
  2 + sum_list (block_cost env <$> seq 0 (length rs)) ≤ work_steps sch →
  final (exec_sched rs env sch (winit flag)) = true ∧
  w_pc (exec_sched rs env (sch ++ more) (winit flag)) =
    w_pc (exec_sched rs env sch (winit flag)) ∧
  w_out (exec_sched rs env (sch ++ more) (winit flag)) =
    w_out (exec_sched rs env sch (winit flag)).
Proof.
  intros H. assert (final (exec_sched rs env sch (winit flag)) = true) as Hf.
  { apply exec_final. unfold work_left, winit. cbn [w_pc]. by rewrite Nat.sub_0_r. }
  split; [done|]. rewrite exec_sched_app. by apply exec_final_fixed.
Qed.

Lemma steps_terminate_witness :
  final (exec_sched [url_row "a"] (λ _, geo_env) (replicate 6 AWork) (winit false)) = true ∧
  w_pc (exec_sched [url_row "a"] (λ _, geo_env) (replicate 6 AWork ++ [AStop; AWork])
          (winit false)) =
    w_pc (exec_sched [url_row "a"] (λ _, geo_env) (replicate 6 AWork) (winit false)) ∧
  w_out (exec_sched [url_row "a"] (λ _, geo_env) (replicate 6 AWork ++ [AStop; AWork])
           (winit false)) =
    w_out (exec_sched [url_row "a"] (λ _, geo_env) (replicate 6 AWork) (winit false)).
Proof.
  apply (steps_terminate [url_row "a"] (λ _, geo_env) (replicate 6 AWork) [AStop; AWork] false).
  vm_compute. lia.
Defined.

(** C17. Once [_stop] is set, no further row starts: every signal
    emitted from then on is about a row whose iteration had begun. *)
Theorem stop_honoured (rs : list dict) (env : nat → item_env)
    (sch1 sch2 : list action) (flag : bool) (sg : signal) (j : nat) :
  w_flag (exec_sched rs env sch1 (winit flag)) = true →
  sg ∈ w_out (exec_sched rs env (sch1 ++ sch2) (winit flag)) →
  signal_row sg = Some j →
  j < started (exec_sched rs env sch1 (winit flag)).
Proof.
  intros Hf Hsg Hj. rewrite exec_sched_app in Hsg.
  destruct (started_exec rs env sch2 _ Hf) as [<- _].
  eapply out_rows_started; [|done..]. apply winv_exec_from, winv_exec.
Qed.


Lemma stop_honoured_witness :
  0 < started (exec_sched [url_row "a"; url_row "b"] (λ _, ok_env) [AWork; AWork; AStop]
                 (winit false)).
Proof.
  apply (stop_honoured [url_row "a"; url_row "b"] (λ _, ok_env) [AWork; AWork; AStop]
           (replicate 8 AWork) false (SigUpdate 0 done_payload) 0);
    [done| |done].
  apply (bool_decide_unpack _). by vm_compute.
Defined.
