(* ===== verification/Widgets.v ===== *)
(** * Slots and widgets: the part of Qt the main window relies on

    The handlers of [Main] (src/main.py 87-226) run in the GUI thread, change
    the widgets step by step and may be left by an exception at any step; what
    was changed before stays changed.  [eff S A] is the state-and-exception
    monad these handlers are written in.  The widgets are modelled by the
    state the handlers read and write: a table with its header, its text
    items and its progress bars, a progress bar with its range, a combo box
    with its items.  The
    behaviour of each call outside its normal range (a cell outside the
    table, a value outside the bar's range, an index outside the items) is
    Qt's and is written out.  Two ways to reason about a handler without
    unfolding it: [hoare] and [keeps] for what it establishes and keeps,
    [blind] for a change of the state it does not see. *)

From S2P Require Import Prelude PyValue.

Local Open Scope Z_scope.

(** ** Exceptions and the monad of slots *)

Inductive exn : Type :=
  | AttributeError | TypeError | ValueError | OverflowError | OSError | ImportError.

#[export] Instance exn_eq_dec : EqDecision exn.
Proof. solve_decision. Defined.

Definition eff (S A : Type) : Type := S → S * (exn + A).

#[export] Instance eff_ret {S} : MRet (eff S) := λ A x s, (s, inr x).
#[export] Instance eff_bind {S} : MBind (eff S) := λ A B f m s,
  match m s with
  | (s', inr x) => f x s'
  | (s', inl e) => (s', inl e)
  end.

Definition raise {S A} (e : exn) : eff S A := λ s, (s, inl e).
Definition get {S} : eff S S := λ s, (s, inr s).
Definition gets {S A} (f : S → A) : eff S A := λ s, (s, inr (f s)).
Definition modify {S} (f : S → S) : eff S () := λ s, (f s, inr ()).

(** [if b: m] *)
Definition when {S} (b : bool) (m : eff S ()) : eff S () := if b then m else mret ().

(** [x.method(...)] where [x] may be [None]. *)
Definition attr {S A B} (x : option A) (k : A → eff S B) : eff S B :=
  match x with Some a => k a | None => raise AttributeError end.

(** The state a slot leaves, and whether it returned. *)
Definition exec {S A} (m : eff S A) (s : S) : S := (m s).1.
Definition returns {S A} (m : eff S A) (s : S) : bool :=
  match (m s).2 with inr _ => true | inl _ => false end.
Definition raises {S A} (m : eff S A) (s : S) : option exn :=
  match (m s).2 with inl e => Some e | inr _ => None end.

(** ** Triples

    [hoare P m Q E]: from a state that satisfies [P], the computation [m]
    either returns [x] in a state that satisfies [Q x] or raises in a state
    that satisfies [E]. *)
Definition hoare {S A} (P : S → Prop) (m : eff S A) (Q : A → S → Prop) (E : S → Prop) : Prop :=
  ∀ s, P s → match m s with (s', inr x) => Q x s' | (s', inl _) => E s' end.

(** [m] keeps the invariant [I], however it ends. *)
Definition keeps {S A} (I : S → Prop) (m : eff S A) : Prop := hoare I m (λ _, I) I.

(** [m] does not see the change [f] of the state: after [f] it does what it
    does before [f], and ends in the state [f] makes of the one it ends in
    otherwise. *)
Definition blind {S A} (f : S → S) (m : eff S A) : Prop :=
  ∀ s, m (f s) = (f (m s).1, (m s).2).

(** ** Progress bars *)

Record QProgressBar : Type := Bar { minimum : Z; maximum : Z; value : Z }.

#[export] Instance QProgressBar_eq_dec : EqDecision QProgressBar.
Proof. solve_decision. Defined.

(** [QProgressBar()]: range 0..100, no value yet. *)
Definition new_bar : QProgressBar := Bar 0 100 (-1).

(** [setValue]: a value outside the range is ignored, unless the range is
    the undetermined range 0..0. *)
Definition setValue (v : Z) (b : QProgressBar) : QProgressBar :=
  if ((maximum b <? v) || (v <? minimum b)) && negb ((maximum b =? 0) && (minimum b =? 0))
  then b else Bar (minimum b) (maximum b) v.

(** The argument of [setValue] is a C [int]. *)
Definition c_int (v : Z) : bool := (- 2 ^ 31 <=? v) && (v <? 2 ^ 31).

(** ** Tables *)

(** A row: its items (their texts) and its cell widgets, by column. *)
Record trow : Type := Row { cells : gmap nat string; cellws : gmap nat QProgressBar }.

(** A table: its number of columns, the texts of the header items set so
    far, by section, and its rows. *)
Record QTableWidget : Type :=
  Table { columnCount : nat; hlabels : gmap nat string; trows : list trow }.

(** [QTableWidget(rows, columns)] with [rows = 0]. *)
Definition new_table (columns : nat) : QTableWidget := Table columns ∅ [].

(** [setHorizontalHeaderLabels(labels)]: a label per section of the header,
    in order; the labels beyond the last section are dropped. *)
Definition setHorizontalHeaderLabels (labels : list string) (t : QTableWidget) : QTableWidget :=
  Table (columnCount t) (map_seq 0 (take (columnCount t) labels) ∪ hlabels t) (trows t).

(** [horizontalHeaderItem(c)], as its text. *)
Definition horizontalHeaderItem (c : nat) (t : QTableWidget) : option string :=
  if decide (c < columnCount t)%nat then hlabels t !! c else None.

Definition empty_row : trow := Row ∅ ∅.

Definition rowCount (t : QTableWidget) : nat := length (trows t).

(** [insertRow(r)]: refused when [r] is beyond the end. *)
Definition insertRow (r : nat) (t : QTableWidget) : QTableWidget :=
  if decide (r ≤ rowCount t)%nat
  then Table (columnCount t) (hlabels t) (take r (trows t) ++ empty_row :: drop r (trows t))
  else t.

Definition set_cell (c : nat) (s : string) (w : trow) : trow := Row (<[c := s]> (cells w)) (cellws w).
Definition set_cellw (c : nat) (b : QProgressBar) (w : trow) : trow := Row (cells w) (<[c := b]> (cellws w)).

(** The rows of a table changed by [f]. *)
Definition set_trows (f : list trow → list trow) (t : QTableWidget) : QTableWidget :=
  Table (columnCount t) (hlabels t) (f (trows t)).

(** [setItem(r, c, QTableWidgetItem(s))]: Qt keeps the items of a table in
    one vector, row after row, and stores the item at index
    [r * columnCount + c] when that index is inside the vector.  For a column
    of the table this is the cell [(r, c)] of an existing row.  A column
    beyond the last one lands in a later row, and for the last row outside
    the vector, where nothing is stored. *)
Definition setItem (r c : nat) (s : string) (t : QTableWidget) : QTableWidget :=
  let i := (r * columnCount t + c)%nat in
  if decide (i < rowCount t * columnCount t)%nat
  then set_trows (alter (set_cell (i mod columnCount t)%nat s) (i / columnCount t)%nat) t
  else t.

(** The cell [(r, c)] is stored where [setItem] looks for it: [c] is a
    column of the table, or [r] is the last row or beyond. *)
Definition own_cell (r c : nat) (t : QTableWidget) : Prop :=
  (c < columnCount t)%nat ∨ (rowCount t ≤ S r)%nat.

(** [item(r, c)]: [None] outside the table and where no item was set. *)
Definition item (r c : nat) (t : QTableWidget) : option string :=
  if decide (c < columnCount t)%nat then w ← trows t !! r; cells w !! c else None.

(** [item(r, c).setText(s)] for an item that exists. *)
Definition setText (r c : nat) (s : string) (t : QTableWidget) : QTableWidget :=
  set_trows (alter (set_cell c s) r) t.

(** [setCellWidget(r, c, b)]: nothing happens for an index outside the
    table. *)
Definition setCellWidget (r c : nat) (b : QProgressBar) (t : QTableWidget) : QTableWidget :=
  if decide (c < columnCount t)%nat
  then set_trows (alter (set_cellw c b) r) t
  else t.

Definition cellWidget (r c : nat) (t : QTableWidget) : option QProgressBar :=
  if decide (c < columnCount t)%nat then w ← trows t !! r; cellws w !! c else None.

(** Every item and widget of the table is in one of its columns. *)
Definition row_wf (n : nat) (w : trow) : Prop :=
  (∀ c, is_Some (cells w !! c) → (c < n)%nat) ∧ (∀ c, is_Some (cellws w !! c) → (c < n)%nat).

Definition table_wf (t : QTableWidget) : Prop := Forall (row_wf (columnCount t)) (trows t).

(** ** Combo boxes *)

(** [setCurrentIndex(i)] on a combo box of [n] items: an index outside the
    items leaves no current item, which is index [-1]. *)
Definition setCurrentIndex (n : nat) (i : Z) : Z :=
  if (0 <=? i) && (i <? Z.of_nat n) then i else -1.

(** * Lemmas *)

Section monad.
Context {S : Type}.
Implicit Types (s : S).

Lemma eff_bind_ret {A B} (x : A) (f : A → eff S B) s : (mret x ≫= f) s = f x s.
Proof. done. Qed.

Lemma eff_ret_bind {A} (m : eff S A) s : (m ≫= mret) s = m s.
Proof. unfold mbind, eff_bind. by destruct (m s) as [s' [e|x]]. Qed.

Lemma eff_bind_assoc {A B C} (m : eff S A) (f : A → eff S B) (g : B → eff S C) s :
  ((m ≫= f) ≫= g) s = (m ≫= λ x, f x ≫= g) s.
Proof. unfold mbind, eff_bind. by destruct (m s) as [s' [e|x]]. Qed.

Lemma eff_bind_raise {A B} e (f : A → eff S B) s : (raise e ≫= f) s = (s, inl e).
Proof. done. Qed.

Lemma eff_bind_modify {B} (h : S → S) (f : () → eff S B) s : (modify h ≫= f) s = f () (h s).
Proof. done. Qed.

Lemma eff_bind_gets {A B} (h : S → A) (f : A → eff S B) s : (gets h ≫= f) s = f (h s) s.
Proof. done. Qed.

Lemma eff_bind_when_false {B} (m : eff S ()) (f : () → eff S B) s :
  (when false m ≫= f) s = f () s.
Proof. done. Qed.

Lemma eff_seq {A B} (a : eff S A) (k : A → eff S B) s s' x :
  a s = (s', inr x) → (a ≫= k) s = k x s'.
Proof. intros H. unfold mbind, eff_bind. by rewrite H. Qed.

Lemma eff_seq_raise {A B} (a : eff S A) (k : A → eff S B) s s' e :
  a s = (s', inl e) → (a ≫= k) s = (s', inl e).
Proof. intros H. unfold mbind, eff_bind. by rewrite H. Qed.
Lemma returns_raises {A} (m : eff S A) s : returns m s = true ↔ raises m s = None.
Proof. unfold returns, raises. by destruct (m s).2. Qed.

End monad.

Section triples.
Context {S : Type}.
Implicit Types (P E : S → Prop) (s : S).

Lemma hoare_ret {A} P (Q : A → S → Prop) E (x : A) : (∀ s, P s → Q x s) → hoare P (mret x) Q E.
Proof. intros H s Hs. by apply H. Qed.

Lemma hoare_raise {A} P (Q : A → S → Prop) E e : (∀ s, P s → E s) → hoare P (raise e) Q E.
Proof. intros H s Hs. by apply H. Qed.

Lemma hoare_bind {A B} P (R : A → S → Prop) (Q : B → S → Prop) E (m : eff S A) (f : A → eff S B) :
  hoare P m R E → (∀ x, hoare (R x) (f x) Q E) → hoare P (m ≫= f) Q E.
Proof.
  intros Hm Hf s Hs. specialize (Hm s Hs). unfold mbind, eff_bind.
  destruct (m s) as [s' [e|x]]; [done|]. by apply Hf.
Qed.

Lemma hoare_get P (Q : S → S → Prop) E : (∀ s, P s → Q s s) → hoare P get Q E.
Proof. intros H s Hs. by apply H. Qed.

Lemma hoare_gets {A} P (Q : A → S → Prop) E (h : S → A) :
  (∀ s, P s → Q (h s) s) → hoare P (gets h) Q E.
Proof. intros H s Hs. by apply H. Qed.

Lemma hoare_modify P (Q : () → S → Prop) E (h : S → S) :
  (∀ s, P s → Q () (h s)) → hoare P (modify h) Q E.
Proof. intros H s Hs. by apply H. Qed.

Lemma hoare_when P (Q : () → S → Prop) E (b : bool) (m : eff S ()) :
  (b = true → hoare P m Q E) → (b = false → ∀ s, P s → Q () s) → hoare P (when b m) Q E.
Proof. destruct b; intros Hm Hs; [by apply Hm|]. intros s Hp. by apply Hs. Qed.

Lemma hoare_attr {A B} P (Q : B → S → Prop) E (x : option A) (k : A → eff S B) :
  (∀ a, x = Some a → hoare P (k a) Q E) → (x = None → ∀ s, P s → E s) →
  hoare P (attr x k) Q E.
Proof. destruct x as [a|]; intros Hk Hn; [by apply Hk|]. intros s Hp. by apply Hn. Qed.

Lemma hoare_conseq {A} P P' (Q Q' : A → S → Prop) E E' (m : eff S A) :
  hoare P' m Q' E' → (∀ s, P s → P' s) → (∀ x s, Q' x s → Q x s) → (∀ s, E' s → E s) →
  hoare P m Q E.
Proof.
  intros Hm HP HQ HE s Hs. specialize (Hm s (HP s Hs)).
  destruct (m s) as [s' [e|x]]; auto.
Qed.

(** Binding the current state: the continuation is run from a state that
    is the one bound. *)
Lemma hoare_bind_get {B} P (Q : B → S → Prop) E (f : S → eff S B) :
  (∀ s0, hoare (λ s, P s ∧ s = s0) (f s0) Q E) → hoare P (get ≫= f) Q E.
Proof. intros H s Hs. by apply (H s s). Qed.

Lemma keeps_ret {A} (I : S → Prop) (x : A) : keeps I (mret x).
Proof. by apply hoare_ret. Qed.

Lemma keeps_raise {A} (I : S → Prop) e : keeps I (raise (A:=A) e).
Proof. by apply hoare_raise. Qed.

Lemma keeps_bind {A B} (I : S → Prop) (m : eff S A) (f : A → eff S B) :
  keeps I m → (∀ x, keeps I (f x)) → keeps I (m ≫= f).
Proof. intros Hm Hf. by apply hoare_bind with (R := λ _, I). Qed.

Lemma keeps_get (I : S → Prop) : keeps I get.
Proof. by apply hoare_get. Qed.

Lemma keeps_gets {A} (I : S → Prop) (h : S → A) : keeps I (gets h).
Proof. by apply hoare_gets. Qed.

Lemma keeps_modify (I : S → Prop) (h : S → S) : (∀ s, I s → I (h s)) → keeps I (modify h).
Proof. intros H. by apply hoare_modify. Qed.

Lemma keeps_when (I : S → Prop) (b : bool) (m : eff S ()) : keeps I m → keeps I (when b m).
Proof. intros H. by apply hoare_when. Qed.

Lemma keeps_attr {A B} (I : S → Prop) (x : option A) (k : A → eff S B) :
  (∀ a, x = Some a → keeps I (k a)) → keeps I (attr x k).
Proof. intros H. by apply hoare_attr. Qed.

Lemma keeps_and {A} (I J : S → Prop) (m : eff S A) :
  keeps I m → keeps J m → keeps (λ s, I s ∧ J s) m.
Proof.
  intros HI HJ s [Hi Hj]. specialize (HI s Hi). specialize (HJ s Hj).
  unfold hoare in *. by destruct (m s) as [s' [e|x]].
Qed.

Lemma keeps_exec {A} (I : S → Prop) (m : eff S A) s : keeps I m → I s → I (exec m s).
Proof. intros H Hs. specialize (H s Hs). unfold exec. by destruct (m s) as [s' [e|x]]. Qed.

End triples.

Section frames.
Context {S : Type} (f : S → S).

Lemma blind_ret {A} (x : A) : blind f (mret x).
Proof. done. Qed.

Lemma blind_raise {A} e : blind f (raise (A:=A) e).
Proof. done. Qed.

Lemma blind_bind {A B} (m : eff S A) (k : A → eff S B) :
  blind f m → (∀ x, blind f (k x)) → blind f (m ≫= k).
Proof.
  intros Hm Hk s. unfold mbind, eff_bind. rewrite Hm.
  destruct (m s) as [s' [e|x]]; [done|]. apply Hk.
Qed.

Lemma blind_gets {A} (h : S → A) : (∀ s, h (f s) = h s) → blind f (gets h).
Proof. intros H s. unfold gets. by rewrite H. Qed.

Lemma blind_modify (h : S → S) : (∀ s, h (f s) = f (h s)) → blind f (modify h).
Proof. intros H s. unfold modify. by rewrite H. Qed.

Lemma blind_when (b : bool) (m : eff S ()) : blind f m → blind f (when b m).
Proof. by destruct b. Qed.

Lemma blind_attr {A B} (x : option A) (k : A → eff S B) :
  (∀ a, blind f (k a)) → blind f (attr x k).
Proof. intros H. destruct x; [apply H|apply blind_raise]. Qed.

(** A computation that reads the state and goes on the same way after
    [f]. *)
Lemma blind_bind_get {B} (k : S → eff S B) :
  (∀ s, k (f s) = k s) → (∀ s0, blind f (k s0)) → blind f (get ≫= k).
Proof. intros Hk Hb s. unfold mbind, eff_bind, get. rewrite Hk. apply Hb. Qed.

Lemma blind_exec {A} (m : eff S A) s : blind f m → exec m (f s) = f (exec m s).
Proof. intros H. unfold exec. by rewrite H. Qed.

End frames.

Section bars.
Implicit Types (b : QProgressBar) (v : Z).

Lemma setValue_in_range v b :
  minimum b ≤ v ≤ maximum b → value (setValue v b) = v.
Proof.
  intros H. unfold setValue.
  rewrite (proj2 (Z.ltb_ge (maximum b) v)), (proj2 (Z.ltb_ge v (minimum b))) by lia. done.
Qed.

Lemma setValue_out_of_range v b :
  minimum b < maximum b → v < minimum b ∨ maximum b < v → setValue v b = b.
Proof.
  intros Hr H. unfold setValue.
  assert ((maximum b <? v) || (v <? minimum b) = true) as ->.
  { apply orb_true_iff. destruct H; [right|left]; by apply Z.ltb_lt. }
  assert (negb ((maximum b =? 0) && (minimum b =? 0)) = true) as ->; [|done].
  apply negb_true_iff, andb_false_iff.
  destruct (Z.eqb_spec (maximum b) 0), (Z.eqb_spec (minimum b) 0); auto; lia.
Qed.

Lemma setValue_range v b :
  minimum (setValue v b) = minimum b ∧ maximum (setValue v b) = maximum b.
Proof. unfold setValue. by case_bool. Qed.

(** On a bar with the default range the value stays within 0..100 once it
    is. *)
Lemma setValue_bounds v b :
  minimum b = 0 → maximum b = 100 → 0 ≤ value b ≤ 100 → 0 ≤ value (setValue v b) ≤ 100.
Proof.
  intros Hm HM Hv. destruct (decide (0 ≤ v ≤ 100)).
  - rewrite setValue_in_range; lia.
  - rewrite setValue_out_of_range; lia.
Qed.

End bars.

Section tables.
Implicit Types (t : QTableWidget) (w : trow) (r c : nat) (s : string) (b : QProgressBar).

Lemma columnCount_insertRow r t : columnCount (insertRow r t) = columnCount t.
Proof. unfold insertRow. by case_decide. Qed.

Lemma columnCount_setItem r c s t : columnCount (setItem r c s t) = columnCount t.
Proof. unfold setItem. cbv zeta. by case_decide. Qed.

Lemma columnCount_setHeader l t : columnCount (setHorizontalHeaderLabels l t) = columnCount t.
Proof. done. Qed.

Lemma rowCount_setHeader l t : rowCount (setHorizontalHeaderLabels l t) = rowCount t.
Proof. done. Qed.

Lemma columnCount_setCellWidget r c b t : columnCount (setCellWidget r c b t) = columnCount t.
Proof. unfold setCellWidget. by case_decide. Qed.

Lemma rowCount_insertRow r t :
  (r ≤ rowCount t)%nat → rowCount (insertRow r t) = Datatypes.S (rowCount t).
Proof.
  intros H. unfold insertRow, rowCount in *. rewrite decide_True by done. simpl.
  rewrite length_app, length_take. simpl. rewrite length_drop. lia.
Qed.

Lemma rowCount_setItem r c s t : rowCount (setItem r c s t) = rowCount t.
Proof. unfold setItem, rowCount. cbv zeta. case_decide; [|done]. simpl. by rewrite length_alter. Qed.

Lemma alter_beyond {A} (f : A → A) (l : list A) i : (length l ≤ i)%nat → alter f i l = l.
Proof.
  intros H. apply list_eq. intros j. destruct (decide (i = j)) as [<-|Hne].
  - by rewrite list_lookup_alter_eq, lookup_ge_None_2.
  - by rewrite list_lookup_alter_ne.
Qed.

(** On a cell of its own [setItem] changes the row [r] at column [c], if the
    table has them. *)
Lemma setItem_own r c s t :
  own_cell r c t →
  setItem r c s t =
    if decide (c < columnCount t)%nat then set_trows (alter (set_cell c s) r) t else t.
Proof.
  intros Ho. unfold setItem, own_cell, rowCount in *. cbv zeta. set (n := columnCount t) in *.
  destruct (decide (c < n)%nat) as [Hc|Hc].
  - destruct (decide (r * n + c < length (trows t) * n)%nat) as [Hi|Hi].
    + by rewrite <- (Nat.div_unique (r * n + c) n r c), <- (Nat.mod_unique (r * n + c) n r c) by lia.
    + unfold set_trows. rewrite alter_beyond; [by destruct t|].
      apply Nat.nlt_ge. intros Hr. apply Hi.
      pose proof (Nat.mul_le_mono_r _ _ n (proj1 (Nat.le_succ_l _ _) Hr)). lia.
  - destruct Ho as [?|Hr]; [done|]. rewrite decide_False; [done|].
    pose proof (Nat.mul_le_mono_r _ _ n Hr). lia.
Qed.


Lemma rowCount_setText r c s t : rowCount (setText r c s t) = rowCount t.
Proof. unfold setText, rowCount. simpl. by rewrite length_alter. Qed.

Lemma rowCount_setCellWidget r c b t : rowCount (setCellWidget r c b t) = rowCount t.
Proof. unfold setCellWidget, rowCount. case_decide; [|done]. simpl. by rewrite length_alter. Qed.

(** Appending a row keeps the rows before it. *)
Lemma trows_insertRow_last t : trows (insertRow (rowCount t) t) = trows t ++ [empty_row].
Proof.
  unfold insertRow, rowCount. rewrite decide_True by done. simpl.
  by rewrite firstn_all, drop_all.
Qed.

(** Changing the rows by a function that leaves the cell looked up alone. *)
Lemma item_alter (f : trow → trow) r r' c' t :
  (∀ w, cells (f w) !! c' = cells w !! c') ∨ r ≠ r' →
  item r' c' (set_trows (alter f r) t) = item r' c' t.
Proof.
  intros H. unfold item. simpl. case_decide; [|done].
  destruct (decide (r = r')) as [->|Hr]; [|by rewrite list_lookup_alter_ne].
  destruct H as [H|H]; [|done]. rewrite list_lookup_alter_eq.
  destruct (trows t !! r') as [w|]; [apply H|done].
Qed.

Lemma cellWidget_alter (f : trow → trow) r r' c' t :
  (∀ w, cellws (f w) !! c' = cellws w !! c') ∨ r ≠ r' →
  cellWidget r' c' (set_trows (alter f r) t) = cellWidget r' c' t.
Proof.
  intros H. unfold cellWidget. simpl. case_decide; [|done].
  destruct (decide (r = r')) as [->|Hr]; [|by rewrite list_lookup_alter_ne].
  destruct H as [H|H]; [|done]. rewrite list_lookup_alter_eq.
  destruct (trows t !! r') as [w|]; [apply H|done].
Qed.

(** A column the table does not have, on the last row: nothing is stored. *)
Lemma setItem_outside r c s t :
  (columnCount t ≤ c)%nat → (rowCount t ≤ S r)%nat → setItem r c s t = t.
Proof. intros Hc Hr. rewrite setItem_own by by right. by rewrite decide_False by lia. Qed.

(** On an earlier row the item lands in the row below. *)
Lemma setItem_alias r s t :
  (S r < rowCount t)%nat → (0 < columnCount t)%nat →
  setItem r (columnCount t) s t = set_trows (alter (set_cell 0 s) (S r)) t.
Proof.
  intros Hr Hc. unfold setItem. cbv zeta. set (n := columnCount t) in *.
  rewrite decide_True by nia.
  by rewrite <- (Nat.div_unique (r * n + n) n (S r) 0), <- (Nat.mod_unique (r * n + n) n (S r) 0) by lia.
Qed.

Lemma item_outside r c t : (columnCount t ≤ c)%nat → item r c t = None.
Proof. intros H. unfold item. case_decide; [lia|done]. Qed.

Lemma item_beyond r c t : (rowCount t ≤ r)%nat → item r c t = None.
Proof.
  intros H. unfold item. case_decide; [|done]. by rewrite lookup_ge_None_2.
Qed.

Lemma item_setItem r c s t :
  (r < rowCount t)%nat → (c < columnCount t)%nat → item r c (setItem r c s t) = Some s.
Proof.
  intros Hr Hc. unfold item. rewrite columnCount_setItem, decide_True by done.
  rewrite setItem_own by by left. unfold rowCount in *. rewrite decide_True by done. simpl.
  destruct (lookup_lt_is_Some_2 (trows t) r Hr) as [w Hw].
  rewrite list_lookup_alter_eq, Hw. simpl. by rewrite lookup_insert_eq.
Qed.

Lemma item_setItem_ne r c r' c' s t :
  own_cell r c t → (r, c) ≠ (r', c') → item r' c' (setItem r c s t) = item r' c' t.
Proof.
  intros Ho Hne. rewrite setItem_own by done. case_decide; [|done]. apply item_alter.
  destruct (decide (r = r')) as [->|]; [left|by right].
  intros w. simpl. rewrite lookup_insert_ne; [done|congruence].
Qed.

Lemma item_setText r c s t :
  (r < rowCount t)%nat → (c < columnCount t)%nat → item r c (setText r c s t) = Some s.
Proof.
  intros Hr Hc. unfold item, setText, rowCount in *. simpl. rewrite decide_True by done.
  destruct (lookup_lt_is_Some_2 (trows t) r Hr) as [w Hw].
  rewrite list_lookup_alter_eq, Hw. simpl. by rewrite lookup_insert_eq.
Qed.

Lemma item_setText_ne r c r' c' s t :
  (r, c) ≠ (r', c') → item r' c' (setText r c s t) = item r' c' t.
Proof.
  intros Hne. unfold setText. apply item_alter.
  destruct (decide (r = r')) as [->|]; [left|by right].
  intros w. simpl. rewrite lookup_insert_ne; [done|congruence].
Qed.

Lemma item_setCellWidget r c r' c' b t : item r' c' (setCellWidget r c b t) = item r' c' t.
Proof. unfold setCellWidget. case_decide; [|done]. apply item_alter. by left. Qed.

Lemma cellWidget_outside r c t : (columnCount t ≤ c)%nat → cellWidget r c t = None.
Proof. intros H. unfold cellWidget. case_decide; [lia|done]. Qed.

Lemma cellWidget_setCellWidget r c b t :
  (r < rowCount t)%nat → (c < columnCount t)%nat →
  cellWidget r c (setCellWidget r c b t) = Some b.
Proof.
  intros Hr Hc. unfold cellWidget. rewrite columnCount_setCellWidget, decide_True by done.
  unfold setCellWidget, rowCount in *. rewrite decide_True by done. simpl.
  destruct (lookup_lt_is_Some_2 (trows t) r Hr) as [w Hw].
  rewrite list_lookup_alter_eq, Hw. simpl. by rewrite lookup_insert_eq.
Qed.

Lemma cellWidget_setCellWidget_ne r c r' c' b t :
  (r, c) ≠ (r', c') → cellWidget r' c' (setCellWidget r c b t) = cellWidget r' c' t.
Proof.
  intros Hne. unfold setCellWidget. case_decide; [|done]. apply cellWidget_alter.
  destruct (decide (r = r')) as [->|]; [left|by right].
  intros w. simpl. rewrite lookup_insert_ne; [done|congruence].
Qed.

Lemma cellWidget_setItem r c r' c' s t : cellWidget r' c' (setItem r c s t) = cellWidget r' c' t.
Proof. unfold setItem. cbv zeta. case_decide; [|done]. apply cellWidget_alter. by left. Qed.

Lemma cellWidget_setText r c r' c' s t : cellWidget r' c' (setText r c s t) = cellWidget r' c' t.
Proof. unfold setText. apply cellWidget_alter. by left. Qed.

(** A new row has no item and no widget. *)
Lemma item_insertRow_last c t : item (rowCount t) c (insertRow (rowCount t) t) = None.
Proof.
  unfold item. case_decide; [|done]. rewrite trows_insertRow_last.
  unfold rowCount. by rewrite list_lookup_middle.
Qed.

Lemma item_insertRow_before r c t :
  (r < rowCount t)%nat → item r c (insertRow (rowCount t) t) = item r c t.
Proof.
  intros H. unfold item. rewrite columnCount_insertRow, trows_insertRow_last.
  by rewrite lookup_app_l.
Qed.

Lemma cellWidget_insertRow_before r c t :
  (r < rowCount t)%nat → cellWidget r c (insertRow (rowCount t) t) = cellWidget r c t.
Proof.
  intros H. unfold cellWidget. rewrite columnCount_insertRow, trows_insertRow_last.
  by rewrite lookup_app_l.
Qed.

(** The header is set once: no call on the cells changes it. *)
Lemma header_insertRow r c t :
  horizontalHeaderItem c (insertRow r t) = horizontalHeaderItem c t.
Proof. unfold insertRow. by case_decide. Qed.

Lemma header_setItem r c' s c t :
  horizontalHeaderItem c (setItem r c' s t) = horizontalHeaderItem c t.
Proof. unfold setItem. cbv zeta. by case_decide. Qed.

Lemma header_setText r c' s c t :
  horizontalHeaderItem c (setText r c' s t) = horizontalHeaderItem c t.
Proof. done. Qed.

Lemma header_setCellWidget r c' b c t :
  horizontalHeaderItem c (setCellWidget r c' b t) = horizontalHeaderItem c t.
Proof. unfold setCellWidget. by case_decide. Qed.

(** The header of a new table after [setHorizontalHeaderLabels]: one label
    per column, the labels beyond the columns dropped. *)
Lemma header_new n (labels : list string) c :
  horizontalHeaderItem c (setHorizontalHeaderLabels labels (new_table n)) = take n labels !! c.
Proof.
  unfold horizontalHeaderItem. simpl. case_decide as Hc.
  - by rewrite (right_id ∅ (∪)), lookup_map_seq_0.
  - symmetry. apply lookup_ge_None_2. rewrite length_take. lia.
Qed.

End tables.

Section combos.

Lemma setCurrentIndex_valid n i : 0 ≤ i < Z.of_nat n → setCurrentIndex n i = i.
Proof.
  intros H. unfold setCurrentIndex.
  by rewrite (proj2 (Z.leb_le 0 i)), (proj2 (Z.ltb_lt i (Z.of_nat n))) by lia.
Qed.

(** The index of a combo box, [-1] included, is kept. *)
Lemma setCurrentIndex_fixed n i : -1 ≤ i < Z.of_nat n → setCurrentIndex n i = i.
Proof.
  intros H. destruct (decide (i = -1)) as [->|Hi]; [done|].
  apply setCurrentIndex_valid. lia.
Qed.

Lemma setCurrentIndex_range n i : -1 ≤ setCurrentIndex n i < Z.of_nat n.
Proof.
  unfold setCurrentIndex.
  destruct (Z.leb_spec 0 i), (Z.ltb_spec i (Z.of_nat n)); simpl; lia.
Qed.

Lemma setCurrentIndex_idemp n i : setCurrentIndex n (setCurrentIndex n i) = setCurrentIndex n i.
Proof.
  destruct (decide (0 ≤ i < Z.of_nat n)) as [H|H].
  - by rewrite !(setCurrentIndex_valid n i H).
  - assert (setCurrentIndex n i = -1) as ->; [|done].
    unfold setCurrentIndex.
    destruct (Z.leb_spec 0 i), (Z.ltb_spec i (Z.of_nat n)); simpl; done || lia.
Qed.

End combos.

#[export] Hint Resolve keeps_ret keeps_raise keeps_get keeps_gets keeps_when : ytdl.

#[export] Hint Rewrite columnCount_insertRow columnCount_setItem columnCount_setCellWidget
  rowCount_setItem rowCount_setText rowCount_setCellWidget
  item_setCellWidget cellWidget_setItem cellWidget_setText : ytdl.
