(* ===== verification/MainWindow.v ===== *)
(** * The main window: class [Main] (src/main.py 87-226)

    The window owns the queue table, the options panel, the two buttons, the
    settings store and the worker.  Its handlers run in the GUI thread; each
    is a computation of the monad [eff state] of [Widgets]: it changes the
    widgets step by step and may be left by an exception, in which case the
    changes made so far stay.  What a handler reads from outside the window
    (the clock, the file system, the search path) is an argument.

    The table is created with four columns (line 110) while the handlers use
    column 4, the fifth, for the status: the theorems of this file say what
    the handlers do on the table as created.  The lemmas on the invariant
    are stated for a table of [n] columns, [n] at least 4, and used at 4. *)

From S2P Require Import Prelude PyValue Format Options Hook Worker Widgets.

Local Open Scope Z_scope.

Module Main.

(** ** The state of the window *)

(** The worker object and whether its thread runs ([isRunning()]). *)
Record wthread : Type := Thread { obj : DLWorker; isRunning : bool }.

(** The attributes of [Main] set by [__init__] and [_build_ui]; a combo box
    is its current index, a button is whether it is enabled.  [warnings]
    holds the texts of the message boxes shown so far, the last one first. *)
Record state : Type := State {
  settings : gmap string pyval;
  worker : option wthread;
  url_input : string;
  table : QTableWidget;
  out_dir : string;
  max_res : Z;
  format_combo : Z;
  btn_start : bool;
  btn_stop : bool;
  warnings : list string
}.

Definition set_settings (f : gmap string pyval → gmap string pyval) (m : state) : state :=
  State (f (settings m)) (worker m) (url_input m) (table m) (out_dir m) (max_res m)
        (format_combo m) (btn_start m) (btn_stop m) (warnings m).
Definition set_worker (w : option wthread) (m : state) : state :=
  State (settings m) w (url_input m) (table m) (out_dir m) (max_res m)
        (format_combo m) (btn_start m) (btn_stop m) (warnings m).
Definition set_url_input (s : string) (m : state) : state :=
  State (settings m) (worker m) s (table m) (out_dir m) (max_res m)
        (format_combo m) (btn_start m) (btn_stop m) (warnings m).
Definition set_table (f : QTableWidget → QTableWidget) (m : state) : state :=
  State (settings m) (worker m) (url_input m) (f (table m)) (out_dir m) (max_res m)
        (format_combo m) (btn_start m) (btn_stop m) (warnings m).
Definition set_out_dir (s : string) (m : state) : state :=
  State (settings m) (worker m) (url_input m) (table m) s (max_res m)
        (format_combo m) (btn_start m) (btn_stop m) (warnings m).
Definition set_max_res (i : Z) (m : state) : state :=
  State (settings m) (worker m) (url_input m) (table m) (out_dir m) i
        (format_combo m) (btn_start m) (btn_stop m) (warnings m).
Definition set_format_combo (i : Z) (m : state) : state :=
  State (settings m) (worker m) (url_input m) (table m) (out_dir m) (max_res m)
        i (btn_start m) (btn_stop m) (warnings m).
Definition set_buttons (start stop : bool) (m : state) : state :=
  State (settings m) (worker m) (url_input m) (table m) (out_dir m) (max_res m)
        (format_combo m) start stop (warnings m).

Definition add_warning (text : string) (m : state) : state :=
  State (settings m) (worker m) (url_input m) (table m) (out_dir m) (max_res m)
        (format_combo m) (btn_start m) (btn_stop m) (text :: warnings m).

(** What [_start] and [_add_url] read from outside the window. *)
Record os_env : Type := OsEnv {
  now : string;                       (** [datetime.now().strftime(...)] *)
  mkdir : string → option exn;        (** [outdir.mkdir(...)]: the exception, if any *)
  path_join : string → string → string;  (** [str(Path(a) / b)] *)
  which : string → option string      (** [shutil.which] *)
}.

(** [has_ffmpeg], lines 17-18. *)
Definition has_ffmpeg (os : os_env) : bool :=
  bool_decide (which os "ffmpeg" ≠ None).

(** ** Construction *)

(** The labels of line 111. *)
Definition header_labels : list string := ["URL"; "Title"; "Date Added"; "Progress"; "Status"].

(** [_build_ui], lines 102-132, from the store [__init__] opened and the
    working directory's [downloads] folder; the widgets the handlers read or
    write, in the order the method creates them.  The layouts, the
    placeholder, the object names and the connections (which [handle]
    carries) leave these attributes alone. *)
Definition _build_ui (store : gmap string pyval) (cwd_downloads : string) : state :=
  let url_input := "" in                                  (* 102: QLineEdit() *)
  let table := new_table 4 in                             (* 110: QTableWidget(0, 4) *)
  let table := setHorizontalHeaderLabels header_labels table in   (* 111 *)
  let out_dir := cwd_downloads in                         (* 118: QLineEdit(str(cwd / "downloads")) *)
  let max_res := if max_res_items is [] then -1 else 0 in         (* 122: addItems on an empty box *)
  let format_combo := if format_items is [] then -1 else 0 in     (* 123 *)
  let btn_start := true in                                (* 131: a new button is enabled *)
  let btn_stop := false in                                (* 132: setEnabled(False) *)
  {| settings := store; worker := None; url_input := url_input; table := table;
     out_dir := out_dir; max_res := max_res; format_combo := format_combo;
     btn_start := btn_start; btn_stop := btn_stop; warnings := [] |}.

(** [int(v)] for a stored setting. *)
Definition int_of (v : pyval) : eff state Z :=
  match v with
  | PInt z => mret z
  | PBool b => mret (Z.b2z b)
  | PFloat q => mret (Qtrunc q)
  | PStr s => match int_of_str s with Some z => mret z | None => raise ValueError end
  | PNone => raise TypeError
  end.

(** [widget.setText(v)]: the text must be a string. *)
Definition text_of (v : pyval) : eff state string :=
  match v with PStr s => mret s | _ => raise TypeError end.

(** An [int] passed to Qt must fit a C [int]. *)
Definition to_c_int (z : Z) : eff state Z :=
  if c_int z then mret z else raise OverflowError.

(** [self.settings.value(key, default)]. *)
Definition settings_value (key : string) (dflt : pyval) : eff state pyval :=
  gets (λ m, default dflt (settings m !! key)).

(** [_restore], lines 217-220. *)
Definition _restore : eff state () :=
  m ← get;
  v ← settings_value "out_dir" (PStr (out_dir m));
  s ← text_of v;
  modify (set_out_dir s);;
  v ← settings_value "max_res" (PInt 0);
  i ← int_of v; i ← to_c_int i;
  modify (set_max_res (setCurrentIndex (length max_res_items) i));;
  v ← settings_value "fmt" (PInt 0);
  i ← int_of v; i ← to_c_int i;
  modify (set_format_combo (setCurrentIndex (length format_items) i)).

(** [__init__], lines 88-95: the window after construction. *)
Definition __init__ (store : gmap string pyval) (cwd_downloads : string) : state * (exn + ()) :=
  _restore (_build_ui store cwd_downloads).

(** ** The queue *)

(** [_add_url], lines 136-151; the calls on the header that follow (lines
    153-159) are layout and left out. *)
Definition _add_url (os : os_env) (url : string) : eff state () :=
  if bool_decide (url = "") then mret () else
  r ← gets (λ m, rowCount (table m));
  modify (set_table (insertRow r));;
  modify (set_table (setItem r 0 url));;
  modify (set_table (setItem r 1 ""));;
  modify (set_table (setItem r 2 (now os)));;
  let progress_bar := setValue 0 new_bar in
  modify (set_table (setCellWidget r 3 progress_bar));;
  modify (set_table (setItem r 4 "Queued"));;
  modify (set_url_input "").

(** The [Add] button, line 106. *)
Definition btn_add_clicked (os : os_env) : eff state () :=
  m ← get; _add_url os (strip (url_input m)).

(** [_choose_outdir], lines 161-163; [d] is what the folder dialog
    returned, empty when it was cancelled. *)
Definition _choose_outdir (d : string) : eff state () :=
  if bool_decide (d = "") then mret () else modify (set_out_dir d).

(** ** Starting and stopping *)

(** The text of the message box of line 195. *)
Definition ffmpeg_warning : string := "FFmpeg not found on PATH. Install it or merges may fail.".

(** [self.worker and self.worker.isRunning()]. *)
Definition worker_running (m : state) : bool :=
  match worker m with Some w => isRunning w | None => false end.

(** The comprehension of line 189: the text of column 0 of every row. *)
Definition table_rows (t : QTableWidget) : eff state (list dict) :=
  λ m, match mapM (λ r, item r 0 t) (seq 0 (rowCount t)) with
       | Some urls => (m, inr (url_row <$> urls))
       | None => (m, inl AttributeError)
       end.

(** [_start], lines 165-196. *)
Definition _start (os : os_env) : eff state () :=
  m ← get;
  if bool_decide (rowCount (table m) = 0%nat) then mret () else
  if worker_running m then mret () else
  match mkdir os (out_dir m) with Some e => raise e | None => mret () end;;
  let max_res_text := currentText max_res_items (max_res m) in
  max_res_val ← match max_res_val max_res_text with
                | Some v => mret v | None => raise ValueError end;
  let merge_fmt := merge_fmt (format_combo m) in
  let ydl_opts := make_ydl_opts max_res_val merge_fmt (path_join os (out_dir m) out_template) in
  rows ← table_rows (table m);
  modify (set_worker (Some (Thread (Worker.__init__ rows ydl_opts) false)));;
  modify (set_buttons false true);;
  when (negb (has_ffmpeg os)) (modify (add_warning ffmpeg_warning));;
  modify (set_worker (Some (Thread (Worker.__init__ rows ydl_opts) true))).

(** [_stop], lines 198-200. *)
Definition _stop : eff state () :=
  m ← get;
  match worker m with
  | Some w => when (isRunning w) (modify (set_worker (Some (Thread (stop (obj w)) (isRunning w)))))
  | None => mret ()
  end.

(** The thread has left [run]: [isRunning()] is false from now on. *)
Definition thread_finished (m : state) : state :=
  match worker m with
  | Some w => set_worker (Some (Thread (obj w) false)) m
  | None => m
  end.

(** ** The slots of the worker's signals *)

(** [self.table.item(row, c).setText(v)]. *)
Definition cell_setText (row c : nat) (v : pyval) : eff state () :=
  m ← get;
  attr (item row c (table m)) (λ _, s ← text_of v; modify (set_table (setText row c s))).

(** [progress_bar.setValue(v)] on the widget of a cell: the argument is an
    [int], which a [bool] is. *)
Definition bar_setValue (row c : nat) (b : QProgressBar) (v : pyval) : eff state () :=
  match v with
  | PInt z => z ← to_c_int z; modify (set_table (setCellWidget row c (setValue z b)))
  | PBool x => modify (set_table (setCellWidget row c (setValue (Z.b2z x) b)))
  | _ => raise TypeError
  end.

(** [_on_update], lines 202-211. *)
Definition _on_update (row : nat) (payload : dict) : eff state () :=
  m ← get;
  if bool_decide (rowCount (table m) ≤ row)%nat then mret () else
  when (dict_has payload "title") (cell_setText row 1 (dict_get payload "title"));;
  when (dict_has payload "progress")
    (m ← get;
     match cellWidget row 3 (table m) with
     | Some progress_bar => bar_setValue row 3 progress_bar (dict_get payload "progress")
     | None => mret ()
     end);;
  when (dict_has payload "status") (cell_setText row 4 (dict_get payload "status"));;
  when (truthy (dict_get payload "error")) (cell_setText row 4 (dict_get payload "error")).

(** [_on_done], lines 213-215. *)
Definition _on_done : eff state () := modify (set_buttons true false).

(** ** Closing *)

(** [closeEvent], lines 222-226. *)
Definition closeEvent : eff state () :=
  m ← get;
  modify (set_settings (<["out_dir" := PStr (out_dir m)]>));;
  m ← get;
  modify (set_settings (<["max_res" := PInt (max_res m)]>));;
  m ← get;
  modify (set_settings (<["fmt" := PInt (format_combo m)]>)).

End Main.

Import Main.

(** * What the handlers show, and the invariant of the window *)

(** The table after [_add_url]: the calls of lines 138-150 in order. *)
Definition added (os : os_env) (url : string) (t : QTableWidget) : QTableWidget :=
  let r := rowCount t in
  setItem r 4 "Queued" (setCellWidget r 3 (setValue 0 new_bar)
    (setItem r 2 (now os) (setItem r 1 "" (setItem r 0 url (insertRow r t))))).

(** What each line of [_on_update] shows of a payload. *)
Definition show_title (row : nat) (p : dict) (t : QTableWidget) : QTableWidget :=
  match p !! "title" with Some (PStr s) => setText row 1 s t | _ => t end.

Definition show_progress (row : nat) (p : dict) (t : QTableWidget) : QTableWidget :=
  match p !! "progress", cellWidget row 3 t with
  | Some (PInt z), Some b => setCellWidget row 3 (setValue z b) t
  | _, _ => t
  end.

Definition show_status (row : nat) (p : dict) (t : QTableWidget) : QTableWidget :=
  match p !! "status" with Some (PStr s) => setText row 4 s t | _ => t end.

Definition show_error (row : nat) (p : dict) (t : QTableWidget) : QTableWidget :=
  match p !! "error" with
  | Some (PStr s) => if bool_decide (s = "") then t else setText row 4 s t
  | _ => t
  end.

(** A payload the slot can show: the fields have the types of [payload_wf]
    and the percentage fits a C [int]. *)
Definition payload_ok (p : dict) : Prop :=
  payload_wf p ∧ ∀ z, p !! "progress" = Some (PInt z) → c_int z = true.

(** The URLs of the queue, top to bottom. *)
Definition urls (t : QTableWidget) : list string :=
  (λ r, default "" (item r 0 t)) <$> seq 0 (rowCount t).

(** A progress bar as [_add_url] makes it, at any later value. *)
Definition bar_ok (b : QProgressBar) : Prop :=
  minimum b = 0 ∧ maximum b = 100 ∧ 0 ≤ value b ≤ 100.

(** A row as [_add_url] makes it: items in columns 0 to 2, a bar in column
    3, and an item in column 4 if the table has one. *)
Definition row_ok (t : QTableWidget) (r : nat) : Prop :=
  is_Some (item r 0 t) ∧ is_Some (item r 1 t) ∧ is_Some (item r 2 t) ∧
  (∃ b, cellWidget r 3 t = Some b ∧ bar_ok b) ∧
  ((4 < columnCount t)%nat → is_Some (item r 4 t)).

Definition table_ok (n : nat) (t : QTableWidget) : Prop :=
  columnCount t = n ∧ (4 ≤ n)%nat ∧ ∀ r, (r < rowCount t)%nat → row_ok t r.

(** The invariant of a window whose table has [n] columns. *)
Definition inv (n : nat) (m : state) : Prop :=
  table_ok n (table m) ∧ -1 ≤ max_res m < 5 ∧ -1 ≤ format_combo m < 2.

(** A window whose row [row] can be updated. *)
Definition ready (n row : nat) (m : state) : Prop := inv n m ∧ (row < rowCount (table m))%nat.

(** What [_on_update] shows of a payload on a table with a status column. *)
Definition shown (row : nat) (p : dict) (t : QTableWidget) : QTableWidget :=
  show_error row p (show_status row p (show_progress row p (show_title row p t))).

(** The cap [_start] reads from the panel. *)
Definition cap_of (m : state) : option Z := default None (max_res_choices !! Z.to_nat (max_res m)).

(** The worker [_start] creates from the window. *)
Definition worker_of (os : os_env) (m : state) : DLWorker :=
  Worker.__init__ (url_row <$> urls (table m))
    (make_ydl_opts (cap_of m) (merge_fmt (format_combo m)) (path_join os (out_dir m) out_template)).

(** The window after a start that went through. *)
Definition started (os : os_env) (m : state) : state :=
  set_worker (Some (Thread (worker_of os m) true))
    ((if has_ffmpeg os then id else add_warning ffmpeg_warning) (set_buttons false true m)).

(** The store after [closeEvent]. *)
Definition saved (m : state) : gmap string pyval :=
  <["fmt" := PInt (format_combo m)]>
    (<["max_res" := PInt (max_res m)]> (<["out_dir" := PStr (out_dir m)]> (settings m))).

(** The window after [_restore] read the folder [s] and the indices [i]
    and [j]. *)
Definition restored (s : string) (i j : Z) (m : state) : state :=
  set_format_combo (setCurrentIndex (length format_items) j)
    (set_max_res (setCurrentIndex (length max_res_items) i) (set_out_dir s m)).

(** A value as a store that keeps text (an INI file) returns it: an
    integer comes back as its decimal digits. *)
Definition as_text (v : pyval) : pyval :=
  match v with PInt z => PStr (pretty z) | _ => v end.

(** The store [st'] is [st] read back, each value as it was written or as
    text. *)
Definition read_back (st st' : gmap string pyval) : Prop :=
  ∀ k, st' !! k = st !! k ∨ st' !! k = as_text <$> st !! k.

(** ** Events

    What happens to the window, one handler at a time.  An exception that
    leaves a slot is reported by the event loop and the window stays as the
    slot left it. *)
Inductive event : Type :=
  | EvType (text : string)              (** the user edits the URL line *)
  | EvAdd                               (** the [Add] button *)
  | EvChoose (d : string)               (** the folder dialog returned [d] *)
  | EvSelect (cap fmt : nat)            (** the user picks items of the combo boxes *)
  | EvStart
  | EvStop
  | EvUpdate (row : nat) (payload : dict)   (** [sig_update] delivered *)
  | EvDone                              (** [sig_done] delivered *)
  | EvFinished                          (** the thread left [run] *)
  | EvClose.

Definition select (cap fmt : nat) (m : state) : state :=
  set_format_combo (setCurrentIndex (length format_items) (Z.of_nat fmt))
    (set_max_res (setCurrentIndex (length max_res_items) (Z.of_nat cap)) m).

Definition handle (os : os_env) (ev : event) : eff state () :=
  match ev with
  | EvType text => modify (set_url_input text)
  | EvAdd => btn_add_clicked os
  | EvChoose d => _choose_outdir d
  | EvSelect cap fmt => modify (select cap fmt)
  | EvStart => _start os
  | EvStop => _stop
  | EvUpdate row payload => _on_update row payload
  | EvDone => _on_done
  | EvFinished => modify thread_finished
  | EvClose => closeEvent
  end.

Inductive step : state → state → Prop :=
  | step_event os ev m : step m (exec (handle os ev) m).

(** The windows the program can show: [__init__] returned, then events. *)
Inductive reachable : state → Prop :=
  | reachable_init store cwd m : __init__ store cwd = (m, inr ()) → reachable m
  | reachable_step m m' : reachable m → step m m' → reachable m'.

(** ** Sample windows *)

Definition sample_os : os_env :=
  {| now := "01/02/2026 03:04:05 PM"; mkdir := λ _, None;
     path_join := λ a b, a +:+ "/" +:+ b;
     which := λ cmd, Some ("/usr/bin/" +:+ cmd) |}.

(** The window after the user typed a URL and pressed [Add]. *)
Definition sample_window : state :=
  exec (handle sample_os EvAdd)
    (exec (handle sample_os (EvType " https://youtu.be/a ")) (_build_ui ∅ "downloads")).

(** One step of a proof that a handler keeps an invariant. *)
Ltac keeps_step :=
  match goal with
  | |- keeps _ (mret _) => apply keeps_ret
  | |- keeps _ (raise _) => apply keeps_raise
  | |- keeps _ get => apply keeps_get
  | |- keeps _ (gets _) => apply keeps_gets
  | |- keeps _ (when _ _) => apply keeps_when
  | |- keeps _ (attr _ _) => apply keeps_attr; intros ? ?
  | |- keeps _ (_ ≫= _) => apply keeps_bind; [|intros ?]
  | |- keeps _ (modify _) => apply keeps_modify
  | |- keeps _ (if ?b then _ else _) => destruct b
  | |- keeps _ (match ?x with _ => _ end) => destruct x
  end.

(** The cells [_add_url] writes are on the last row. *)
Ltac own_last :=
  right; autorewrite with ytdl; rewrite ?rowCount_insertRow by lia; lia.

(** ** The table under the handlers' calls *)

Section table_lemmas.
Implicit Types (t : QTableWidget) (r c n : nat) (s : string) (b : QProgressBar).

Lemma item_is_Some_range r c t :
  is_Some (item r c t) → (r < rowCount t)%nat ∧ (c < columnCount t)%nat.
Proof.
  intros H. split; apply Nat.lt_nge; intros Hn.
  - rewrite item_beyond in H by done. by destruct H.
  - rewrite item_outside in H by done. by destruct H.
Qed.

Lemma item_setText_is_Some r c r' c' s t :
  is_Some (item r' c' t) → is_Some (item r' c' (setText r c s t)).
Proof.
  intros H. destruct (decide ((r, c) = (r', c'))) as [[= -> ->]|Hne].
  - destruct (item_is_Some_range _ _ _ H). by rewrite item_setText.
  - by rewrite item_setText_ne.
Qed.

Lemma bar_ok_setValue z b : bar_ok b → bar_ok (setValue z b).
Proof.
  intros (Hm & HM & Hv). destruct (setValue_range z b) as [Hm' HM'].
  unfold bar_ok. rewrite Hm', HM'. repeat split; try done; by apply setValue_bounds.
Qed.

Lemma row_ok_setText r c r' s t : row_ok t r' → row_ok (setText r c s t) r'.
Proof.
  intros (H0 & H1 & H2 & (b & Hb & Hok) & H4). unfold row_ok.
  rewrite cellWidget_setText. repeat split; eauto using item_setText_is_Some.
Qed.

Lemma table_ok_setText n r c s t : table_ok n t → table_ok n (setText r c s t).
Proof.
  intros (Hc & Hn & Hr). split; [done|]. split; [done|]. intros r'. rewrite rowCount_setText.
  intros H. by apply row_ok_setText, Hr.
Qed.

Lemma table_ok_setBar n r b z t :
  cellWidget r 3 t = Some b → table_ok n t → table_ok n (setCellWidget r 3 (setValue z b) t).
Proof.
  intros Hb (Hc & Hn & Hr). split; [by rewrite columnCount_setCellWidget|].
  split; [done|]. intros r'. rewrite rowCount_setCellWidget. intros Hlt.
  destruct (Hr r' Hlt) as (H0 & H1 & H2 & (b' & Hb' & Hok) & H4). unfold row_ok.
  rewrite !item_setCellWidget, columnCount_setCellWidget. repeat split; try done.
  destruct (decide (r = r')) as [->|Hne].
  - rewrite cellWidget_setCellWidget by (done || lia).
    eexists; split; [done|]. apply bar_ok_setValue. congruence.
  - rewrite cellWidget_setCellWidget_ne by congruence. eauto.
Qed.

Lemma rowCount_added os url t : rowCount (added os url t) = Datatypes.S (rowCount t).
Proof.
  unfold added. cbv zeta.
  by rewrite !rowCount_setItem, rowCount_setCellWidget, !rowCount_setItem, rowCount_insertRow.
Qed.

Lemma columnCount_added os url t : columnCount (added os url t) = columnCount t.
Proof. unfold added. by autorewrite with ytdl. Qed.

Lemma item_added_old os url r c t :
  (r < rowCount t)%nat → item r c (added os url t) = item r c t.
Proof.
  intros H. unfold added. cbv zeta.
  rewrite item_setItem_ne, item_setCellWidget, !item_setItem_ne
    by first [own_last|intros [= ? ?]; lia].
  by apply item_insertRow_before.
Qed.

Lemma cellWidget_added_old os url r c t :
  (r < rowCount t)%nat → cellWidget r c (added os url t) = cellWidget r c t.
Proof.
  intros H. unfold added. cbv zeta.
  rewrite cellWidget_setItem, cellWidget_setCellWidget_ne, !cellWidget_setItem
    by (intros [= ? ?]; lia).
  by apply cellWidget_insertRow_before.
Qed.

(** The cells of the new row. *)
Lemma item_added_new os url t :
  (4 ≤ columnCount t)%nat →
  item (rowCount t) 0 (added os url t) = Some url ∧
  item (rowCount t) 1 (added os url t) = Some "" ∧
  item (rowCount t) 2 (added os url t) = Some (now os) ∧
  cellWidget (rowCount t) 3 (added os url t) = Some (Bar 0 100 0).
Proof.
  intros Hc. unfold added. cbv zeta. set (n := rowCount t).
  assert (rowCount (insertRow n t) = Datatypes.S n) as Hn by by apply rowCount_insertRow.
  rewrite !(item_setItem_ne _ 4), !item_setCellWidget, cellWidget_setItem
    by first [own_last|intros [= ? ?]; lia].
  rewrite !(item_setItem_ne _ 2 _ 0), !(item_setItem_ne _ 2 _ 1), !(item_setItem_ne _ 1 _ 0)
    by first [own_last|intros [= ? ?]; lia].
  rewrite !item_setItem, cellWidget_setCellWidget;
    autorewrite with ytdl; rewrite ?Hn; done || lia.
Qed.

(** The status cell of the new row exists when the table has a fifth
    column, and only then. *)
Lemma item_added_status os url t :
  item (rowCount t) 4 (added os url t) =
    if decide (4 < columnCount t)%nat then Some "Queued" else None.
Proof.
  case_decide as Hc.
  - unfold added. cbv zeta. rewrite item_setItem; autorewrite with ytdl; [done| |done].
    rewrite rowCount_insertRow; lia.
  - apply item_outside. rewrite columnCount_added. lia.
Qed.

Lemma table_ok_added n os url t : table_ok n t → table_ok n (added os url t).
Proof.
  intros (Hc & Hn & Hr). split; [by rewrite columnCount_added|]. split; [done|].
  intros r. rewrite rowCount_added. intros Hlt.
  destruct (decide (r = rowCount t)) as [->|Hne].
  - destruct (item_added_new os url t) as (H0 & H1 & H2 & H3); [lia|]. unfold row_ok.
    rewrite H0, H1, H2, H3, item_added_status, columnCount_added.
    repeat split; eauto; [by exists (Bar 0 100 0)|]. intros H4. by rewrite decide_True.
  - assert (r < rowCount t)%nat as Hr' by lia. unfold row_ok.
    rewrite !item_added_old, cellWidget_added_old, columnCount_added by done. by apply Hr.
Qed.

(** The comprehension of [_start] finds a URL in every row. *)
Lemma mapM_urls n t : table_ok n t → mapM (λ r, item r 0 t) (seq 0 (rowCount t)) = Some (urls t).
Proof.
  intros (_ & _ & Hr). apply mapM_Some_2. unfold urls. apply Forall2_fmap_r, Forall_Forall2_diag.
  apply Forall_forall. intros r [_ Hlt]%elem_of_seq.
  destruct (Hr r Hlt) as ([u Hu] & _). simpl. by rewrite Hu.
Qed.

Lemma length_urls t : length (urls t) = rowCount t.
Proof. unfold urls. by rewrite length_fmap, length_seq. Qed.

End table_lemmas.

(** ** Every handler keeps the invariant *)

Section invariant.
Context (n : nat).
Implicit Types (m : state) (os : os_env).

Lemma set_table_id m : set_table (λ t, t) m = m.
Proof. by destruct m. Qed.

Lemma add_url_empty os m : _add_url os "" m = (m, inr ()).
Proof. done. Qed.

(** [Add] on a line that is empty or blank adds nothing, and on a line
    without white space adds the line as it is. *)
Lemma add_clicked_blank os m :
  all_chars isspace (url_input m) = true → btn_add_clicked os m = (m, inr ()).
Proof.
  intros H. unfold btn_add_clicked, mbind, eff_bind, get. by rewrite (strip_blank _ H).
Qed.

Lemma add_clicked_plain os m :
  no_space (url_input m) = true → btn_add_clicked os m = _add_url os (url_input m) m.
Proof.
  intros H. unfold btn_add_clicked, mbind, eff_bind, get. by rewrite (strip_no_space _ H).
Qed.

Lemma set_table_set_table f g m : set_table g (set_table f m) = set_table (λ t, g (f t)) m.
Proof. reflexivity. Qed.

Lemma add_url_run os url m :
  url ≠ "" → _add_url os url m = (set_url_input "" (set_table (added os url) m), inr ()).
Proof.
  intros H. unfold _add_url. rewrite bool_decide_eq_false_2 by done.
  rewrite eff_bind_gets, !eff_bind_modify. unfold modify.
  rewrite !set_table_set_table. reflexivity.
Qed.

Lemma inv_set_table f m : inv n m → table_ok n (f (table m)) → inv n (set_table f m).
Proof. by intros (_ & ? & ?) ?. Qed.

Lemma keeps_text_of (I : state → Prop) v : keeps I (text_of v).
Proof. unfold text_of. repeat keeps_step. Qed.

Lemma keeps_to_c_int (I : state → Prop) z : keeps I (to_c_int z).
Proof. unfold to_c_int. repeat keeps_step. Qed.

Lemma keeps_int_of (I : state → Prop) v : keeps I (int_of v).
Proof. unfold int_of. repeat keeps_step. Qed.

Lemma keeps_table_rows (I : state → Prop) t : keeps I (table_rows t).
Proof. intros m Hm. unfold table_rows. by destruct (mapM _ _). Qed.

Lemma keeps_add_url os url : keeps (inv n) (_add_url os url).
Proof.
  intros m Hm. destruct (decide (url = "")) as [->|Hne]; [done|].
  rewrite add_url_run by done. destruct Hm as (Ht & ? & ?).
  split; [by apply table_ok_added|done].
Qed.

Lemma keeps_cell_setText row c v : keeps (inv n) (cell_setText row c v).
Proof.
  unfold cell_setText. repeat keeps_step; auto using keeps_text_of.
  intros m Hm. by apply inv_set_table, table_ok_setText, Hm.
Qed.

Lemma keeps_progress row v :
  keeps (inv n) (m ← get;
                 match cellWidget row 3 (table m) with
                 | Some progress_bar => bar_setValue row 3 progress_bar v
                 | None => mret ()
                 end).
Proof.
  apply hoare_bind_get. intros m0.
  destruct (cellWidget row 3 (table m0)) as [b|] eqn:Hb; [|by intros m [Hm _]].
  unfold bar_setValue, to_c_int.
  destruct v; repeat case_match; try (by intros m [Hm _]);
    intros m [Hm ->]; by apply inv_set_table, table_ok_setBar, Hm.
Qed.

Lemma keeps_on_update row payload : keeps (inv n) (_on_update row payload).
Proof.
  unfold _on_update.
  repeat (keeps_step; auto using keeps_cell_setText, keeps_progress with ytdl).
Qed.

Lemma keeps_start os : keeps (inv n) (_start os).
Proof. unfold _start. repeat (keeps_step; auto using keeps_table_rows with ytdl). Qed.

Lemma keeps_stop : keeps (inv n) _stop.
Proof. unfold _stop. repeat (keeps_step; auto with ytdl). Qed.

Lemma keeps_restore : keeps (inv n) _restore.
Proof.
  unfold _restore, settings_value.
  repeat (keeps_step; auto using keeps_text_of, keeps_int_of, keeps_to_c_int with ytdl).
  - intros m (Ht & _ & Hf). split; [done|]. split; [|done].
    apply (setCurrentIndex_range (length max_res_items)).
  - intros m (Ht & Hr & _). split; [done|]. split; [done|].
    apply (setCurrentIndex_range (length format_items)).
Qed.

Lemma keeps_closeEvent : keeps (inv n) closeEvent.
Proof. unfold closeEvent. repeat (keeps_step; auto with ytdl). Qed.

Lemma inv_select cap fmt m : inv n m → inv n (select cap fmt m).
Proof.
  intros (Ht & _ & _). split; [done|]. split.
  - apply (setCurrentIndex_range (length max_res_items)).
  - apply (setCurrentIndex_range (length format_items)).
Qed.

Lemma inv_thread_finished m : inv n m → inv n (thread_finished m).
Proof. unfold thread_finished. by destruct (worker m). Qed.

Lemma keeps_handle os ev : keeps (inv n) (handle os ev).
Proof.
  destruct ev; simpl.
  - by apply keeps_modify.
  - unfold btn_add_clicked. apply keeps_bind; [apply keeps_get|]. intros m. apply keeps_add_url.
  - unfold _choose_outdir. case_bool; [apply keeps_ret|by apply keeps_modify].
  - apply keeps_modify, inv_select.
  - apply keeps_start.
  - apply keeps_stop.
  - apply keeps_on_update.
  - by apply keeps_modify.
  - apply keeps_modify, inv_thread_finished.
  - apply keeps_closeEvent.
Qed.

End invariant.

Lemma inv_build_ui store cwd : inv 4 (_build_ui store cwd).
Proof.
  split; [|simpl; lia]. split; [done|]. split; [lia|].
  intros r Hr. unfold rowCount in Hr. simpl in Hr. lia.
Qed.

Lemma reachable_inv m : reachable m → inv 4 m.
Proof.
  induction 1 as [store cwd m H|m m' _ IH Hs]; [|destruct Hs as [os ev m]].
  - pose proof (keeps_restore 4 _ (inv_build_ui store cwd)) as Hk.
    unfold __init__ in H. by rewrite H in Hk.
  - by apply (keeps_exec (inv 4)); [apply keeps_handle|].
Qed.

(** ** What [_on_update] shows *)

Section display.
Context (n : nat) (row : nat) (p : dict).
Implicit Types (m : state) (t : QTableWidget).

Lemma set_table_ext f g m : f (table m) = g (table m) → set_table f m = set_table g m.
Proof. intros H. unfold set_table. by rewrite H. Qed.

Lemma payload_wf_str k v :
  payload_wf p → k ≠ "progress" → p !! k = Some v → ∃ s, v = PStr s.
Proof.
  intros Hp Hk Hv. specialize (Hp k v Hv). simpl in Hp.
  destruct v; simpl in Hp; try done; first [by eexists | by apply bool_decide_eq_true in Hp].
Qed.

Lemma payload_wf_int v : payload_wf p → p !! "progress" = Some v → ∃ z, v = PInt z.
Proof.
  intros Hp Hv. specialize (Hp _ v Hv). simpl in Hp.
  destruct v; simpl in Hp; try done; first [by eexists | apply bool_decide_eq_true in Hp; set_solver].
Qed.

Lemma cell_setText_run c s m :
  is_Some (item row c (table m)) →
  cell_setText row c (PStr s) m = (set_table (setText row c s) m, inr ()).
Proof. intros [u Hu]. unfold cell_setText, mbind, eff_bind, get. by rewrite Hu. Qed.

Lemma cell_setText_None c v m :
  item row c (table m) = None → cell_setText row c v m = (m, inl AttributeError).
Proof. intros Hu. unfold cell_setText, mbind, eff_bind, get. by rewrite Hu. Qed.

Lemma ready_set_table f m :
  ready n row m → (∀ t, table_ok n t → table_ok n (f t)) → (∀ t, rowCount (f t) = rowCount t) →
  ready n row (set_table f m).
Proof.
  intros [Hi Hr] Hf Hc. split; [apply inv_set_table; [done|apply Hf, Hi]|].
  simpl. by rewrite Hc.
Qed.

Lemma table_ok_show_title t : table_ok n t → table_ok n (show_title row p t).
Proof. unfold show_title. repeat case_match; auto using table_ok_setText. Qed.

Lemma table_ok_show_status t : table_ok n t → table_ok n (show_status row p t).
Proof. unfold show_status. repeat case_match; auto using table_ok_setText. Qed.

Lemma table_ok_show_error t : table_ok n t → table_ok n (show_error row p t).
Proof. unfold show_error. repeat case_match; auto using table_ok_setText. Qed.

Lemma table_ok_show_progress t : table_ok n t → table_ok n (show_progress row p t).
Proof. unfold show_progress. repeat case_match; auto using table_ok_setBar. Qed.

Lemma rowCount_show_title t : rowCount (show_title row p t) = rowCount t.
Proof. unfold show_title. repeat case_match; by rewrite ?rowCount_setText. Qed.

Lemma rowCount_show_status t : rowCount (show_status row p t) = rowCount t.
Proof. unfold show_status. repeat case_match; by rewrite ?rowCount_setText. Qed.

Lemma rowCount_show_error t : rowCount (show_error row p t) = rowCount t.
Proof. unfold show_error. repeat case_match; by rewrite ?rowCount_setText. Qed.

Lemma rowCount_show_progress t : rowCount (show_progress row p t) = rowCount t.
Proof. unfold show_progress. repeat case_match; by rewrite ?rowCount_setCellWidget. Qed.

End display.

Section update_phases.
Context (n : nat) (row : nat) (p : dict).
Implicit Types (m : state) (t : QTableWidget).

Lemma dict_has_lookup (d : dict) k : dict_has d k = bool_decide (is_Some (d !! k)).
Proof. done. Qed.

Lemma skip_phase f (c : eff state ()) m :
  f (table m) = table m → when false c m = (set_table f m, inr ()).
Proof. intros H. destruct m. simpl in *. unfold set_table. simpl. by rewrite H. Qed.

Lemma title_phase m :
  ready n row m → payload_wf p →
  when (dict_has p "title") (cell_setText row 1 (dict_get p "title")) m =
    (set_table (show_title row p) m, inr ()).
Proof.
  intros [(Ht & _) Hr] Hp. unfold dict_has, dict_get.
  destruct (p !! "title") as [v|] eqn:E.
  - simpl. destruct (payload_wf_str p "title" v) as [s ->]; [done..|].
    rewrite cell_setText_run by apply Ht, Hr.
    f_equal. apply set_table_ext. unfold show_title. by rewrite E.
  - apply skip_phase. unfold show_title. by rewrite E.
Qed.

Lemma progress_phase m :
  ready n row m → payload_ok p →
  when (dict_has p "progress")
    (m ← get;
     match cellWidget row 3 (table m) with
     | Some progress_bar => bar_setValue row 3 progress_bar (dict_get p "progress")
     | None => mret ()
     end) m = (set_table (show_progress row p) m, inr ()).
Proof.
  intros [(Ht & _) Hr] [Hp Hc]. unfold dict_has, dict_get.
  destruct (p !! "progress") as [v|] eqn:E.
  - simpl. destruct (payload_wf_int p v) as [z ->]; [done..|].
    destruct Ht as (_ & _ & Hrow). destruct (Hrow row Hr) as (_ & _ & _ & (b & Hb & _) & _).
    unfold mbind, eff_bind, get. rewrite Hb. simpl. unfold to_c_int. rewrite (Hc z) by done.
    rewrite eff_bind_ret. unfold modify. f_equal. apply set_table_ext. unfold show_progress. by rewrite E, Hb.
  - apply skip_phase. unfold show_progress. by rewrite E.
Qed.

Lemma status_phase m :
  ready n row m → (4 < n)%nat → payload_wf p →
  when (dict_has p "status") (cell_setText row 4 (dict_get p "status")) m =
    (set_table (show_status row p) m, inr ()).
Proof.
  intros [(Ht & _) Hr] Hn Hp. unfold dict_has, dict_get.
  destruct (p !! "status") as [v|] eqn:E.
  - simpl. destruct (payload_wf_str p "status" v) as [s ->]; [done..|].
    destruct Ht as (Hc & _ & Hrow). destruct (Hrow row Hr) as (_ & _ & _ & _ & H4).
    rewrite cell_setText_run by (apply H4; lia).
    f_equal. apply set_table_ext. unfold show_status. by rewrite E.
  - apply skip_phase. unfold show_status. by rewrite E.
Qed.

Lemma error_phase m :
  ready n row m → (4 < n)%nat → payload_wf p →
  when (truthy (dict_get p "error")) (cell_setText row 4 (dict_get p "error")) m =
    (set_table (show_error row p) m, inr ()).
Proof.
  intros [(Ht & _) Hr] Hn Hp. unfold dict_get.
  destruct (p !! "error") as [v|] eqn:E; [|apply skip_phase; unfold show_error; by rewrite E].
  destruct (payload_wf_str p "error" v) as [s ->]; [done..|]. simpl.
  destruct Ht as (Hc & _ & Hrow). destruct (Hrow row Hr) as (_ & _ & _ & _ & H4).
  destruct (bool_decide (s = "")) eqn:Es; simpl.
  - apply (skip_phase _ (mret ())). unfold show_error. by rewrite E, Es.
  - rewrite cell_setText_run by (apply H4; lia).
    f_equal. apply set_table_ext. unfold show_error. by rewrite E, Es.
Qed.

(** On the table as created the status cell does not exist. *)
Lemma status_phase_lost m v :
  ready 4 row m → cell_setText row 4 v m = (m, inl AttributeError).
Proof.
  intros [((Hc & _) & _) Hr]. apply cell_setText_None, item_outside. lia.
Qed.

End update_phases.

Section update_slot.
Context (n : nat) (row : nat) (p : dict).
Implicit Types (m : state).

Lemma on_update_guard m :
  (row < rowCount (table m))%nat →
  _on_update row p m =
    (when (dict_has p "title") (cell_setText row 1 (dict_get p "title"));;
     when (dict_has p "progress")
       (m ← get;
        match cellWidget row 3 (table m) with
        | Some progress_bar => bar_setValue row 3 progress_bar (dict_get p "progress")
        | None => mret ()
        end);;
     when (dict_has p "status") (cell_setText row 4 (dict_get p "status"));;
     when (truthy (dict_get p "error")) (cell_setText row 4 (dict_get p "error"))) m.
Proof.
  intros H. unfold _on_update. unfold mbind at 1, eff_bind at 1, get at 1.
  rewrite bool_decide_eq_false_2 by lia. done.
Qed.

Lemma ready_show_title m : ready n row m → ready n row (set_table (show_title row p) m).
Proof.
  intros H. apply ready_set_table;
    auto using table_ok_show_title, rowCount_show_title.
Qed.

Lemma ready_show_progress m : ready n row m → ready n row (set_table (show_progress row p) m).
Proof.
  intros H. apply ready_set_table;
    auto using table_ok_show_progress, rowCount_show_progress.
Qed.

Lemma ready_show_status m : ready n row m → ready n row (set_table (show_status row p) m).
Proof.
  intros H. apply ready_set_table;
    auto using table_ok_show_status, rowCount_show_status.
Qed.

Lemma on_update_run m :
  ready n row m → (4 < n)%nat → payload_ok p →
  _on_update row p m = (set_table (shown row p) m, inr ()).
Proof.
  intros Hm Hn Hp. rewrite on_update_guard by apply Hm.
  pose proof (ready_show_title m Hm) as H1.
  pose proof (ready_show_progress _ H1) as H2.
  pose proof (ready_show_status _ H2) as H3.
  erewrite eff_seq by (apply (title_phase n); [done|apply Hp]).
  erewrite eff_seq by (by apply (progress_phase n)).
  erewrite eff_seq by (apply (status_phase n); [done..|apply Hp]).
  rewrite (error_phase n) by (done || apply Hp). done.
Qed.

End update_slot.

Lemma on_update_lost row p m :
  ready 4 row m → payload_ok p → dict_has p "status" = true →
  _on_update row p m =
    (set_table (λ t, show_progress row p (show_title row p t)) m, inl AttributeError).
Proof.
  intros Hm Hp Hs. rewrite on_update_guard by apply Hm.
  pose proof (ready_show_title 4 row p m Hm) as H1.
  pose proof (ready_show_progress 4 row p _ H1) as H2.
  erewrite eff_seq by (apply (title_phase 4); [done|apply Hp]).
  erewrite eff_seq by (by apply (progress_phase 4)).
  rewrite Hs. erewrite eff_seq_raise; [done|]. by apply status_phase_lost.
Qed.

(** ** Starting and stopping *)

Section starting.
Context (n : nat) (os : os_env).
Implicit Types (m : state).

Lemma start_guarded m :
  rowCount (table m) = 0%nat ∨ worker_running m = true → _start os m = (m, inr ()).
Proof.
  intros H. unfold _start, mbind at 1, eff_bind at 1, get at 1.
  destruct (decide (rowCount (table m) = 0%nat)) as [H0|H0].
  - by rewrite bool_decide_eq_true_2.
  - rewrite bool_decide_eq_false_2 by done. destruct H as [H|H]; [done|]. by rewrite H.
Qed.

(** [_start] past its two guards. *)
Lemma start_body m :
  rowCount (table m) ≠ 0%nat → worker_running m = false →
  _start os m =
    (match mkdir os (out_dir m) with Some e => raise e | None => mret () end;;
     max_res_val ← match max_res_val (currentText max_res_items (max_res m)) with
                   | Some v => mret v | None => raise ValueError end;
     rows ← table_rows (table m);
     let ydl_opts := make_ydl_opts max_res_val (merge_fmt (format_combo m))
                       (path_join os (out_dir m) out_template) in
     modify (set_worker (Some (Thread (Worker.__init__ rows ydl_opts) false)));;
     modify (set_buttons false true);;
     when (negb (has_ffmpeg os)) (modify (add_warning ffmpeg_warning));;
     modify (set_worker (Some (Thread (Worker.__init__ rows ydl_opts) true)))) m.
Proof.
  intros H0 Hw. unfold _start, mbind at 1, eff_bind at 1, get at 1.
  by rewrite bool_decide_eq_false_2, Hw.
Qed.

Lemma table_rows_run m m' :
  inv n m → table_rows (table m) m' = (m', inr (url_row <$> urls (table m))).
Proof. intros (Ht & _). unfold table_rows. by rewrite (mapM_urls n). Qed.

Lemma start_run m :
  inv n m → rowCount (table m) ≠ 0%nat → worker_running m = false →
  mkdir os (out_dir m) = None → 0 ≤ max_res m →
  _start os m = (started os m, inr ()).
Proof.
  intros Hm H0 Hw Hd Hi. rewrite start_body, Hd by done.
  rewrite eff_bind_ret, max_res_val_index by (destruct Hm as (_ & ? & _); lia).
  assert (is_Some (max_res_choices !! Z.to_nat (max_res m))) as [cap Hcap].
  { apply lookup_lt_is_Some. destruct Hm as (_ & ? & _). simpl. lia. }
  rewrite Hcap, eff_bind_ret.
  erewrite eff_seq by by apply table_rows_run.
  unfold started, worker_of, cap_of. rewrite Hcap. by destruct (has_ffmpeg os).
Qed.

Lemma start_no_item m :
  rowCount (table m) ≠ 0%nat → worker_running m = false →
  mkdir os (out_dir m) = None → max_res m < 0 ∨ 5 ≤ max_res m →
  _start os m = (m, inl ValueError).
Proof.
  intros H0 Hw Hd Hi. rewrite start_body, Hd by done.
  by rewrite eff_bind_ret, max_res_val_no_item.
Qed.

Lemma start_mkdir_raises m e :
  rowCount (table m) ≠ 0%nat → worker_running m = false →
  mkdir os (out_dir m) = Some e → _start os m = (m, inl e).
Proof. intros H0 Hw Hd. by rewrite start_body, Hd. Qed.

Lemma rows_ok_urls (l : list string) : rows_ok (url_row <$> l).
Proof.
  apply Forall_fmap, Forall_forall. intros u _. simpl. unfold url_row.
  by rewrite lookup_singleton_eq.
Qed.

End starting.

Section stopping.
Implicit Types (m : state).

Lemma stop_running m w :
  worker m = Some w → isRunning w = true →
  _stop m = (set_worker (Some (Thread (stop (obj w)) true)) m, inr ()).
Proof. intros Hw Hr. unfold _stop, mbind, eff_bind, get. by rewrite Hw, Hr. Qed.

Lemma stop_idle m : worker_running m = false → _stop m = (m, inr ()).
Proof.
  unfold worker_running, _stop, mbind, eff_bind, get.
  destruct (worker m) as [w|]; [|done]. by intros ->.
Qed.

End stopping.

(** ** The settings *)

Section settings_store.
Implicit Types (m : state).

Lemma closeEvent_run m : closeEvent m = (set_settings (λ _, saved m) m, inr ()).
Proof. done. Qed.

Lemma c_int_small z : -1 ≤ z < 5 → c_int z = true.
Proof. intros H. unfold c_int. apply andb_true_iff. split; [apply Z.leb_le|apply Z.ltb_lt]; lia. Qed.

(** [int] of a stored integer, kept as such or as text. *)
Lemma int_of_stored z v : v = PInt z ∨ v = as_text (PInt z) → int_of v = mret z.
Proof. intros [->| ->]; [done|]. unfold int_of. simpl. by rewrite int_of_str_pretty. Qed.

Lemma restore_run m s i j :
  default (PStr (out_dir m)) (settings m !! "out_dir") = PStr s →
  int_of (default (PInt 0) (settings m !! "max_res")) = mret i →
  int_of (default (PInt 0) (settings m !! "fmt")) = mret j →
  c_int i = true → c_int j = true →
  _restore m = (restored s i j m, inr ()).
Proof.
  intros Hs Hi Hj Hci Hcj.
  unfold _restore, settings_value, mbind, eff_bind, get, gets, modify, to_c_int.
  rewrite Hs. simpl. rewrite Hi. simpl. rewrite Hci. simpl. rewrite Hj. simpl. by rewrite Hcj.
Qed.

Lemma saved_lookup m :
  saved m !! "out_dir" = Some (PStr (out_dir m)) ∧
  saved m !! "max_res" = Some (PInt (max_res m)) ∧
  saved m !! "fmt" = Some (PInt (format_combo m)).
Proof. unfold saved. by simplify_map_eq. Qed.

Lemma read_back_refl st : read_back st st.
Proof. intros k. by left. Qed.

Lemma read_back_lookup st st' k v :
  read_back st st' → st !! k = Some v → st' !! k = Some v ∨ st' !! k = Some (as_text v).
Proof. intros H Hk. destruct (H k) as [->| ->]; rewrite Hk; auto. Qed.

Lemma init_saved n m st cwd :
  inv n m → read_back (saved m) st →
  __init__ st cwd =
    (restored (out_dir m) (max_res m) (format_combo m) (_build_ui st cwd), inr ()).
Proof.
  intros (_ & Hr & Hf) Hst. destruct (saved_lookup m) as (Ho & Hm & Hq).
  apply (read_back_lookup _ _ _ _ Hst) in Ho, Hm, Hq.
  unfold __init__. apply restore_run; simpl.
  - by destruct Ho as [->| ->].
  - apply int_of_stored. destruct Hm as [->| ->]; auto.
  - apply int_of_stored. destruct Hq as [->| ->]; auto.
  - apply c_int_small; lia.
  - apply c_int_small; lia.
Qed.

(** The window [__init__] returns is [_build_ui]'s with the folder and the
    two indices restored. *)
Lemma init_restored st cwd m :
  __init__ st cwd = (m, inr ()) → ∃ s i j, m = restored s i j (_build_ui st cwd).
Proof.
  unfold __init__, _restore, settings_value, int_of, text_of, to_c_int,
    mbind, eff_bind, get, gets, modify, mret, eff_ret, raise.
  cbn [settings out_dir _build_ui].
  intros H. repeat case_match; simplify_eq; eauto.
Qed.

End settings_store.

(** ** Frames on the table

    The handlers change the table through four calls only: what these calls
    keep, every handler keeps, and it holds in every window the program can
    show when it holds of the table [_build_ui] makes. *)
Section table_frames.
Context (Q : QTableWidget → Prop).
Context (Q_insertRow : ∀ r t, Q t → Q (insertRow r t)).
Context (Q_setItem : ∀ r c s t, Q t → Q (setItem r c s t)).
Context (Q_setText : ∀ r c s t, Q t → Q (setText r c s t)).
Context (Q_setCellWidget : ∀ r c b t, Q t → Q (setCellWidget r c b t)).

Lemma keeps_table_add_url os url : keeps (λ m, Q (table m)) (_add_url os url).
Proof. unfold _add_url. repeat (keeps_step; auto with ytdl); intros m Hm; simpl; auto. Qed.

Lemma keeps_table_on_update row p : keeps (λ m, Q (table m)) (_on_update row p).
Proof.
  unfold _on_update, cell_setText, bar_setValue, text_of, to_c_int.
  repeat (keeps_step; auto with ytdl); intros m Hm; simpl; auto.
Qed.

Lemma keeps_table_start os : keeps (λ m, Q (table m)) (_start os).
Proof. unfold _start. repeat (keeps_step; auto using keeps_table_rows with ytdl). Qed.

Lemma keeps_table_handle os ev : keeps (λ m, Q (table m)) (handle os ev).
Proof.
  destruct ev; simpl.
  - by apply keeps_modify.
  - unfold btn_add_clicked. apply keeps_bind; [apply keeps_get|]. intros m.
    apply keeps_table_add_url.
  - unfold _choose_outdir. case_bool; [apply keeps_ret|by apply keeps_modify].
  - by apply keeps_modify.
  - apply keeps_table_start.
  - unfold _stop. repeat (keeps_step; auto with ytdl).
  - apply keeps_table_on_update.
  - by apply keeps_modify.
  - apply keeps_modify. intros m Hm. unfold thread_finished. by destruct (worker m).
  - unfold closeEvent. repeat (keeps_step; auto with ytdl).
Qed.

Lemma reachable_table m :
  Q (setHorizontalHeaderLabels header_labels (new_table 4)) → reachable m → Q (table m).
Proof.
  intros H0 Hr. induction Hr as [st cwd m Hi|m m' Hr IH Hs].
  - by destruct (init_restored _ _ _ Hi) as (s & i & j & ->).
  - destruct Hs as [os ev m].
    apply (keeps_exec (λ m, Q (table m))); [apply keeps_table_handle|done].
Qed.

End table_frames.

(** ** The sample windows *)

Lemma sample_reachable : reachable sample_window.
Proof.
  unfold sample_window. do 2 (eapply reachable_step; [|apply step_event]).
  by apply (reachable_init ∅ "downloads").
Qed.

Lemma sample_rowCount : rowCount (table sample_window) = 1%nat.
Proof. by vm_compute. Qed.

Lemma table_ok_new n : (4 ≤ n)%nat → table_ok n (new_table n).
Proof.
  intros H. split; [done|]. split; [done|]. intros r Hr. unfold rowCount in Hr. simpl in Hr. lia.
Qed.

Lemma payload_ok_small p :
  payload_wf p → (∀ z, p !! "progress" = Some (PInt z) → 0 ≤ z ≤ 100) → payload_ok p.
Proof.
  intros Hp Hz. split; [done|]. intros z Hl. specialize (Hz z Hl).
  unfold c_int. apply andb_true_iff. split; [apply Z.leb_le|apply Z.ltb_lt]; lia.
Qed.

Lemma payload_ok_done : payload_ok done_payload.
Proof.
  apply payload_ok_small; [apply (bool_decide_unpack _); by vm_compute|].
  intros z. vm_compute. intros [= <-]. done.
Qed.

Example sample_urls : urls (table sample_window) = ["https://youtu.be/a"].
Proof. by vm_compute. Qed.

(** * Properties of the main window *)

(** C23. In every window the program can show, no row has an item
    in column 4: the table is created with four columns, so the "Queued" item
    of [_add_url] is never stored and there is no status cell to update. *)
Theorem status_never_shown (m : state) (r : nat) :
  reachable m → item r 4 (table m) = None.
Proof.
  intros H. apply item_outside. destruct (reachable_inv m H) as ((-> & _) & _). lia.
Qed.

Lemma status_never_shown_witness : item 0 4 (table sample_window) = None.
Proof. apply (status_never_shown sample_window 0), sample_reachable. Defined.

(** C10. In every window the program can show, the slot [_on_update]
    raises [AttributeError] on every payload that carries a status, for a row
    of the table: the title and the percentage of the payload are shown, the
    status and the error message are not. *)
Theorem update_status_raises (m : state) (row : nat) (p : dict) :
  reachable m → (row < rowCount (table m))%nat → payload_ok p → dict_has p "status" = true →
  _on_update row p m =
    (set_table (λ t, show_progress row p (show_title row p t)) m, inl AttributeError).
Proof.
  intros H Hr Hp Hs. apply on_update_lost; try done. split; [by apply reachable_inv|done].
Qed.

Lemma update_status_raises_witness :
  _on_update 0 done_payload sample_window =
    (set_table (λ t, show_progress 0 done_payload (show_title 0 done_payload t)) sample_window,
     inl AttributeError).
Proof.
  apply (update_status_raises sample_window 0 done_payload);
    [apply sample_reachable|rewrite sample_rowCount; lia|apply payload_ok_done|by vm_compute].
Defined.

(** C24. In every window the program can show, the header of the table
    has the labels URL, Title, Date Added and Progress on its four sections
    and no fifth section: the label Status of [_build_ui] is dropped, because
    the table is created with four columns. *)
Theorem header_without_status (m : state) (c : nat) :
  reachable m →
  horizontalHeaderItem c (table m) = ["URL"; "Title"; "Date Added"; "Progress"] !! c.
Proof.
  apply (reachable_table (λ t, horizontalHeaderItem c t = _)); intros;
    by rewrite ?header_insertRow, ?header_setItem, ?header_setText, ?header_setCellWidget,
               ?header_new.
Qed.

Lemma header_without_status_witness :
  horizontalHeaderItem 4 (table sample_window) = None ∧ header_labels !! 4%nat = Some "Status".
Proof. split; [apply (header_without_status sample_window 4), sample_reachable|done]. Defined.

(** An update for a row the table does not have changes
    nothing. *)
Theorem on_update_beyond (m : state) (row : nat) (p : dict) :
  (rowCount (table m) ≤ row)%nat → _on_update row p m = (m, inr ()).
Proof.
  intros H. unfold _on_update, mbind, eff_bind, get. by rewrite bool_decide_eq_true_2.
Qed.

Lemma on_update_beyond_witness : _on_update 1 done_payload sample_window = (sample_window, inr ()).
Proof. apply (on_update_beyond sample_window 1 done_payload). rewrite sample_rowCount. lia. Defined.

(** C32. [_add_url] with a non-empty URL returns and appends one row:
    the URL in column 0, an empty title, the time in column 2, a bar at 0 in
    column 3, and "Queued" in column 4 only if the table has that column; the
    input line is cleared and the rows above are unchanged. *)
Theorem add_url_row (n : nat) (os : os_env) (url : string) (m : state) :
  inv n m → url ≠ "" →
  ∃ m', _add_url os url m = (m', inr ()) ∧
    rowCount (table m') = Datatypes.S (rowCount (table m)) ∧
    item (rowCount (table m)) 0 (table m') = Some url ∧
    item (rowCount (table m)) 1 (table m') = Some "" ∧
    item (rowCount (table m)) 2 (table m') = Some (now os) ∧
    cellWidget (rowCount (table m)) 3 (table m') = Some (Bar 0 100 0) ∧
    item (rowCount (table m)) 4 (table m') = (if decide (4 < n)%nat then Some "Queued" else None) ∧
    url_input m' = "" ∧
    ∀ r c, (r < rowCount (table m))%nat → item r c (table m') = item r c (table m).
Proof.
  intros ((Hc & Hn & _) & _) Hu. eexists. split; [by apply add_url_run|]. simpl.
  destruct (item_added_new os url (table m)) as (H0 & H1 & H2 & H3); [lia|].
  rewrite rowCount_added, item_added_status, Hc.
  repeat split; try done. intros r c Hr. by apply item_added_old.
Qed.

Lemma add_url_row_witness :
  ∃ m', _add_url sample_os "https://youtu.be/b" sample_window = (m', inr ()) ∧
    rowCount (table m') = Datatypes.S (rowCount (table sample_window)) ∧
    item (rowCount (table sample_window)) 0 (table m') = Some "https://youtu.be/b" ∧
    item (rowCount (table sample_window)) 1 (table m') = Some "" ∧
    item (rowCount (table sample_window)) 2 (table m') = Some (now sample_os) ∧
    cellWidget (rowCount (table sample_window)) 3 (table m') = Some (Bar 0 100 0) ∧
    item (rowCount (table sample_window)) 4 (table m') =
      (if decide (4 < 4)%nat then Some "Queued" else None) ∧
    url_input m' = "" ∧
    ∀ r c, (r < rowCount (table sample_window))%nat →
           item r c (table m') = item r c (table sample_window).
Proof.
  apply (add_url_row 4 sample_os "https://youtu.be/b" sample_window);
    [apply reachable_inv, sample_reachable|done].
Defined.

(** C11. With rows in the table, no worker running, the output
    folder created and a cap selected, [_start] returns with a running worker
    whose rows are the URLs of the table from top to bottom, every row
    holding its "url" key, whose stop flag is clear and whose selector is
    [build_format] of the selected cap; [Start] is disabled and [Stop]
    enabled. *)
Theorem start_creates_worker (n : nat) (os : os_env) (m : state) :
  inv n m → rowCount (table m) ≠ 0%nat → worker_running m = false →
  mkdir os (out_dir m) = None → 0 ≤ max_res m →
  _start os m = (started os m, inr ()) ∧
  worker (started os m) = Some (Thread (worker_of os m) true) ∧
  rows (worker_of os m) = url_row <$> urls (table m) ∧
  rows_ok (rows (worker_of os m)) ∧
  length (rows (worker_of os m)) = rowCount (table m) ∧
  Worker._stop (worker_of os m) = false ∧
  format (opts (worker_of os m)) = build_format (cap_of m) ∧
  btn_start (started os m) = false ∧ btn_stop (started os m) = true.
Proof.
  intros Hm H0 Hw Hd Hi. split; [by apply (start_run n)|].
  assert (length (rows (worker_of os m)) = rowCount (table m)) as Hl.
  { simpl. by rewrite length_fmap, length_urls. }
  unfold started. destruct (has_ffmpeg os); repeat split; done || apply rows_ok_urls.
Qed.

Lemma start_creates_worker_witness :
  _start sample_os sample_window = (started sample_os sample_window, inr ()) ∧
  worker (started sample_os sample_window) = Some (Thread (worker_of sample_os sample_window) true) ∧
  rows (worker_of sample_os sample_window) = url_row <$> urls (table sample_window) ∧
  rows_ok (rows (worker_of sample_os sample_window)) ∧
  length (rows (worker_of sample_os sample_window)) = rowCount (table sample_window) ∧
  Worker._stop (worker_of sample_os sample_window) = false ∧
  format (opts (worker_of sample_os sample_window)) = build_format (cap_of sample_window) ∧
  btn_start (started sample_os sample_window) = false ∧
  btn_stop (started sample_os sample_window) = true.
Proof.
  apply (start_creates_worker 4 sample_os sample_window);
    [apply reachable_inv, sample_reachable|by rewrite sample_rowCount|done|done|by vm_compute].
Defined.

(** [_start] changes nothing and returns when the table is
    empty or a worker is running: no second worker is created. *)
Theorem start_guards (os : os_env) (m : state) :
  rowCount (table m) = 0%nat ∨ worker_running m = true → _start os m = (m, inr ()).
Proof. apply start_guarded. Qed.

Lemma start_guards_witness :
  _start sample_os (started sample_os sample_window) = (started sample_os sample_window, inr ()).
Proof. apply (start_guards sample_os (started sample_os sample_window)). by right. Defined.

(** C40. When the resolution box has no current item, which
    [_restore] causes for a stored index outside the items, [_start] raises
    [ValueError] after creating the folder: no worker is created and the
    buttons are unchanged. *)
Theorem start_without_cap (os : os_env) (m : state) :
  rowCount (table m) ≠ 0%nat → worker_running m = false →
  mkdir os (out_dir m) = None → max_res m < 0 ∨ 5 ≤ max_res m →
  _start os m = (m, inl ValueError).
Proof. apply start_no_item. Qed.

Lemma start_without_cap_witness :
  _start sample_os (set_max_res (-1) sample_window) = (set_max_res (-1) sample_window, inl ValueError).
Proof.
  apply (start_without_cap sample_os (set_max_res (-1) sample_window));
    [by vm_compute|done|done|left; simpl; lia].
Defined.

(** [_stop] sets the stop flag of a running worker and changes
    nothing else; without a running worker it does nothing. *)
Theorem stop_handler (m : state) :
  _stop m =
    match worker m with
    | Some w => if isRunning w then (set_worker (Some (Thread (stop (obj w)) true)) m, inr ())
                else (m, inr ())
    | None => (m, inr ())
    end.
Proof.
  destruct (worker m) as [w|] eqn:Hw.
  - destruct (isRunning w) eqn:Hr; [by apply stop_running|].
    apply stop_idle. unfold worker_running. by rewrite Hw.
  - apply stop_idle. unfold worker_running. by rewrite Hw.
Qed.

(** C33. What [closeEvent] saves, [__init__] restores, whether the
    store returns the two indices as the integers that were written or as
    their decimal digits: a window constructed from the store the previous
    one saved returns from [_restore] with the same output folder and the
    same items selected. *)
Theorem settings_roundtrip (n : nat) (m : state) (st : gmap string pyval) (cwd : string) :
  inv n m → read_back (settings (exec closeEvent m)) st →
  ∃ m', __init__ st cwd = (m', inr ()) ∧
        out_dir m' = out_dir m ∧ max_res m' = max_res m ∧ format_combo m' = format_combo m.
Proof.
  intros Hm Hst. change (settings (exec closeEvent m)) with (saved m) in Hst.
  eexists. split; [by apply (init_saved n)|]. destruct Hm as (_ & Hr & Hf).
  simpl. by rewrite !setCurrentIndex_fixed.
Qed.

Lemma settings_roundtrip_witness :
  ∃ m', __init__ (as_text <$> settings (exec closeEvent sample_window)) "downloads" = (m', inr ()) ∧
        out_dir m' = out_dir sample_window ∧ max_res m' = max_res sample_window ∧
        format_combo m' = format_combo sample_window.
Proof.
  apply (settings_roundtrip 4 sample_window _ "downloads");
    [apply reachable_inv, sample_reachable|].
  intros k. right. by rewrite lookup_fmap.
Defined.

(** C25. Every window the program can show satisfies the invariant:
    the table has four columns, every row has its URL, title and date items
    and a progress bar whose value is between 0 and 100, and each combo box
    has a current item or none. *)
Theorem window_invariant (m : state) : reachable m → inv 4 m.
Proof. apply reachable_inv. Qed.

Lemma window_invariant_witness : inv 4 sample_window.
Proof. apply (window_invariant sample_window), sample_reachable. Defined.
