(* ===== verification/Startup.v ===== *)
(** * Startup: the module as a script

    The code that runs before the event loop: the guarded import of
    [yt_dlp] (lines 8-12 of [src/main.py]), [get_resource_path] (lines
    20-24), [main] (lines 228-241) and the call of [main] when the module
    is the script (lines 243-244).  The process and the file system are a
    record of inputs; the application object is a record of what the
    program has made of it (whether it exists, its style sheet, what was
    printed, the dialogs shown).  A start ends in one of three ways: the
    event loop runs on a window, an exception leaves the program, or Qt
    aborts the process. *)

From S2P Require Import Prelude PyValue Widgets MainWindow.
Import Main.

(** ** The environment *)

(** What the program reads from the process and the file system. *)
Record sys_env : Type := SysEnv {
  yt_dlp_found : bool;                  (** [import yt_dlp] succeeds *)
  meipass : option string;              (** [sys._MEIPASS], when the attribute exists *)
  abspath : string → string;            (** [os.path.abspath] *)
  os_path_join : string → string → string;  (** [os.path.join] *)
  path_exists : string → bool;          (** [os.path.exists] *)
  read_text : string → string + string; (** [open(p, "r")] and [f.read()]: the text, or [str(e)] *)
  store : gmap string pyval;            (** the settings [QSettings] opens *)
  cwd_downloads : string                (** [str(Path.cwd() / "downloads")] *)
}.

(** The application object: whether [QApplication] exists, its style
    sheet, the lines printed, the texts of the dialogs shown (the last one
    first). *)
Record app : Type := App {
  qapp : bool;
  styleSheet : string;
  stdout : list string;
  boxes : list string
}.

(** How a start ends. *)
Inductive launch : Type :=
  | Running (a : app) (w : state)       (** [app.exec()] runs on the window [w] *)
  | Uncaught (a : app) (e : exn)        (** an exception leaves the program *)
  | Aborted (a : app).                  (** Qt ends the process *)

Definition no_app : app := App false "" [] [].

Definition set_qapp (a : app) : app := App true (styleSheet a) (stdout a) (boxes a).
Definition setStyleSheet (s : string) (a : app) : app := App (qapp a) s (stdout a) (boxes a).
Definition print (s : string) (a : app) : app := App (qapp a) (styleSheet a) (stdout a ++ [s]) (boxes a).

(** A dialog is a widget, and Qt ends the process when a widget is made
    before the application object: [None] is that outcome. *)
Definition message_box (text : string) (a : app) : option app :=
  if qapp a then Some (App (qapp a) (styleSheet a) (stdout a) (text :: boxes a)) else None.

Definition newline : string := String (Ascii.ascii_of_nat 10) "".

(** ** The program *)

(** [get_resource_path], lines 20-24. *)
Definition get_resource_path (env : sys_env) (relative_path : string) : string :=
  match meipass env with
  | Some dir => os_path_join env dir relative_path
  | None => os_path_join env (abspath env ".") relative_path
  end.

(** Lines 231-238 of [main]: the style sheet is set when the file exists
    and can be read; a failure to read it is printed. *)
Definition load_style (env : sys_env) (a : app) : app :=
  let style_path := get_resource_path env "style.qss" in
  if path_exists env style_path then
    match read_text env style_path with
    | inl style_sheet => setStyleSheet style_sheet a
    | inr e => print ("Error loading stylesheet: " +:+ e) a
    end
  else a.

(** [main], lines 228-241: the application object, the style sheet, the
    window, the event loop. *)
Definition main (env : sys_env) (a : app) : launch :=
  let a := set_qapp a in
  let a := load_style env a in
  match __init__ (store env) (cwd_downloads env) with
  | (w, inr _) => Running a w
  | (_, inl e) => Uncaught a e
  end.

(** The text of the dialog of line 11. *)
Definition missing_dependency : string :=
  "Install yt-dlp:" +:+ newline +:+ "py -m pip install yt-dlp".

(** The guarded import of lines 8-12: nothing happens when [yt_dlp] is
    found; otherwise the dialog is asked for and the [ImportError] is raised
    again.  [Some l] is the way the program ends there. *)
Definition import_yt_dlp (env : sys_env) (a : app) : option launch :=
  if yt_dlp_found env then None
  else
    match message_box missing_dependency a with
    | Some a' => Some (Uncaught a' ImportError)
    | None => Some (Aborted a)
    end.

(** The module run as a script: its top level, then [main] (lines
    243-244). *)
Definition script (env : sys_env) : launch :=
  match import_yt_dlp env no_app with
  | Some l => l
  | None => main env no_app
  end.

(** ** Sample environments *)

Definition sample_env : sys_env :=
  {| yt_dlp_found := true; meipass := None; abspath := λ _, "/home/u/app";
     os_path_join := λ a b, a +:+ "/" +:+ b;
     path_exists := λ p, bool_decide (p = "/home/u/app/style.qss");
     read_text := λ _, inl "QWidget { color: white; }";
     store := ∅; cwd_downloads := "/home/u/app/downloads" |}.

(** The same, bundled by PyInstaller, with a style sheet that cannot be
    read. *)
Definition bundled_env : sys_env :=
  {| yt_dlp_found := true; meipass := Some "/tmp/_MEI42"; abspath := λ _, "/home/u/app";
     os_path_join := λ a b, a +:+ "/" +:+ b;
     path_exists := λ _, true;
     read_text := λ _, inr "[Errno 13] Permission denied: '/tmp/_MEI42/style.qss'";
     store := {["max_res" := PStr "2"]}; cwd_downloads := "/home/u/app/downloads" |}.

(** A store written by something else: the index is not a number. *)
Definition broken_env : sys_env :=
  {| yt_dlp_found := true; meipass := None; abspath := λ _, "/home/u/app";
     os_path_join := λ a b, a +:+ "/" +:+ b;
     path_exists := λ _, false;
     read_text := λ _, inl "";
     store := {["fmt" := PStr "mkv"]}; cwd_downloads := "/home/u/app/downloads" |}.

(** * Theorems *)

Section resources.
Context (env : sys_env).
Implicit Types (a : app) (rel dir : string).

Lemma get_resource_path_bundled dir rel :
  meipass env = Some dir → get_resource_path env rel = os_path_join env dir rel.
Proof. unfold get_resource_path. by intros ->. Qed.

Lemma get_resource_path_dev rel :
  meipass env = None → get_resource_path env rel = os_path_join env (abspath env ".") rel.
Proof. unfold get_resource_path. by intros ->. Qed.

Lemma load_style_absent a :
  path_exists env (get_resource_path env "style.qss") = false → load_style env a = a.
Proof. unfold load_style. by intros ->. Qed.

Lemma load_style_read a s :
  path_exists env (get_resource_path env "style.qss") = true →
  read_text env (get_resource_path env "style.qss") = inl s →
  load_style env a = setStyleSheet s a.
Proof. unfold load_style. by intros -> ->. Qed.

Lemma load_style_failed a e :
  path_exists env (get_resource_path env "style.qss") = true →
  read_text env (get_resource_path env "style.qss") = inr e →
  load_style env a = print ("Error loading stylesheet: " +:+ e) a.
Proof. unfold load_style. by intros -> ->. Qed.

(** The style sheet touches neither the application object's existence nor
    the dialogs. *)
Lemma load_style_frame a :
  qapp (load_style env a) = qapp a ∧ boxes (load_style env a) = boxes a.
Proof. unfold load_style. by repeat case_match. Qed.

Lemma load_style_stdout a :
  stdout (load_style env a) = stdout a ∨
  ∃ e, stdout (load_style env a) = stdout a ++ ["Error loading stylesheet: " +:+ e].
Proof. unfold load_style. repeat case_match; eauto. Qed.

End resources.

Section launching.
Context (env : sys_env).
Implicit Types (a : app) (w : state) (e : exn).

Lemma main_outcome a :
  main env a = match __init__ (store env) (cwd_downloads env) with
               | (w, inr _) => Running (load_style env (set_qapp a)) w
               | (_, inl e) => Uncaught (load_style env (set_qapp a)) e
               end.
Proof. done. Qed.

Lemma main_running a a' w :
  main env a = Running a' w →
  __init__ (store env) (cwd_downloads env) = (w, inr ()) ∧ a' = load_style env (set_qapp a).
Proof.
  rewrite main_outcome. destruct (__init__ _ _) as [w' [e|[]]]; intros; by simplify_eq.
Qed.

Lemma main_not_aborted a a' : main env a ≠ Aborted a'.
Proof. rewrite main_outcome. by destruct (__init__ _ _) as [w' [e|[]]]. Qed.

Lemma script_found : yt_dlp_found env = true → script env = main env no_app.
Proof. unfold script, import_yt_dlp. by intros ->. Qed.

Lemma script_missing : yt_dlp_found env = false → script env = Aborted no_app.
Proof. unfold script, import_yt_dlp. by intros ->. Qed.

End launching.

(** A resource is looked up beside the bundle when the program runs
    from a PyInstaller bundle, and in the working directory otherwise. *)
Theorem get_resource_path_cases (env : sys_env) (rel : string) :
  get_resource_path env rel =
    os_path_join env (default (abspath env ".") (meipass env)) rel.
Proof. unfold get_resource_path. by destruct (meipass env). Qed.

(** C26. The window the event loop starts on: [main] leaves a window that
    is reachable, whose table is the one [_build_ui] made (no rows, four
    columns, the header labelled), with no worker, [Start] enabled and [Stop]
    disabled, and the application object exists; whatever happens to the
    style sheet, no dialog is shown. *)
Theorem main_window (env : sys_env) (a : app) (a' : app) (w : state) :
  main env a = Running a' w →
  reachable w ∧ inv 4 w ∧
  table w = setHorizontalHeaderLabels header_labels (new_table 4) ∧ worker w = None ∧
  btn_start w = true ∧ btn_stop w = false ∧ warnings w = [] ∧
  qapp a' = true ∧ boxes a' = boxes a.
Proof.
  intros [Hi ->]%main_running.
  assert (reachable w) as Hr by eauto using reachable_init.
  destruct (init_restored _ _ _ Hi) as (s & i & j & ->).
  destruct (load_style_frame env (set_qapp a)) as [-> ->].
  by auto 10 using reachable_inv.
Qed.

Lemma main_window_witness :
  ∃ a' w, main sample_env no_app = Running a' w ∧ reachable w ∧ worker w = None ∧
          styleSheet a' = "QWidget { color: white; }".
Proof.
  eexists _, _. split; [vm_compute; reflexivity|].
  pose proof (main_window sample_env no_app _ _ eq_refl) as (Hr & _ & _ & Hw & _).
  split; [exact Hr|]. split; [exact Hw|reflexivity].
Defined.

(** C34. A style sheet that exists and cannot be read never stops the
    start: the message is printed, the style sheet stays as it was, and
    [main] ends as it does without the file. *)
Theorem style_failure_not_fatal (env : sys_env) (a : app) (e : string) :
  path_exists env (get_resource_path env "style.qss") = true →
  read_text env (get_resource_path env "style.qss") = inr e →
  load_style env (set_qapp a) = print ("Error loading stylesheet: " +:+ e) (set_qapp a) ∧
  match main env a with
  | Running a' w =>
      __init__ (store env) (cwd_downloads env) = (w, inr ()) ∧
      styleSheet a' = styleSheet a ∧
      stdout a' = stdout a ++ ["Error loading stylesheet: " +:+ e]
  | Uncaught a' x => (__init__ (store env) (cwd_downloads env)).2 = inl x
  | Aborted _ => False
  end.
Proof.
  intros Hp Hr. rewrite main_outcome, (load_style_failed _ _ _ Hp Hr).
  split; [done|]. by destruct (__init__ _ _) as [w [x|[]]].
Qed.

Lemma style_failure_not_fatal_witness :
  load_style bundled_env (set_qapp no_app) =
    print ("Error loading stylesheet: " +:+
           "[Errno 13] Permission denied: '/tmp/_MEI42/style.qss'") (set_qapp no_app) ∧
  match main bundled_env no_app with
  | Running a' w =>
      __init__ (store bundled_env) (cwd_downloads bundled_env) = (w, inr ()) ∧
      styleSheet a' = styleSheet no_app ∧
      stdout a' = stdout no_app ++
        ["Error loading stylesheet: " +:+ "[Errno 13] Permission denied: '/tmp/_MEI42/style.qss'"]
  | Uncaught a' x => (__init__ (store bundled_env) (cwd_downloads bundled_env)).2 = inl x
  | Aborted _ => False
  end.
Proof.
  exact (style_failure_not_fatal bundled_env no_app
           "[Errno 13] Permission denied: '/tmp/_MEI42/style.qss'" eq_refl eq_refl).
Defined.

(** The start of [bundled_env]: the failure is printed, and the stored
    index, a string, selects the third item. *)
Example bundled_start :
  ∃ a' w, main bundled_env no_app = Running a' w ∧
          stdout a' = ["Error loading stylesheet: [Errno 13] Permission denied: '/tmp/_MEI42/style.qss'"] ∧
          max_res w = 2%Z.
Proof. eexists _, _. split; [vm_compute; reflexivity|]. split; reflexivity. Qed.

(** C27. Without [yt_dlp] the program never shows its dialog: the dialog
    is asked for while no application object exists, the process is
    aborted there, and the [ImportError] is not raised again. *)
Theorem missing_dependency_aborts (env : sys_env) :
  yt_dlp_found env = false →
  message_box missing_dependency no_app = None ∧
  script env = Aborted no_app ∧
  (∀ a, script env ≠ Uncaught a ImportError) ∧
  ∀ a w, script env ≠ Running a w.
Proof. intros H. rewrite (script_missing _ H). by repeat split. Qed.

Lemma missing_dependency_aborts_witness :
  script (SysEnv false None id (λ a b, a +:+ b) (λ _, false) inl ∅ "d") = Aborted no_app.
Proof. exact (proj1 (proj2 (missing_dependency_aborts (SysEnv false None id (λ a b, a +:+ b) (λ _, false) inl ∅ "d") eq_refl))). Defined.

(** A stored index that is not a number ends the start with the
    exception of [int], after the style sheet was handled. *)
Theorem main_uncaught_iff (env : sys_env) (a : app) (e : exn) :
  (∃ a', main env a = Uncaught a' e) ↔
  (__init__ (store env) (cwd_downloads env)).2 = inl e.
Proof.
  rewrite main_outcome. destruct (__init__ _ _) as [w [x|[]]]; simpl; split.
  - by intros [a' [= _ ->]].
  - intros [= ->]. eauto.
  - by intros [a' ?].
  - done.
Qed.

Example main_broken_store :
  ∃ a', main broken_env no_app = Uncaught a' ValueError.
Proof. eexists. vm_compute. reflexivity. Qed.
