(* ===== verification/System.v ===== *)
(** * The program as a whole: a run seen from the window

    [_start] connects the worker's signals to the slots of the window
    (src/main.py 191-192) and starts the thread.  This file composes the two
    models: the trace of [Worker.run] is delivered signal by signal to
    [_on_update] and [_on_done] of [MainWindow], in the order of emission,
    which is the order in which Qt delivers the queued signals of one thread.
    The user does nothing else during the run; a stop request is part of the
    library oracle ([stop_during]).

    The theorems say what the window shows when the run is over: the buttons
    and the queue, the progress bars, and that nothing of the statuses and
    the error messages of the worker reaches a cell of the table. *)

From S2P Require Import Prelude PyValue Format Options Hook Worker Widgets MainWindow.
Import Main.

Local Open Scope Z_scope.

(** ** Definitions *)

(** The connections of lines 191-192: [sig_update] to [_on_update],
    [sig_done] to [_on_done]. *)
Definition deliver (sg : signal) : eff state () :=
  match sg with
  | SigUpdate i p => _on_update i p
  | SigDone => _on_done
  end.

(** The signals of a trace delivered in order; an exception that leaves a
    slot is reported and the next signal is delivered. *)
Definition deliver_all (tr : list signal) (m : state) : state :=
  foldl (λ m sg, exec (deliver sg) m) m tr.

(** A run from a window: [Start] is pressed, the worker runs against the
    library [env], its signals are delivered in order, the thread ends. *)
Definition run_from (os : os_env) (env : nat → item_env) (m : state) : state :=
  let m1 := exec (_start os) m in
  match worker m1 with
  | Some w =>
      if isRunning w then thread_finished (deliver_all (run (obj w) env).1 m1) else m1
  | None => m1
  end.

(** [_start] goes through from [m]. *)
Definition startable (os : os_env) (m : state) : Prop :=
  rowCount (table m) ≠ 0%nat ∧ worker_running m = false ∧
  mkdir os (out_dir m) = None ∧ 0 ≤ max_res m.

(** The payload that ends the iteration of a row whose session closes. *)
Definition terminal_payload (e : item_env) : dict :=
  match ctor e with
  | Some x => error_payload (error_prefix x +:+ exn_msg x)
  | None =>
      match outcome e with
      | Returned _ => done_payload
      | Raised x => error_payload (error_prefix x +:+ exn_msg x)
      end
  end.

(** ** Delivery and frames *)

Section frames.
Context (i : nat).
Implicit Types (m : state) (sg : signal) (tr : list signal).

Lemma deliver_all_app tr1 tr2 m :
  deliver_all (tr1 ++ tr2) m = deliver_all tr2 (deliver_all tr1 m).
Proof. apply foldl_app. Qed.

Lemma deliver_all_cons sg tr m : deliver_all (sg :: tr) m = deliver_all tr (exec (deliver sg) m).
Proof. done. Qed.

(** An invariant every slot keeps holds after a trace. *)
Lemma deliver_all_keeps (I : state → Prop) tr m :
  (∀ sg, sg ∈ tr → keeps I (deliver sg)) → I m → I (deliver_all tr m).
Proof.
  revert m. induction tr as [|sg tr IH]; intros m Hk Hm; [done|].
  rewrite deliver_all_cons. apply IH; [intros; apply Hk; set_solver|].
  apply keeps_exec; [apply Hk; set_solver|done].
Qed.

Lemma keeps_rowCount k row p : keeps (λ m, rowCount (table m) = k) (_on_update row p).
Proof.
  unfold _on_update, cell_setText, bar_setValue, text_of, to_c_int.
  repeat (keeps_step; auto with ytdl);
    intros m Hm; simpl; by rewrite ?rowCount_setText, ?rowCount_setCellWidget.
Qed.

(** An update for another row leaves the cells of row [i] alone. *)
Lemma keeps_item_other c x row p :
  row ≠ i → keeps (λ m, item i c (table m) = x) (_on_update row p).
Proof.
  intros Hne. unfold _on_update, cell_setText, bar_setValue, text_of, to_c_int.
  repeat (keeps_step; auto with ytdl);
    intros m Hm; simpl; rewrite ?item_setCellWidget, ?item_setText_ne; congruence.
Qed.

Lemma keeps_bar_other x row p :
  row ≠ i → keeps (λ m, cellWidget i 3 (table m) = x) (_on_update row p).
Proof.
  intros Hne. unfold _on_update, cell_setText, bar_setValue, text_of, to_c_int.
  repeat (keeps_step; auto with ytdl);
    intros m Hm; simpl; rewrite ?cellWidget_setText, ?cellWidget_setCellWidget_ne; congruence.
Qed.

(** No update changes an item outside the columns 1 and 4, whatever its
    row. *)
Lemma keeps_item_column row p r c x :
  c ≠ 1%nat → c ≠ 4%nat → keeps (λ m, item r c (table m) = x) (_on_update row p).
Proof.
  intros H1 H4. unfold _on_update, cell_setText, bar_setValue, text_of, to_c_int.
  repeat (keeps_step; auto with ytdl);
    intros m Hm; simpl; rewrite ?item_setCellWidget, ?item_setText_ne; congruence.
Qed.

Lemma keeps_url row p r x : keeps (λ m, item r 0 (table m) = x) (_on_update row p).
Proof. by apply keeps_item_column. Qed.

End frames.

(** ** The trace around a terminal payload *)

Section trace_split.
Context (env : nat → item_env).
Implicit Types (i k : nat) (w : DLWorker) (tr : list signal).

Lemma handler_signals_payload i x :
  handler_signals i x = [SigUpdate i (error_payload (error_prefix x +:+ exn_msg x))].
Proof. by destruct x. Qed.

(** The block of a row whose session closes ends with its terminal
    payload. *)
Lemma block_terminal i e :
  close e = None → ∃ pre, item_signals i e = pre ++ [SigUpdate i (terminal_payload e)].
Proof.
  intros Hc. unfold terminal_payload. destruct (ctor e) as [x|] eqn:Hx.
  - exists [SigUpdate i starting_payload].
    by rewrite (item_signals_ctor i e x), handler_signals_payload.
  - destruct (outcome e) as [rc|x] eqn:Ho.
    + eexists. by rewrite (item_signals_done i e rc), app_comm_cons.
    + eexists. rewrite (item_signals_raised i e x), Hc by done. simpl.
      by rewrite handler_signals_payload, app_comm_cons.
Qed.

Lemma bind_seq_split {A} (f : nat → list A) i k :
  (i < k)%nat →
  seq 0 k ≫= f = (seq 0 i ≫= f) ++ f i ++ (seq (S i) (k - S i) ≫= f).
Proof.
  intros H. replace k with (i + S (k - S i))%nat at 1 by lia.
  by rewrite seq_app, bind_app, <- cons_seq, bind_cons.
Qed.

(** The trace of a run around the terminal payload of a processed row:
    nothing after it is about that row. *)
Lemma run_trace_split w i :
  rows_ok (rows w) → (i < processed env 0 (Worker._stop w) (length (rows w)))%nat →
  close (env i) = None →
  ∃ tr1 tr2, (run w env).1 = tr1 ++ SigUpdate i (terminal_payload (env i)) :: tr2 ∧
             ∀ sg, sg ∈ tr2 → signal_row sg ≠ Some i.
Proof.
  intros Hok Hi Hc. rewrite run_trace by done.
  rewrite (bind_seq_split _ i) by done. unfold row_block at 2.
  destruct (block_terminal i (env i) Hc) as [pre ->].
  exists ((seq 0 i ≫= row_block env) ++ pre),
    ((seq (S i) (processed env 0 (Worker._stop w) (length (rows w)) - S i) ≫= row_block env)
       ++ [SigDone]).
  split; [by rewrite <- !app_assoc|].
  intros sg [(j & Hsg & Hj)%list_elem_of_bind| ->%list_elem_of_singleton]%elem_of_app; [|done].
  apply item_signals_row in Hsg as ->. apply elem_of_seq in Hj. intros [= ->]. lia.
Qed.

End trace_split.

(** ** What a signal shows *)

Section delivery.
Context (n : nat).
Implicit Types (m : state) (sg : signal) (tr : list signal) (i : nat).

Lemma keeps_deliver_inv sg : keeps (inv n) (deliver sg).
Proof. destruct sg; simpl; [apply keeps_on_update|by apply keeps_modify]. Qed.

Lemma keeps_deliver_rowCount k sg : keeps (λ m, rowCount (table m) = k) (deliver sg).
Proof. destruct sg; simpl; [apply keeps_rowCount|by apply keeps_modify]. Qed.

Lemma keeps_deliver_ready i sg : keeps (ready n i) (deliver sg).
Proof.
  intros m [Hi Hr]. pose proof (keeps_deliver_inv sg m Hi) as H1.
  pose proof (keeps_deliver_rowCount _ sg m eq_refl) as H2.
  destruct (deliver sg m) as [m' [e|[]]]; split; try done; by rewrite H2.
Qed.

Lemma keeps_deliver_url r x sg : keeps (λ m, item r 0 (table m) = x) (deliver sg).
Proof. destruct sg; simpl; [apply keeps_url|by apply keeps_modify]. Qed.

Lemma keeps_deliver_column r c x sg :
  c ≠ 1%nat → c ≠ 4%nat → keeps (λ m, item r c (table m) = x) (deliver sg).
Proof. intros. destruct sg; simpl; [by apply keeps_item_column|by apply keeps_modify]. Qed.

(** A signal that is not about row [i] leaves its cells alone. *)
Lemma keeps_deliver_item i c x sg :
  signal_row sg ≠ Some i → keeps (λ m, item i c (table m) = x) (deliver sg).
Proof.
  destruct sg as [row p|]; simpl; intros H; [|by apply keeps_modify].
  apply keeps_item_other. congruence.
Qed.

Lemma keeps_deliver_bar i x sg :
  signal_row sg ≠ Some i → keeps (λ m, cellWidget i 3 (table m) = x) (deliver sg).
Proof.
  destruct sg as [row p|]; simpl; intros H; [|by apply keeps_modify].
  apply keeps_bar_other. congruence.
Qed.

(** What the last signal about a row establishes, and the signals after it
    keep, holds at the end of the trace. *)
Lemma after_last_about i (Q : state → Prop) tr1 p tr2 m :
  ready n i m →
  (∀ m', ready n i m' → Q (exec (_on_update i p) m')) →
  (∀ sg, sg ∈ tr2 → keeps Q (deliver sg)) →
  Q (deliver_all (tr1 ++ SigUpdate i p :: tr2) m).
Proof.
  intros Hm Hp Hk. rewrite deliver_all_app, deliver_all_cons.
  apply deliver_all_keeps; [done|]. apply Hp.
  apply (deliver_all_keeps (ready n i)); [|done]. intros. apply keeps_deliver_ready.
Qed.

Lemma shown_done i t :
  shown i done_payload t = setText i 4 "Done" (show_progress i done_payload t).
Proof. done. Qed.

Lemma show_progress_done_bar i t b :
  cellWidget i 3 t = Some b → bar_ok b → (i < rowCount t)%nat → (3 < columnCount t)%nat →
  value <$> cellWidget i 3 (show_progress i done_payload t) = Some 100.
Proof.
  intros Hb (Hmin & Hmax & _) Hr Hc. unfold show_progress.
  change (done_payload !! "progress") with (Some (PInt 100)). rewrite Hb.
  rewrite cellWidget_setCellWidget by done. simpl. f_equal. apply setValue_in_range. lia.
Qed.

(** The bar of a row after [Done], with or without a status column. *)
Lemma done_bar_full i m :
  ready n i m →
  value <$> cellWidget i 3 (table (exec (_on_update i done_payload) m)) = Some 100.
Proof.
  intros Hm. pose proof Hm as [((Hc & Hn & Hrow) & _) Hr].
  destruct (Hrow i Hr) as (_ & _ & _ & (b & Hb & Hok) & _).
  destruct (decide (n = 4%nat)) as [Hn4|Hn4].
  - assert (ready 4 i m) as Hm4 by by rewrite <- Hn4.
    unfold exec. rewrite on_update_lost; [|done|apply payload_ok_done|done]. simpl.
    change (show_title i done_payload (table m)) with (table m).
    apply (show_progress_done_bar i _ b); try done. lia.
  - unfold exec. rewrite (on_update_run n); [|done|lia|apply payload_ok_done]. simpl.
    rewrite shown_done, cellWidget_setText.
    apply (show_progress_done_bar i _ b); try done. lia.
Qed.

End delivery.

Section whole.
Context (n : nat) (os : os_env) (env : nat → item_env).
Implicit Types (m : state) (i : nat).

Lemma table_thread_finished m : table (thread_finished m) = table m.
Proof. unfold thread_finished. by destruct (worker m). Qed.

Lemma run_from_started m :
  inv n m → startable os m →
  run_from os env m =
    thread_finished (deliver_all (run (worker_of os m) env).1 (started os m)).
Proof.
  intros Hm (H0 & Hw & Hd & Hi). unfold run_from, exec. rewrite (start_run n os m Hm H0 Hw Hd Hi).
  reflexivity.
Qed.

(** The rows the run processes, counted on the table. *)
Lemma processed_started m :
  processed env 0 (Worker._stop (worker_of os m)) (length (rows (worker_of os m))) =
  processed env 0 false (rowCount (table m)).
Proof. simpl. by rewrite length_fmap, length_urls. Qed.

Lemma item_started r c m : item r c (table (started os m)) = item r c (table m).
Proof. unfold started. by destruct (has_ffmpeg os). Qed.

Lemma ready_started i m : ready n i m → ready n i (started os m).
Proof. intros [Hm Hr]. unfold started. by destruct (has_ffmpeg os). Qed.

(** What the terminal payload of a processed row establishes holds when the
    run is over. *)
Lemma run_from_after_last i (Q : QTableWidget → Prop) m :
  inv n m → startable os m →
  (i < processed env 0 false (rowCount (table m)))%nat → close (env i) = None →
  (∀ m', ready n i m' → Q (table (exec (_on_update i (terminal_payload (env i))) m'))) →
  (∀ sg, signal_row sg ≠ Some i → keeps (λ m', Q (table m')) (deliver sg)) →
  Q (table (run_from os env m)).
Proof.
  intros Hm Hs Hi Hc Hq Hk. rewrite run_from_started, table_thread_finished by done.
  destruct (run_trace_split env (worker_of os m) i) as (tr1 & tr2 & -> & Hrow);
    [apply rows_ok_urls|by rewrite processed_started|done|].
  apply (after_last_about n i (λ m', Q (table m'))); [|done|auto].
  apply ready_started. split; [done|]. pose proof (processed_le env 0 false (rowCount (table m))). lia.
Qed.

End whole.

(** ** The run as a whole *)

Section after_run.
Context (n : nat) (os : os_env) (env : nat → item_env).
Implicit Types (m : state) (i : nat).

Lemma urls_ext t t' :
  rowCount t = rowCount t' → (∀ r, item r 0 t = item r 0 t') → urls t = urls t'.
Proof. intros Hr Hi. unfold urls. rewrite Hr. apply list_fmap_ext. intros _ r _. by rewrite Hi. Qed.

Lemma deliver_all_urls tr m : urls (table (deliver_all tr m)) = urls (table m).
Proof.
  apply urls_ext.
  - by apply (deliver_all_keeps (λ m', rowCount (table m') = rowCount (table m)));
      [intros; apply keeps_deliver_rowCount|].
  - intros r.
    by apply (deliver_all_keeps (λ m', item r 0 (table m') = item r 0 (table m)));
      [intros; apply keeps_deliver_url|].
Qed.

Lemma inv_run_from m : inv n m → inv n (run_from os env m).
Proof.
  intros Hm. unfold run_from.
  assert (inv n (exec (_start os) m)) as H1 by (by apply keeps_exec; [apply keeps_start|]).
  destruct (worker (exec (_start os) m)) as [w|]; [|done].
  destruct (isRunning w); [|done]. apply inv_thread_finished.
  apply deliver_all_keeps; [intros; apply keeps_deliver_inv|done].
Qed.

Lemma run_from_buttons m :
  inv n m → startable os m →
  btn_start (run_from os env m) = true ∧ btn_stop (run_from os env m) = false ∧
  worker_running (run_from os env m) = false ∧
  urls (table (run_from os env m)) = urls (table m).
Proof.
  intros Hm Hs. rewrite (run_from_started n) by done.
  rewrite table_thread_finished, deliver_all_urls.
  rewrite run_trace by apply rows_ok_urls. rewrite deliver_all_app.
  set (Y := deliver_all [SigDone] _). unfold thread_finished, worker_running.
  split_and!.
  - destruct (worker Y); by subst Y.
  - destruct (worker Y); by subst Y.
  - destruct (worker Y) eqn:E; [done|by rewrite E].
  - unfold started. by destruct (has_ffmpeg os).
Qed.

End after_run.

(** * Properties of a run seen from the window *)

(** C22. When [_start] goes through, the run ends and its signals
    are delivered, the window is ready for the next start: [Start] is
    enabled, [Stop] disabled, no worker is running, and the queue holds the
    same URLs. *)
Theorem run_from_ready (n : nat) (os : os_env) (env : nat → item_env) (m : state) :
  inv n m → startable os m →
  btn_start (run_from os env m) = true ∧ btn_stop (run_from os env m) = false ∧
  worker_running (run_from os env m) = false ∧
  urls (table (run_from os env m)) = urls (table m) ∧
  inv n (run_from os env m).
Proof.
  intros Hm Hs. destruct (run_from_buttons n os env m Hm Hs) as (? & ? & ? & ?).
  split_and!; try done. by apply inv_run_from.
Qed.

Lemma sample_startable : startable sample_os sample_window.
Proof. split_and!; [by rewrite sample_rowCount|done|done|by vm_compute]. Qed.

Lemma run_from_ready_witness :
  btn_start (run_from sample_os (λ _, ok_env) sample_window) = true ∧
  btn_stop (run_from sample_os (λ _, ok_env) sample_window) = false ∧
  worker_running (run_from sample_os (λ _, ok_env) sample_window) = false ∧
  urls (table (run_from sample_os (λ _, ok_env) sample_window)) = urls (table sample_window) ∧
  inv 4 (run_from sample_os (λ _, ok_env) sample_window).
Proof.
  apply (run_from_ready 4 sample_os (λ _, ok_env) sample_window);
    [apply reachable_inv, sample_reachable|apply sample_startable].
Defined.

(** C16. In the program as written, a row whose download returned
    ends with its bar at 100 and without a status: the percentage of [Done]
    is shown before the slot raises on the status. *)
Theorem run_fills_bars (os : os_env) (env : nat → item_env) (m : state) (i : nat) (rc : Z) :
  reachable m → startable os m →
  (i < processed env 0 false (rowCount (table m)))%nat →
  ctor (env i) = None → outcome (env i) = Returned rc → close (env i) = None →
  value <$> cellWidget i 3 (table (run_from os env m)) = Some 100 ∧
  item i 4 (table (run_from os env m)) = None.
Proof.
  intros Hr Hs Hi Hc Ho Hcl. pose proof (reachable_inv m Hr) as Hm. split.
  - apply (run_from_after_last 4 os env i (λ t, value <$> cellWidget i 3 t = Some 100));
      try done.
    + intros m' Hm'. unfold terminal_payload. rewrite Hc, Ho. by apply (done_bar_full 4).
    + intros sg Hsg m' Hq. pose proof (keeps_deliver_bar i _ sg Hsg m' eq_refl) as Hk.
      destruct (deliver sg m') as [m'' [e|[]]]; by rewrite Hk.
  - apply item_outside. destruct (inv_run_from 4 os env m Hm) as ((-> & _) & _). lia.
Qed.

Lemma run_fills_bars_witness :
  value <$> cellWidget 0 3 (table (run_from sample_os (λ _, ok_env) sample_window)) = Some 100 ∧
  item 0 4 (table (run_from sample_os (λ _, ok_env) sample_window)) = None.
Proof.
  apply (run_fills_bars sample_os (λ _, ok_env) sample_window 0 0);
    [apply sample_reachable|apply sample_startable|rewrite sample_rowCount; simpl; lia|done..].
Defined.

(** C15. In the program as written a run changes titles and bars and
    nothing else: whatever the library does, every item outside the title
    column is after the run what it was before it.  The statuses and the
    error messages of the worker's payloads, which the slot writes to column
    4, reach no cell of the table; the URLs and the dates are kept. *)
Theorem run_shows_no_outcome (os : os_env) (env : nat → item_env) (m : state) (r c : nat) :
  reachable m → startable os m → c ≠ 1%nat →
  item r c (table (run_from os env m)) = item r c (table m).
Proof.
  intros Hr Hs Hc. pose proof (reachable_inv m Hr) as Hm.
  destruct (decide (c < 4)%nat) as [H4|H4].
  - rewrite (run_from_started 4), table_thread_finished by done.
    apply (deliver_all_keeps (λ m', item r c (table m') = item r c (table m)));
      [|apply item_started].
    intros sg _. apply keeps_deliver_column; lia.
  - destruct (inv_run_from 4 os env m Hm) as ((Hc' & _) & _). destruct Hm as ((Hc0 & _) & _).
    rewrite !item_outside; [done|lia..].
Qed.

Lemma run_shows_no_outcome_witness :
  item 0 0 (table (run_from sample_os (λ _, geo_env) sample_window)) = Some "https://youtu.be/a" ∧
  item 0 2 (table (run_from sample_os (λ _, geo_env) sample_window)) = Some (now sample_os).
Proof.
  split.
  - rewrite (run_shows_no_outcome sample_os (λ _, geo_env) sample_window 0 0);
      [by vm_compute|apply sample_reachable|apply sample_startable|done].
  - rewrite (run_shows_no_outcome sample_os (λ _, geo_env) sample_window 0 2);
      [by vm_compute|apply sample_reachable|apply sample_startable|done].
Defined.

(** The sample queue run against a library that succeeds, then against one
    that fails: the row shows nothing of the failure. *)
Example sample_run :
  let m := run_from sample_os (λ _, ok_env) sample_window in
  item 0 1 (table m) = Some "A song" ∧ value <$> cellWidget 0 3 (table m) = Some 100 ∧
  item 0 4 (table m) = None ∧ btn_start m = true.
Proof. by vm_compute. Qed.

Example sample_run_failed :
  let m := run_from sample_os (λ _, geo_env) sample_window in
  item 0 1 (table m) = Some "" ∧ value <$> cellWidget 0 3 (table m) = Some 0 ∧
  item 0 4 (table m) = None ∧ btn_start m = true.
Proof. by vm_compute. Qed.
