(* ===== verification/Threads.v ===== *)
(** * The two threads together: the window, the worker and the queue of signals

    [MainWindow] says what each handler does and [WorkerSteps] what the
    worker thread does step by step; [System] delivers the trace of a whole
    run to a window nobody touches.  Here both threads run: the user acts on
    the window at any time, the worker thread takes its steps in between,
    the signals it emits wait in the queue of the GUI thread's event loop
    until they are delivered in order, and the thread ends some time after
    [run] returned.  The worker object is shared: the thread reads the flag
    [_stop] that [Main._stop] sets on the object the window holds
    (src/main.py 46, 51, 198-200).

    The steps are the program's: a handler of the window run on an event of
    the user ([user_step]), a step of [run] ([worker_step]), a slot run on
    the first waiting signal ([deliver_step]), the thread ended
    ([exit_step]).  Which step comes next is not: Qt's event loop and the
    scheduler decide, and [app_step], [app_exec] and [app_reachable] let
    them decide anything, a schedule being any list of actions.

    The theorems: the invariant of the states the application reaches (one
    thread per worker, what was delivered and what waits is what the thread
    emitted, [Start] is enabled exactly when no run is shown as in
    progress); what the slots have seen when a run is over is the trace of
    [Worker.run]; a stop request is honoured; every run can be completed;
    with a user who only watches, the window ends as [System.run_from] says;
    and [Start] pressed between the delivery of [sig_done] and the end of
    the thread does nothing. *)

From S2P Require Import Prelude PyValue Options Hook Worker WorkerSteps Widgets MainWindow System.
Import Main.

(** ** Definitions *)

(** What the user does at the window. *)
Inductive user : Type :=
  | UType (text : string)
  | UAdd
  | UChoose (d : string)
  | USelect (cap fmt : nat)
  | UStart
  | UStop
  | UClose.

#[export] Instance user_eq_dec : EqDecision user.
Proof. solve_decision. Defined.

Definition event_of (u : user) : event :=
  match u with
  | UType text => EvType text
  | UAdd => EvAdd
  | UChoose d => EvChoose d
  | USelect cap fmt => EvSelect cap fmt
  | UStart => EvStart
  | UStop => EvStop
  | UClose => EvClose
  end.

(** A button that is disabled is not clicked (lines 128-129, 194, 214-215
    enable and disable [Start] and [Stop]). *)
Definition enabled (u : user) (m : state) : bool :=
  match u with
  | UStart => btn_start m
  | UStop => btn_stop m
  | _ => true
  end.

(** The application while the event loop runs: the window, the thread of
    the latest run where [run] stands, the signals emitted and not yet
    delivered, how many runs were started, and (a history variable) the
    signals delivered since the latest start. *)
Record app_state : Type := AppState {
  win : state;
  thread : option wstate;
  queue : list signal;
  runs : nat;
  got : list signal
}.

(** What happens next: the user acts, the worker thread takes a step, the
    event loop delivers the signal at the head of its queue, the thread
    ends. *)
Inductive app_action : Type :=
  | AUser (os : os_env) (u : user)
  | AWorker
  | ADeliver
  | AExit.

(** The application when the event loop starts on the window [m]. *)
Definition app_init (m : state) : app_state := AppState m None [] 0 [].

(** The flag and the rows of the worker object the window holds. *)
Definition flag_of (m : state) : bool :=
  match worker m with Some w => Worker._stop (obj w) | None => false end.

Definition thread_rows (m : state) : list dict :=
  match worker m with Some w => rows (obj w) | None => [] end.

(** What a step of the thread emitted. *)
Definition emitted (t t' : wstate) : list signal := drop (length (w_out t)) (w_out t').

(** The thread when it has read the flag [f] of the shared object. *)
Definition synced (rs : list dict) (env : nat → item_env) (f : bool) (t : wstate) : wstate :=
  if f then act rs env AStop t else t.

Section application.
Context (lib : nat → nat → item_env).

(** The user's action: the handler runs when the widget is enabled;
    [start()] at the end of [_start] (line 196) creates the thread. *)
Definition user_step (os : os_env) (u : user) (s : app_state) : app_state :=
  if enabled u (win s) then
    let m := exec (handle os (event_of u)) (win s) in
    if negb (worker_running (win s)) && worker_running m
    then AppState m (Some (winit false)) (queue s) (S (runs s)) []
    else AppState m (thread s) (queue s) (runs s) (got s)
  else s.

(** The worker thread reads [_stop] of the shared object and takes its next
    step against the library's behaviour in this run; what it emits is
    queued. *)
Definition worker_step (s : app_state) : app_state :=
  match thread s with
  | Some t =>
      if worker_running (win s) then
        let rs := thread_rows (win s) in
        let t' := work rs (lib (runs s)) (synced rs (lib (runs s)) (flag_of (win s)) t) in
        AppState (win s) (Some t') (queue s ++ emitted t t') (runs s) (got s)
      else s
  | None => s
  end.

(** The event loop runs the slot of the first signal that waits. *)
Definition deliver_step (s : app_state) : app_state :=
  match queue s with
  | sg :: q => AppState (exec (deliver sg) (win s)) (thread s) q (runs s) (got s ++ [sg])
  | [] => s
  end.

(** The thread ends after [run] has returned. *)
Definition exit_step (s : app_state) : app_state :=
  match thread s with
  | Some t =>
      if final t && worker_running (win s)
      then AppState (thread_finished (win s)) (thread s) (queue s) (runs s) (got s)
      else s
  | None => s
  end.

Definition app_step (a : app_action) (s : app_state) : app_state :=
  match a with
  | AUser os u => user_step os u s
  | AWorker => worker_step s
  | ADeliver => deliver_step s
  | AExit => exit_step s
  end.

Definition app_exec (sch : list app_action) (s : app_state) : app_state :=
  foldl (λ s a, app_step a s) s sch.

(** The states of the application: the window [__init__] returned, then
    any actions. *)
Inductive app_reachable : app_state → Prop :=
  | app_launched store cwd m : Main.__init__ store cwd = (m, inr ()) → app_reachable (app_init m)
  | app_next a s : app_reachable s → app_reachable (app_step a s).

(** The invariant.  Of the thread: the window holds its worker, whose rows
    all have a URL; the thread's state is one the rows and the library allow;
    what was delivered and what waits is what the thread emitted; a thread
    that has ended had left [run]. *)
Definition thread_inv (s : app_state) : Prop :=
  match thread s with
  | None => worker (win s) = None ∧ queue s = [] ∧ got s = []
  | Some t =>
      ∃ w, worker (win s) = Some w ∧ rows_ok (rows (obj w)) ∧
           winv (rows (obj w)) (lib (runs s)) t ∧
           got s ++ queue s = w_out t ∧
           (isRunning w = false → final t = true)
  end.

(** Of the buttons: one of the two is enabled, and [Start] is when no run
    was started or [sig_done] of the latest run was delivered. *)
Definition buttons_inv (s : app_state) : Prop :=
  btn_stop (win s) = negb (btn_start (win s)) ∧
  (btn_start (win s) = true ↔ thread s = None ∨ SigDone ∈ got s).

Definition app_inv (s : app_state) : Prop :=
  inv 4 (win s) ∧ thread_inv s ∧ buttons_inv s.

(** Nothing is in progress: no thread runs and no signal waits. *)
Definition quiescent (s : app_state) : Prop :=
  worker_running (win s) = false ∧ queue s = [].

(** The schedule that completes a run: the thread takes [n] steps, the
    [k] signals that wait are delivered, the thread ends. *)
Definition completion (n k : nat) : list app_action :=
  replicate n AWorker ++ replicate k ADeliver ++ [AExit].

(** An action of the system, not of the user. *)
Definition is_system (a : app_action) : bool :=
  match a with AUser _ _ => false | _ => true end.

End application.

(** A stop request is pending while [k] rows have started. *)
Definition stopping (k : nat) (s : app_state) : Prop :=
  flag_of (win s) = true ∧ ∃ t, thread s = Some t ∧ WorkerSteps.started t = k.

(** A run started from the window [m0] that the user only watches: no
    stop was requested, and the window is the one the run started on with
    the signals delivered so far, the thread ended or not. *)
Definition watched (os : os_env) (m0 : state) (s : app_state) : Prop :=
  (∃ t, thread s = Some t ∧ w_flag t = false) ∧
  (win s = deliver_all (got s) (started os m0) ∨
   win s = thread_finished (deliver_all (got s) (started os m0))).

(** What the handlers of the window leave alone: the worker and the two
    buttons. *)
Definition control (m : state) : option wthread * bool * bool :=
  (worker m, btn_start m, btn_stop m).

(** ** Sample runs *)

(** A library that downloads every row of every run. *)
Definition sample_lib : nat → nat → item_env := λ _ _, ok_env.

(** The application with two URLs queued. *)
Definition sample_app : app_state :=
  app_exec sample_lib
    [AUser sample_os (UType "https://youtu.be/a"); AUser sample_os UAdd;
     AUser sample_os (UType "https://youtu.be/b"); AUser sample_os UAdd]
    (app_init (_build_ui ∅ "downloads")).

(** [Start] was pressed, the thread has begun the first row, and [Stop] is
    pressed. *)
Definition sample_stopping : app_state :=
  app_exec sample_lib [AUser sample_os UStart; AWorker; AWorker; AUser sample_os UStop] sample_app.

(** A whole run nobody stops: [run] has returned and every signal was
    delivered, the thread has not ended yet. *)
Definition sample_returned : app_state :=
  app_exec sample_lib (AUser sample_os UStart :: replicate 24 AWorker ++ replicate 24 ADeliver)
    sample_app.

(** One step of a proof that a handler does not see a change of the
    state. *)
Ltac blind_step :=
  match goal with
  | |- blind _ (mret _) => apply blind_ret
  | |- blind _ (raise _) => apply blind_raise
  | |- blind _ (when _ _) => apply blind_when
  | |- blind _ (attr _ _) => apply blind_attr; intros ?
  | |- blind _ (get ≫= _) => apply blind_bind_get; [intros; reflexivity|intros ?]
  | |- blind _ (_ ≫= _) => apply blind_bind; [|intros ?]
  | |- blind _ (modify _) => apply blind_modify; intros; reflexivity
  | |- blind _ (if ?b then _ else _) => destruct b
  | |- blind _ (match ?x with _ => _ end) => destruct x
  end.

(** * What the handlers leave alone *)

Section control_frames.
Context (os : os_env).
Implicit Types (m : state) (u : user) (c : option wthread * bool * bool).

Lemma keeps_control_on_update c row p : keeps (λ m, control m = c) (_on_update row p).
Proof.
  unfold _on_update, cell_setText, bar_setValue, text_of, to_c_int.
  repeat (keeps_step; auto with ytdl); by intros m Hm.
Qed.

Lemma keeps_control_add c url : keeps (λ m, control m = c) (_add_url os url).
Proof. unfold _add_url. repeat (keeps_step; auto with ytdl); by intros m Hm. Qed.

Lemma keeps_control_passive c u :
  u ≠ UStart → u ≠ UStop → keeps (λ m, control m = c) (handle os (event_of u)).
Proof.
  intros H1 H2. destruct u; try done; simpl.
  - by apply keeps_modify.
  - unfold btn_add_clicked. repeat (keeps_step; auto using keeps_control_add with ytdl);
      by intros m Hm.
  - unfold _choose_outdir. repeat (keeps_step; auto with ytdl); by intros m Hm.
  - by apply keeps_modify.
  - unfold closeEvent. repeat (keeps_step; auto with ytdl); by intros m Hm.
Qed.

Lemma passive_control u m :
  u ≠ UStart → u ≠ UStop → control (exec (handle os (event_of u)) m) = control m.
Proof.
  intros H1 H2.
  by apply (keeps_exec (λ m', control m' = control m)); [apply keeps_control_passive|].
Qed.

Lemma update_control row p m : control (exec (_on_update row p) m) = control m.
Proof.
  by apply (keeps_exec (λ m', control m' = control m)); [apply keeps_control_on_update|].
Qed.

Lemma deliver_worker sg m : worker (exec (deliver sg) m) = worker m.
Proof.
  destruct sg as [row p|]; [|done]. pose proof (update_control row p m) as Hc.
  unfold control in Hc. by injection Hc.
Qed.

Lemma control_running m m' : control m' = control m → worker_running m' = worker_running m.
Proof. unfold control, worker_running. by intros [= -> _ _]. Qed.

(** [_stop] sets the flag of a worker whose thread runs, and nothing else. *)
Lemma stop_cases m :
  exec _stop m = m ∨
  ∃ w, worker m = Some w ∧ isRunning w = true ∧
       exec _stop m = set_worker (Some (Thread (stop (obj w)) true)) m.
Proof.
  destruct (worker_running m) eqn:Hr.
  - right. unfold worker_running in Hr. destruct (worker m) as [w|] eqn:Hw; [|done].
    exists w. unfold exec. by rewrite (stop_running m w).
  - left. unfold exec. by rewrite stop_idle.
Qed.

(** [_start] leaves the window as it is, or starts a run. *)
Lemma start_cases m :
  inv 4 m → exec (_start os) m = m ∨ (startable os m ∧ exec (_start os) m = started os m).
Proof.
  intros Hm. unfold exec.
  destruct (decide (rowCount (table m) = 0%nat)) as [H0|H0];
    [left; by rewrite start_guarded by auto|].
  destruct (worker_running m) eqn:Hr; [left; by rewrite start_guarded by auto|].
  destruct (mkdir os (out_dir m)) as [e|] eqn:Hd;
    [left; by rewrite (start_mkdir_raises os m e)|].
  destruct (decide (0 ≤ max_res m)%Z) as [Hi|Hi].
  - right. split; [done|]. by rewrite (start_run 4).
  - left. rewrite start_no_item; [done..|]. left. lia.
Qed.

End control_frames.

(** * The thread's output *)

Section thread_output.
Context (rs : list dict) (env : nat → item_env).
Implicit Types (t : wstate).

Lemma emitted_app t l t' : w_out t' = w_out t ++ l → emitted t t' = l.
Proof. unfold emitted. intros ->. by rewrite drop_app_length. Qed.

Lemma work_out t : w_out (work rs env t) = w_out t ++ emitted t (work rs env t).
Proof.
  assert (∃ l, w_out (work rs env t) = w_out t ++ l) as [l Hl];
    [|by rewrite (emitted_app _ _ _ Hl)].
  unfold work. repeat case_match; simpl; eauto using app_nil_r.
Qed.

Lemma synced_out f t : w_out (synced rs env f t) = w_out t.
Proof. by destruct f. Qed.

Lemma synced_work_out f t :
  w_out (work rs env (synced rs env f t)) = w_out t ++ emitted t (work rs env (synced rs env f t)).
Proof.
  rewrite work_out, synced_out. f_equal. unfold emitted. by rewrite synced_out.
Qed.

Lemma winv_synced f t : winv rs env t → winv rs env (synced rs env f t).
Proof. destruct f; [apply winv_stop|done]. Qed.

(** With rows that all have a URL the thread never crashes. *)
Lemma winv_not_crashed t : rows_ok rs → winv rs env t → w_pc t ≠ Crashed_.
Proof.
  intros Hok Ht Hpc. unfold winv in Ht. rewrite Hpc in Ht.
  destruct Ht as (i & row & _ & Hrow & Hu & _).
  apply (Forall_lookup_1 _ _ _ _ Hok) in Hrow. rewrite Hu in Hrow. by destruct Hrow.
Qed.

Lemma final_returned t : rows_ok rs → winv rs env t → final t = true → w_pc t = Returned_.
Proof.
  intros Hok Ht Hf. pose proof (winv_not_crashed t Hok Ht). unfold final in Hf.
  by destruct (w_pc t).
Qed.

(** [sig_done] is the last signal of a thread, emitted when [run]
    returns. *)
Lemma done_emitted t : winv rs env t → SigDone ∈ w_out t → w_pc t = Returned_.
Proof.
  unfold winv. pose proof (SigDone_not_in_blocks env 0) as Hb.
  destruct (w_pc t); try done.
  - intros (_ & _ & _ & ->). by intros ?%Hb.
  - intros (_ & _ & _ & _ & ->). rewrite elem_of_app. intros [?%Hb|Hk]; [done|].
    apply elem_of_take in Hk as (j & Hk & _). apply list_elem_of_lookup_2 in Hk.
    exfalso. apply (SigDone_not_in_blocks env i 1). simpl. by rewrite app_nil_r.
  - intros (i & _ & -> & _). by intros ?%Hb.
  - intros (i & row & _ & _ & _ & _ & ->). by intros ?%Hb.
Qed.

Lemma returned_out t :
  winv rs env t → w_pc t = Returned_ → ∃ tr, w_out t = tr ++ [SigDone] ∧ SigDone ∉ tr.
Proof.
  unfold winv. intros Ht Hpc. rewrite Hpc in Ht. destruct Ht as (i & _ & -> & _).
  eexists. split; [done|]. apply SigDone_not_in_blocks.
Qed.

(** Once [sig_done] was delivered nothing waits and [run] has returned. *)
Lemma done_delivered t g q :
  winv rs env t → g ++ q = w_out t → SigDone ∈ g → q = [] ∧ w_pc t = Returned_.
Proof.
  intros Ht Hgq Hg.
  assert (w_pc t = Returned_) as Hpc by (apply done_emitted; [done|rewrite <- Hgq; set_solver]).
  split; [|done]. destruct (returned_out t Ht Hpc) as (tr & Htr & Hn). rewrite Htr in Hgq.
  destruct q as [|sg q _] using rev_ind; [done|]. rewrite app_assoc in Hgq.
  apply app_inj_tail in Hgq as [<- _]. set_solver.
Qed.

End thread_output.

(** * The invariant *)

Section app_invariant.
Context (lib : nat → nat → item_env).
Implicit Types (s : app_state) (a : app_action) (m : state) (u : user).

Lemma app_inv_init store cwd m : Main.__init__ store cwd = (m, inr ()) → app_inv lib (app_init m).
Proof.
  intros H. split; [eauto using reachable_inv, reachable_init|].
  destruct (init_restored _ _ _ H) as (d & i & j & ->).
  split; [done|]. split; [done|]. split; [by left|done].
Qed.

(** A change of the window that leaves the worker and the buttons alone
    keeps the invariant. *)
Lemma app_inv_control s m :
  app_inv lib s → inv 4 m → control m = control (win s) →
  app_inv lib (AppState m (thread s) (queue s) (runs s) (got s)).
Proof.
  unfold app_inv, thread_inv, buttons_inv, control. intros (_ & Ht & Hb) Hm [= Hw Hs Hp].
  simpl. by rewrite Hw, Hs, Hp.
Qed.

Lemma no_start_control s m :
  control m = control (win s) → negb (worker_running (win s)) && worker_running m = false.
Proof. intros ->%control_running. by destruct (worker_running (win s)). Qed.

Lemma inv_user_passive os u s :
  u ≠ UStart → u ≠ UStop → app_inv lib s → app_inv lib (user_step os u s).
Proof.
  intros H1 H2 Hs. unfold user_step. destruct (enabled u (win s)); [|done].
  pose proof (passive_control os u (win s) H1 H2) as Hc.
  rewrite (no_start_control _ _ Hc). apply app_inv_control; [done| |done].
  apply (keeps_exec (inv 4)); [apply keeps_handle|apply Hs].
Qed.

Lemma inv_user_stop os s : app_inv lib s → app_inv lib (user_step os UStop s).
Proof.
  intros Hs. unfold user_step. destruct (enabled UStop (win s)); [|done]. simpl.
  destruct (stop_cases (win s)) as [->|(w & Hw & Hr & ->)].
  { rewrite (no_start_control s) by done. by destruct s. }
  assert (worker_running (win s) = true) as Hrun by (unfold worker_running; by rewrite Hw).
  rewrite Hrun. simpl. destruct Hs as (Hm & Ht & Hb). split; [done|]. split; [|done].
  unfold thread_inv in *. simpl. destruct (thread s) as [t|]; [|destruct Ht; congruence].
  destruct Ht as (w' & Hw' & Ht). rewrite Hw in Hw'. injection Hw' as <-.
  eexists. split; [done|]. simpl. by destruct Ht as (? & ? & ? & _).
Qed.

Lemma started_running os m : worker_running (started os m) = true.
Proof. done. Qed.

Lemma inv_user_start os s : app_inv lib s → app_inv lib (user_step os UStart s).
Proof.
  intros Hs. unfold user_step. destruct (enabled UStart (win s)) eqn:He; [|done]. simpl in *.
  destruct (start_cases os (win s)) as [->|[(_ & Hrun & _) ->]]; [apply Hs| |].
  { rewrite (no_start_control s) by done. by destruct s. }
  rewrite Hrun, started_running. simpl. destruct Hs as (Hm & Ht & Hp & Hb).
  split; [|split].
  - unfold started. by destruct (has_ffmpeg os).
  - exists (Thread (worker_of os (win s)) true). simpl.
    split_and!; [done|apply rows_ok_urls|apply winv_init| |done].
    apply Hb in He as [Hn|Hd]; unfold thread_inv in Ht.
    + rewrite Hn in Ht. by destruct Ht as (_ & -> & _).
    + destruct (thread s) as [t|]; [|by destruct Ht as (_ & -> & _)].
      destruct Ht as (w & _ & _ & Hw & Hgq & _).
      by destruct (done_delivered _ _ _ _ _ Hw Hgq Hd) as [-> _].
  - unfold buttons_inv, started. simpl. destruct (has_ffmpeg os); simpl;
      (split; [done|]); split; try done; intros [?|?]; set_solver.
Qed.

Lemma inv_user os u s : app_inv lib s → app_inv lib (user_step os u s).
Proof.
  destruct (decide (u = UStart)) as [->|H1]; [apply inv_user_start|].
  destruct (decide (u = UStop)) as [->|H2]; [apply inv_user_stop|].
  by apply inv_user_passive.
Qed.

Lemma inv_worker s : app_inv lib s → app_inv lib (worker_step lib s).
Proof.
  intros (Hm & Ht & Hb). unfold worker_step.
  destruct (thread s) as [t|] eqn:Hth; [|done].
  destruct (worker_running (win s)) eqn:Hrun; [|done].
  unfold thread_inv in Ht. rewrite Hth in Ht. destruct Ht as (w & Hw & Hok & Ht & Hgq & Hf).
  unfold thread_rows. rewrite Hw. split; [done|]. split.
  - exists w. simpl. split_and!; [done..|by apply winv_work, winv_synced| |].
    + by rewrite app_assoc, Hgq, synced_work_out.
    + unfold worker_running in Hrun. rewrite Hw in Hrun. congruence.
  - unfold buttons_inv in *. simpl. rewrite Hth in Hb. destruct Hb as [? Hb]. split; [done|].
    rewrite Hb. split; (intros [?|?]; [done|by right]).
Qed.

Lemma inv_deliver s : app_inv lib s → app_inv lib (deliver_step s).
Proof.
  intros Hs. unfold deliver_step. destruct (queue s) as [|sg q] eqn:Hq; [done|].
  destruct sg as [row p|].
  - pose proof (app_inv_control s (exec (_on_update row p) (win s)) Hs) as H.
    destruct H as (Hm & Ht & Hb);
      [apply (keeps_exec (inv 4)); [apply keeps_on_update|apply Hs]|apply update_control|].
    split; [done|]. simpl in *. split.
    + unfold thread_inv in *. simpl in *. rewrite Hq in Ht.
      destruct (thread s) as [t|]; [|by destruct Ht as (_ & ? & _)].
      destruct Ht as (w & Hw & Hok & Hi & Hgq & Hf). exists w. by rewrite <- app_assoc.
    + unfold buttons_inv in *. simpl in *. destruct Hb as [Hp ->]. split; [done|].
      rewrite elem_of_app, list_elem_of_singleton. intuition discriminate.
  - destruct Hs as (Hm & Ht & Hb). split; [done|]. split.
    + unfold thread_inv in *. simpl in *. rewrite Hq in Ht.
      destruct (thread s) as [t|]; [|by destruct Ht as (_ & ? & _)].
      destruct Ht as (w & Hw & Hok & Hi & Hgq & Hf). exists w. by rewrite <- app_assoc.
    + unfold buttons_inv. simpl. split; [done|].
      rewrite elem_of_app, list_elem_of_singleton. intuition discriminate.
Qed.

Lemma inv_exit s : app_inv lib s → app_inv lib (exit_step s).
Proof.
  intros (Hm & Ht & Hb). unfold exit_step.
  destruct (thread s) as [t|] eqn:Hth; [|done].
  destruct (final t) eqn:Hf; [|done].
  destruct (worker_running (win s)) eqn:Hrun; [|done]. simpl.
  unfold thread_inv in Ht. rewrite Hth in Ht. destruct Ht as (w & Hw & Hok & Ht & Hgq & _).
  unfold thread_finished. rewrite Hw. split; [done|]. split.
  - unfold thread_inv. simpl. by eexists.
  - unfold buttons_inv in *. simpl. by rewrite Hth in Hb.
Qed.

Lemma inv_step a s : app_inv lib s → app_inv lib (app_step lib a s).
Proof. destruct a; [apply inv_user|apply inv_worker|apply inv_deliver|apply inv_exit]. Qed.

Lemma app_exec_snoc sch a s : app_exec lib (sch ++ [a]) s = app_step lib a (app_exec lib sch s).
Proof. unfold app_exec. by rewrite foldl_app. Qed.

Lemma app_exec_app sch1 sch2 s :
  app_exec lib (sch1 ++ sch2) s = app_exec lib sch2 (app_exec lib sch1 s).
Proof. apply foldl_app. Qed.

(** What the actions of a schedule keep holds after it. *)
Lemma exec_keeps (I : app_state → Prop) sch s :
  (∀ a s', a ∈ sch → I s' → I (app_step lib a s')) → I s → I (app_exec lib sch s).
Proof. intros H. apply (foldl_keeps (λ s a, app_step lib a s)). intros s' a. apply H. Qed.

Lemma inv_exec sch s : app_inv lib s → app_inv lib (app_exec lib sch s).
Proof. apply exec_keeps. auto using inv_step. Qed.

Lemma reachable_exec sch s : app_reachable lib s → app_reachable lib (app_exec lib sch s).
Proof. apply exec_keeps. intros. by apply app_next. Qed.

Lemma reachable_app_inv s : app_reachable lib s → app_inv lib s.
Proof. induction 1; eauto using app_inv_init, inv_step. Qed.

Lemma system_actions sch a : forallb is_system sch = true → a ∈ sch → is_system a = true.
Proof.
  intros H%Is_true_true%forallb_True Ha. rewrite Forall_forall in H.
  by apply Is_true_true, H.
Qed.

End app_invariant.

(** * Runs in progress *)

Section progress.
Context (lib : nat → nat → item_env).
Implicit Types (s : app_state) (a : app_action) (m : state) (t : wstate) (n k : nat).

Lemma app_exec_cons a sch s : app_exec lib (a :: sch) s = app_exec lib sch (app_step lib a s).
Proof. done. Qed.

Lemma synced_final rs env f t : final (synced rs env f t) = final t.
Proof. by destruct f. Qed.

Lemma synced_work_left rs env f t :
  work_left rs env (work rs env (synced rs env f t)) ≤ pred (work_left rs env t) .
Proof.
  assert (work_left rs env (synced rs env f t) = work_left rs env t) as <- by by destruct f.
  destruct (final (synced rs env f t)) eqn:Hf.
  - rewrite final_work by done. apply (proj2 (work_left_final rs env _)) in Hf. lia.
  - pose proof (work_left_work rs env _ Hf). lia.
Qed.

(** The thread's steps, when nothing else happens, bring it to the end of
    [run]. *)
Lemma worker_phase n s t :
  thread s = Some t → work_left (thread_rows (win s)) (lib (runs s)) t ≤ n →
  (worker_running (win s) = false → final t = true) →
  win (app_exec lib (replicate n AWorker) s) = win s ∧
  runs (app_exec lib (replicate n AWorker) s) = runs s ∧
  ∃ t', thread (app_exec lib (replicate n AWorker) s) = Some t' ∧ final t' = true.
Proof.
  revert s t. induction n as [|n IH]; intros s t Ht Hn Hf.
  { split_and!; [done..|]. exists t. split; [done|]. apply (work_left_final (thread_rows (win s)) (lib (runs s))). lia. }
  change (replicate (S n) AWorker) with (AWorker :: replicate n AWorker).
  rewrite app_exec_cons. simpl. unfold worker_step. rewrite Ht.
  destruct (worker_running (win s)) eqn:Hr.
  - set (s1 := AppState _ _ _ _ _).
    destruct (IH s1 _ eq_refl) as (-> & -> & H); [|by simpl; rewrite Hr|done].
    simpl. etrans; [apply synced_work_left|lia].
  - apply (IH s t); [done| |by intros _; apply Hf]. specialize (Hf eq_refl).
    apply (proj2 (work_left_final (thread_rows (win s)) (lib (runs s)) _)) in Hf. lia.
Qed.

(** Delivering all that waits. *)
Lemma deliver_phase s :
  app_exec lib (replicate (length (queue s)) ADeliver) s =
    AppState (deliver_all (queue s) (win s)) (thread s) [] (runs s) (got s ++ queue s).
Proof.
  destruct s as [m th q r g]. cbn [queue win thread runs got]. revert m g.
  induction q as [|sg q IH]; intros m g; [by rewrite app_nil_r|].
  cbn [length replicate]. rewrite app_exec_cons. cbn [app_step]. unfold deliver_step.
  cbn [queue win thread runs got]. by rewrite IH, <- app_assoc.
Qed.

Lemma exit_not_running s t :
  thread s = Some t → final t = true → worker_running (win (exit_step s)) = false.
Proof.
  intros Ht Hf. unfold exit_step. rewrite Ht, Hf.
  destruct (worker_running (win s)) eqn:Hr; [|done]. unfold worker_running, thread_finished in *.
  simpl. by destruct (worker (win s)).
Qed.

Lemma exit_frame s :
  thread (exit_step s) = thread s ∧ queue (exit_step s) = queue s ∧
  runs (exit_step s) = runs s ∧ got (exit_step s) = got s.
Proof. unfold exit_step. by repeat case_match. Qed.

(** In a state of the invariant where no thread runs and nothing waits,
    [Start] is enabled. *)
Lemma quiescent_start s :
  app_inv lib s → quiescent s → btn_start (win s) = true ∧ btn_stop (win s) = false.
Proof.
  intros (_ & Ht & Hp & Hb) [Hr Hq]. rewrite Hp.
  cut (btn_start (win s) = true); [by intros ->|]. apply Hb.
  unfold thread_inv in Ht. destruct (thread s) as [t|]; [right|by left].
  destruct Ht as (w & Hw & Hok & Ht & Hgq & Hf). rewrite Hq, app_nil_r in Hgq.
  unfold worker_running in Hr. rewrite Hw in Hr.
  pose proof (final_returned _ _ t Hok Ht (Hf Hr)) as Hpc.
  destruct (returned_out _ _ t Ht Hpc) as (tr & Htr & _). rewrite Hgq, Htr, elem_of_app, list_elem_of_singleton. by right.
Qed.

Lemma running_thread s :
  app_inv lib s → worker_running (win s) = true → is_Some (thread s).
Proof.
  intros (_ & Ht & _) Hr. unfold thread_inv in Ht. destruct (thread s); [done|].
  destruct Ht as (Hw & _). unfold worker_running in Hr. by rewrite Hw in Hr.
Qed.

Lemma not_running_final s t :
  app_inv lib s → thread s = Some t → worker_running (win s) = false → final t = true.
Proof.
  intros (_ & Hi & _) Ht Hr. unfold thread_inv in Hi. rewrite Ht in Hi.
  destruct Hi as (w & Hw & _ & _ & _ & Hf). unfold worker_running in Hr. rewrite Hw in Hr. auto.
Qed.

(** The schedule [completion] ends the run in progress. *)
Lemma completion_quiescent s :
  app_inv lib s →
  ∃ n k, quiescent (app_exec lib (completion n k) s) ∧
         runs (app_exec lib (completion n k) s) = runs s.
Proof.
  intros Hs. destruct (thread s) as [t|] eqn:Ht.
  - exists (work_left (thread_rows (win s)) (lib (runs s)) t).
    destruct (worker_phase _ s t Ht (le_n _)) as (Hw & Hr & t' & Ht' & Hf);
      [by apply not_running_final|].
    set (s1 := app_exec lib _ s) in *. exists (length (queue s1)).
    unfold completion. rewrite !app_exec_app. fold s1. rewrite deliver_phase.
    set (s2 := AppState _ _ _ _ _). change (app_exec lib [AExit] s2) with (exit_step s2).
    destruct (exit_frame s2) as (_ & Hq & Hr2 & _).
    split; [split|]; [by apply (exit_not_running s2 t')|by rewrite Hq|by rewrite Hr2].
  - exists 0, 0. destruct Hs as (_ & Hi & _). unfold thread_inv in Hi. rewrite Ht in Hi.
    destruct Hi as (Hw & Hq & _). unfold completion. simpl. unfold exit_step. rewrite Ht.
    split; [|done]. split; [|done]. unfold worker_running. by rewrite Hw.
Qed.

End progress.

(** * A stop request *)

Section stopping_run.
Context (lib : nat → nat → item_env).
Implicit Types (s : app_state) (a : app_action) (m : state) (t : wstate).

Lemma runs_step a s : runs s ≤ runs (app_step lib a s).
Proof.
  destruct a; simpl; unfold user_step, worker_step, deliver_step, exit_step;
    repeat case_match; simpl; lia.
Qed.

Lemma runs_exec sch s : runs s ≤ runs (app_exec lib sch s).
Proof.
  apply (exec_keeps lib (λ s', runs s ≤ runs s')); [|done].
  intros a s' _ H. pose proof (runs_step a s'). lia.
Qed.

(** What the actions keep as long as no further run starts holds after a
    schedule within the same run. *)
Lemma same_run_keeps (I : app_state → Prop) sch s :
  (∀ a s', app_inv lib s' → I s' → runs (app_step lib a s') = runs s' → I (app_step lib a s')) →
  app_inv lib s → I s → runs (app_exec lib sch s) = runs s → I (app_exec lib sch s).
Proof.
  intros Hk Hs Hi Hr.
  apply (foldl_keeps_while (λ s a, app_step lib a s)
           (λ s', app_inv lib s' ∧ I s' ∧ runs s ≤ runs s') (λ s', runs s' ≤ runs s));
    [| |done|fold (app_exec lib sch s); lia].
  - intros s' a H. pose proof (runs_step a s'). lia.
  - intros s' a (Hs' & Hi' & Hle) H. pose proof (runs_step a s').
    split; [by apply inv_step|]. split; [apply Hk; [done..|lia]|lia].
Qed.

Lemma flag_of_control m m' : control m' = control m → flag_of m' = flag_of m.
Proof. unfold control, flag_of. by intros [= -> _ _]. Qed.

(** What the user's action does to the worker within a run: the thread
    is the same, and the worker is the same, or the same with its flag set. *)
Lemma user_same_run os u s :
  app_inv lib s → runs (user_step os u s) = runs s →
  thread (user_step os u s) = thread s ∧
  (worker (win (user_step os u s)) = worker (win s) ∨
   ∃ w, worker (win s) = Some w ∧
        worker (win (user_step os u s)) = Some (Thread (stop (obj w)) true)).
Proof.
  intros Hs. unfold user_step. destruct (enabled u (win s)); [|by auto].
  destruct (decide (u = UStart)) as [->|H1]; [|destruct (decide (u = UStop)) as [->|H2]]; simpl.
  - destruct (start_cases os (win s)) as [->|[(_ & Hrun & _) ->]]; [apply Hs| |].
    + rewrite (no_start_control s) by done. by auto.
    + rewrite Hrun, started_running. simpl. lia.
  - destruct (stop_cases (win s)) as [->|(w & Hw & Hr & ->)].
    + rewrite (no_start_control s) by done. by auto.
    + unfold worker_running. rewrite Hw. simpl. rewrite Hr. simpl. by eauto.
  - pose proof (passive_control os u (win s) H1 H2) as Hc.
    rewrite (no_start_control _ _ Hc). intros _. split; [done|left].
    unfold control in Hc. by injection Hc.
Qed.

Lemma stopping_user os u k s :
  app_inv lib s → stopping k s → runs (user_step os u s) = runs s → stopping k (user_step os u s).
Proof.
  intros Hs (Hf & t & Ht & Hk) Hr. destruct (user_same_run os u s Hs Hr) as [Hth Hw].
  split; [|exists t; by rewrite Hth]. unfold flag_of in *.
  destruct Hw as [->|(w & Hw & ->)]; done.
Qed.

Lemma stopping_step a k s :
  app_inv lib s → stopping k s → runs (app_step lib a s) = runs s →
  stopping k (app_step lib a s).
Proof.
  destruct a as [os u| | |]; [apply stopping_user|..]; intros Hs (Hf & t & Ht & Hk) _; simpl.
  - unfold worker_step. rewrite Ht. destruct (worker_running (win s)); [|by split; eauto].
    split; [done|]. eexists. split; [done|]. rewrite Hf, <- Hk. unfold synced.
    by apply (started_act _ _ AWork (act _ _ AStop t)).
  - unfold deliver_step. destruct (queue s) as [|sg q]; [by split; eauto|].
    split; [|by eauto]. simpl. destruct sg as [row p|]; simpl.
    + by rewrite (flag_of_control _ _ (update_control row p (win s))).
    + done.
  - unfold exit_step. rewrite Ht. destruct (final t && worker_running (win s)); [|by split; eauto].
    split; [|by eauto]. simpl. unfold flag_of, thread_finished in *.
    by destruct (worker (win s)).
Qed.

Lemma stopping_exec sch k s :
  app_inv lib s → stopping k s → runs (app_exec lib sch s) = runs s →
  stopping k (app_exec lib sch s).
Proof. apply same_run_keeps. intros a s'. apply stopping_step. Qed.

(** The rows of the worker are those the run started with. *)
Lemma rows_step rs a s :
  app_inv lib s → is_Some (thread s) ∧ thread_rows (win s) = rs →
  runs (app_step lib a s) = runs s →
  is_Some (thread (app_step lib a s)) ∧ thread_rows (win (app_step lib a s)) = rs.
Proof.
  intros Hs [Ht <-] Hr. pose proof Ht as [t Heq]. destruct a as [os u| | |]; simpl in *.
  - destruct (user_same_run os u s Hs Hr) as [-> Hw]. split; [done|]. unfold thread_rows.
    destruct Hw as [->|(w & -> & ->)]; done.
  - unfold worker_step. rewrite Heq. by destruct (worker_running (win s)).
  - unfold deliver_step. destruct (queue s) as [|sg q]; [done|]. split; [done|]. simpl.
    unfold thread_rows. by rewrite deliver_worker.
  - unfold exit_step. rewrite Heq. destruct (final t && worker_running (win s)); [|done].
    split; [done|]. simpl. unfold thread_rows, thread_finished.
    destruct (worker (win s)) eqn:Hw; simpl; by rewrite ?Hw.
Qed.

Lemma rows_exec sch s :
  app_inv lib s → is_Some (thread s) → runs (app_exec lib sch s) = runs s →
  is_Some (thread (app_exec lib sch s)) ∧
  thread_rows (win (app_exec lib sch s)) = thread_rows (win s).
Proof.
  intros Hs Ht. apply (same_run_keeps (λ s', is_Some (thread s') ∧ thread_rows (win s') = _));
    [|done..]. intros a s'. apply rows_step.
Qed.

End stopping_run.

(** * A run the user only watches *)

Section watching.
Context (lib : nat → nat → item_env) (os : os_env) (m0 : state).
Implicit Types (s : app_state) (a : app_action) (m : state) (t : wstate) (sg : signal).

Lemma blind_deliver x sg : blind (set_worker x) (deliver sg).
Proof.
  destruct sg as [row p|]; simpl; [|by apply blind_modify].
  unfold _on_update, cell_setText, bar_setValue, text_of, to_c_int. repeat blind_step.
Qed.

(** The end of the thread and the delivery of a signal commute. *)
Lemma deliver_thread_finished sg m :
  exec (deliver sg) (thread_finished m) = thread_finished (exec (deliver sg) m).
Proof.
  unfold thread_finished. rewrite deliver_worker. destruct (worker m); [|done].
  apply blind_exec, blind_deliver.
Qed.

Lemma deliver_all_snoc tr sg m : deliver_all (tr ++ [sg]) m = exec (deliver sg) (deliver_all tr m).
Proof. by rewrite deliver_all_app. Qed.

Lemma deliver_all_worker tr m : worker (deliver_all tr m) = worker m.
Proof.
  induction tr as [|sg tr IH] using rev_ind; [done|].
  by rewrite deliver_all_snoc, deliver_worker.
Qed.

Lemma watched_worker s :
  watched os m0 s → ∃ b, worker (win s) = Some (Thread (worker_of os m0) b) ∧
    (b = true ↔ win s = deliver_all (got s) (started os m0)).
Proof.
  intros (_ & [H|H]); rewrite H.
  - exists true. by rewrite deliver_all_worker.
  - exists false. unfold thread_finished. rewrite deliver_all_worker. simpl.
    split; [done|]. split; [done|]. intros Heq. apply (f_equal worker) in Heq.
    by rewrite deliver_all_worker in Heq.
Qed.

Lemma watched_step a s : is_system a = true → watched os m0 s → watched os m0 (app_step lib a s).
Proof.
  intros Ha Hs. destruct (watched_worker s Hs) as (b & Hw & Hb).
  destruct Hs as ((t & Ht & Hf) & Hwin). destruct a as [? ?| | |]; [done|..]; simpl.
  - unfold worker_step. rewrite Ht. destruct (worker_running (win s)); [|by split; eauto].
    split; [|done]. eexists. split; [done|]. unfold flag_of. rewrite Hw. simpl.
    unfold work. by repeat case_match.
  - unfold deliver_step. destruct (queue s) as [|sg q]; [by split; eauto|].
    split; [by eauto|]. simpl. rewrite deliver_all_snoc.
    destruct Hwin as [->| ->]; [by left|right]. apply deliver_thread_finished.
  - unfold exit_step. rewrite Ht. destruct (final t && worker_running (win s)) eqn:Hc;
      [|by split; eauto].
    split; [by eauto|]. simpl. apply andb_true_iff in Hc as [_ Hr].
    unfold worker_running in Hr. rewrite Hw in Hr. simpl in Hr.
    apply Hb in Hr. rewrite Hr. by right.
Qed.

Lemma watched_exec sch s :
  forallb is_system sch = true → watched os m0 s → watched os m0 (app_exec lib sch s).
Proof. intros Hsys. apply exec_keeps. intros a s' Ha. by apply watched_step, (system_actions sch). Qed.

Lemma system_runs a s : is_system a = true → runs (app_step lib a s) = runs s.
Proof.
  destruct a; [done|..]; intros _; simpl; unfold worker_step, deliver_step, exit_step;
    by repeat case_match.
Qed.

Lemma system_runs_exec sch s : forallb is_system sch = true → runs (app_exec lib sch s) = runs s.
Proof.
  intros Hsys. apply (exec_keeps lib (λ s', runs s' = runs s)); [|done].
  intros a s' Ha <-. by apply system_runs, (system_actions sch).
Qed.

(** [Start] pressed on a window where [_start] goes through. *)
Lemma user_start s :
  inv 4 (win s) → startable os (win s) → btn_start (win s) = true →
  user_step os UStart s =
    AppState (started os (win s)) (Some (winit false)) (queue s) (S (runs s)) [].
Proof.
  intros Hm (H0 & Hr & Hd & Hi) Hb. unfold user_step. simpl. rewrite Hb. unfold exec.
  rewrite (start_run 4) by done. simpl. by rewrite Hr.
Qed.

(** The trace of a run nobody stops. *)
Lemma run_unstopped env w :
  rows_ok (rows w) → Worker._stop w = false →
  (run w (observed env [])).1 = (seq 0 (length (rows w)) ≫= row_block env) ++ [SigDone].
Proof.
  intros Hok Hs. rewrite run_trace, Hs, processed_no_stop by done.
  by rewrite observed_blocks.
Qed.

(** What a thread that was never asked to stop has emitted when it
    returned. *)
Lemma returned_unstopped rs env t :
  winv rs env t → w_pc t = Returned_ → w_flag t = false →
  w_out t = (seq 0 (length rs) ≫= row_block env) ++ [SigDone].
Proof.
  unfold winv. intros Ht Hpc Hf. rewrite Hpc in Ht.
  destruct Ht as (i & _ & -> & [[-> _]|(_ & _ & Hf')]); [done|congruence].
Qed.

End watching.

(** * Samples *)

Lemma sample_app_reachable : app_reachable sample_lib sample_app.
Proof. apply reachable_exec, (app_launched _ ∅ "downloads"). reflexivity. Qed.

Lemma sample_stopping_reachable : app_reachable sample_lib sample_stopping.
Proof. apply reachable_exec, sample_app_reachable. Qed.

Lemma sample_returned_reachable : app_reachable sample_lib sample_returned.
Proof. apply reachable_exec, sample_app_reachable. Qed.

Example sample_returned_state :
  btn_start (win sample_returned) = true ∧ worker_running (win sample_returned) = true ∧
  queue sample_returned = [] ∧ length (got sample_returned) = 11 ∧
  (final <$> thread sample_returned) = Some true.
Proof. by vm_compute. Qed.

(** * Properties of the application *)

(** C6. Every state the application reaches satisfies the invariant: the
    window keeps its own invariant; a thread exists exactly when the window
    holds a worker, whose rows all have a URL; the signals delivered since
    the start followed by the signals that wait are what the thread emitted,
    in the order of emission; a thread that ended had left [run]; exactly
    one of [Start] and [Stop] is enabled, and [Start] is when no run was
    started or [sig_done] of the latest run was delivered. *)
Theorem app_invariant (lib : nat → nat → item_env) (s : app_state) :
  app_reachable lib s → app_inv lib s.
Proof. apply reachable_app_inv. Qed.

Lemma app_invariant_witness : app_inv sample_lib sample_stopping.
Proof. exact (app_invariant sample_lib sample_stopping sample_stopping_reachable). Defined.

(** C13. When [run] has returned, what the slots were given and what still
    waits for them is, in this order, the trace of [Worker.run] on the
    worker the window holds against the library as the loop observed it,
    and [run] ended by returning: with both threads running and the user
    acting at any time, the signals are those of the sequential
    description. *)
Theorem run_over_refines (lib : nat → nat → item_env) (s : app_state) (t : wstate) :
  app_reachable lib s → thread s = Some t → final t = true →
  ∃ w, worker (win s) = Some w ∧
       run (observed_worker (rows (obj w)) (opts (obj w)) (w_seen t))
           (observed (lib (runs s)) (w_seen t)) = (got s ++ queue s, Finished).
Proof.
  intros (_ & Hi & _)%reachable_app_inv Ht Hf. unfold thread_inv in Hi. rewrite Ht in Hi.
  destruct Hi as (w & Hw & Hok & Hi & -> & _). exists w. split; [done|].
  apply winv_final; [done|]. unfold end_of. by rewrite (final_returned _ _ t Hok Hi Hf).
Qed.

Lemma run_over_refines_witness :
  ∃ w, worker (win sample_returned) = Some w ∧
       run (observed_worker (rows (obj w)) (opts (obj w))
              (w_seen (default (winit false) (thread sample_returned))))
           (observed (sample_lib (runs sample_returned))
              (w_seen (default (winit false) (thread sample_returned)))) =
         (got sample_returned ++ queue sample_returned, Finished).
Proof.
  apply (run_over_refines sample_lib sample_returned
           (default (winit false) (thread sample_returned)) sample_returned_reachable);
    by vm_compute.
Defined.

(** C12. A stop request is honoured: while [_stop] of the shared worker is
    set and [k] rows have started, whatever both threads and the user do
    within the same run, every signal delivered or waiting is about one of
    these [k] rows. *)
Theorem stop_request_honoured (lib : nat → nat → item_env) (s : app_state)
    (sch : list app_action) (k : nat) (sg : signal) (j : nat) :
  app_reachable lib s → stopping k s → runs (app_exec lib sch s) = runs s →
  sg ∈ got (app_exec lib sch s) ++ queue (app_exec lib sch s) →
  signal_row sg = Some j → j < k.
Proof.
  intros Hs%reachable_app_inv Hk Hr Hsg Hj.
  destruct (stopping_exec lib sch k s Hs Hk Hr) as (_ & t & Ht & <-).
  destruct (inv_exec lib sch s Hs) as (_ & Hi & _). unfold thread_inv in Hi.
  rewrite Ht in Hi. destruct Hi as (w & _ & _ & Hi & Hgq & _). rewrite Hgq in Hsg.
  by eapply out_rows_started.
Qed.

(** The sample run with the flag set during its first row, completed: the
    [Done] of row 0 is delivered, and 0 is below the one row that started. *)
Lemma stop_request_honoured_witness :
  stopping 1 sample_stopping ∧
  SigUpdate 0 done_payload ∈ got (app_exec sample_lib (completion 24 24) sample_stopping) ∧
  0 < 1.
Proof.
  assert (stopping 1 sample_stopping) as Hk.
  { split; [by vm_compute|]. eexists. split; [by vm_compute|]. by vm_compute. }
  assert (SigUpdate 0 done_payload ∈ got (app_exec sample_lib (completion 24 24) sample_stopping))
    as Hg by (apply (bool_decide_unpack _); by vm_compute).
  split; [exact Hk|]. split; [exact Hg|].
  apply (stop_request_honoured sample_lib sample_stopping (completion 24 24) 1
           (SigUpdate 0 done_payload) 0 sample_stopping_reachable Hk);
    [by vm_compute|apply elem_of_app; by left|reflexivity].
Defined.

(** The run of [sample_stopping] to its end: the first row is completed,
    the second never starts, and [Start] is enabled again. *)
Example sample_stopped_run :
  got (app_exec sample_lib (completion 24 24) sample_stopping) =
    row_block (sample_lib 1) 0 ++ [SigDone] ∧
  btn_start (win (app_exec sample_lib (completion 24 24) sample_stopping)) = true.
Proof. by vm_compute. Qed.

(** C18. The rows of a run are fixed when it starts: while a thread
    exists and no further run is started, whatever the user adds to the
    table and whatever else happens, the rows of the worker object stay the
    same, and every signal delivered or waiting is about one of them. *)
Theorem rows_fixed_at_start (lib : nat → nat → item_env) (s : app_state)
    (sch : list app_action) (sg : signal) (j : nat) :
  app_reachable lib s → is_Some (thread s) → runs (app_exec lib sch s) = runs s →
  thread_rows (win (app_exec lib sch s)) = thread_rows (win s) ∧
  (sg ∈ got (app_exec lib sch s) ++ queue (app_exec lib sch s) →
   signal_row sg = Some j → j < length (thread_rows (win s))).
Proof.
  intros Hs%reachable_app_inv Ht Hr. destruct (rows_exec lib sch s Hs Ht Hr) as [[t' Ht'] Hrows].
  split; [done|]. rewrite <- Hrows. intros Hsg Hj.
  destruct (inv_exec lib sch s Hs) as (_ & Hi & _). unfold thread_inv in Hi.
  rewrite Ht' in Hi. destruct Hi as (w & Hw & _ & Hi & Hgq & _). rewrite Hgq in Hsg.
  unfold thread_rows. rewrite Hw.
  pose proof (out_rows_started _ _ t' sg j Hi Hsg Hj). pose proof (started_le _ _ t' Hi). lia.
Qed.

Lemma rows_fixed_at_start_witness :
  thread_rows (win (app_exec sample_lib
      ([AUser sample_os (UType "https://youtu.be/c"); AUser sample_os UAdd] ++ completion 24 24)
      sample_stopping)) = thread_rows (win sample_stopping) ∧
  (SigUpdate 0 done_payload ∈
     got (app_exec sample_lib
       ([AUser sample_os (UType "https://youtu.be/c"); AUser sample_os UAdd] ++ completion 24 24)
       sample_stopping) ++
     queue (app_exec sample_lib
       ([AUser sample_os (UType "https://youtu.be/c"); AUser sample_os UAdd] ++ completion 24 24)
       sample_stopping) →
   signal_row (SigUpdate 0 done_payload) = Some 0 →
   0 < length (thread_rows (win sample_stopping))).
Proof.
  apply (rows_fixed_at_start sample_lib sample_stopping _ _ _ sample_stopping_reachable);
    [vm_compute; by eexists|by vm_compute].
Defined.

(** A URL added while the run is in progress is in the table and not among
    the rows of the worker. *)
Example added_during_run :
  rowCount (table (win (app_exec sample_lib
      [AUser sample_os (UType "https://youtu.be/c"); AUser sample_os UAdd] sample_stopping))) = 3 ∧
  length (thread_rows (win (app_exec sample_lib
      [AUser sample_os (UType "https://youtu.be/c"); AUser sample_os UAdd] sample_stopping))) = 2.
Proof. by vm_compute. Qed.

(** C14. A run can always be completed: from every state the application
    reaches, some number of steps of the thread, of deliveries and the end
    of the thread lead to a state where no thread runs, no signal waits,
    [Start] is enabled and [Stop] is not, without a further run being
    started. *)
Theorem run_can_complete (lib : nat → nat → item_env) (s : app_state) :
  app_reachable lib s →
  ∃ n k, quiescent (app_exec lib (completion n k) s) ∧
         btn_start (win (app_exec lib (completion n k) s)) = true ∧
         btn_stop (win (app_exec lib (completion n k) s)) = false ∧
         runs (app_exec lib (completion n k) s) = runs s.
Proof.
  intros Hs%reachable_app_inv. destruct (completion_quiescent lib s Hs) as (n & k & Hq & Hr).
  exists n, k. destruct (quiescent_start lib _ (inv_exec lib _ s Hs) Hq) as [? ?]. done.
Qed.

Lemma run_can_complete_witness :
  ∃ n k, quiescent (app_exec sample_lib (completion n k) sample_stopping) ∧
         btn_start (win (app_exec sample_lib (completion n k) sample_stopping)) = true ∧
         btn_stop (win (app_exec sample_lib (completion n k) sample_stopping)) = false ∧
         runs (app_exec sample_lib (completion n k) sample_stopping) = runs sample_stopping.
Proof. exact (run_can_complete sample_lib sample_stopping sample_stopping_reachable). Defined.

(** C7. With a user who only watches, every interleaving of the thread's
    steps, the deliveries and the end of the thread that leaves nothing in
    progress ends in the window [System.run_from] computes from the trace of
    [Worker.run] with no stop request. *)
Theorem watched_run_refines (lib : nat → nat → item_env) (os : os_env) (s : app_state)
    (sch : list app_action) :
  app_reachable lib s → startable os (win s) → btn_start (win s) = true →
  forallb is_system sch = true →
  quiescent (app_exec lib sch (user_step os UStart s)) →
  win (app_exec lib sch (user_step os UStart s)) =
    run_from os (observed (lib (S (runs s))) []) (win s).
Proof.
  intros Hs%reachable_app_inv Hst Hb Hsch [Hr Hq].
  pose proof (inv_exec lib sch _ (inv_user lib os UStart s Hs)) as Hinv.
  rewrite (run_from_started 4) by (done || apply Hs).
  rewrite (user_start os s) in * by (done || apply Hs).
  set (s1 := AppState _ _ _ _ _) in *.
  assert (watched os (win s) s1) as Hw1 by (split; [by eexists|by left]).
  pose proof (watched_exec lib os (win s) sch s1 Hsch Hw1) as Hw.
  destruct (watched_worker os (win s) _ Hw) as (b & Hwk & Hb').
  destruct Hw as ((t & Ht & Hf) & Hwin).
  unfold worker_running in Hr. rewrite Hwk in Hr. simpl in Hr. subst b.
  destruct Hwin as [Hwin|Hwin]; [by apply Hb' in Hwin|]. rewrite Hwin. do 2 f_equal.
  destruct Hinv as (_ & Hi & _). unfold thread_inv in Hi. rewrite Ht, Hwk, Hq in Hi.
  destruct Hi as (w & [= <-] & Hok & Hi & Hgq & Hfin). rewrite app_nil_r in Hgq.
  rewrite Hgq, run_unstopped by done.
  rewrite (system_runs_exec lib sch s1 Hsch) in Hi.
  apply returned_unstopped; [done| |done]. by eapply final_returned; [| |apply Hfin].
Qed.

Lemma watched_run_refines_witness :
  win (app_exec sample_lib (completion 24 24) (user_step sample_os UStart sample_app)) =
    run_from sample_os (observed (sample_lib (S (runs sample_app))) []) (win sample_app).
Proof.
  apply (watched_run_refines sample_lib sample_os sample_app (completion 24 24)
           sample_app_reachable).
  - split_and!; by vm_compute.
  - by vm_compute.
  - reflexivity.
  - split; by vm_compute.
Defined.

(** C19. [Start] can be enabled while the thread of the last run has not
    ended: [run] has returned and [sig_done] was delivered, so nothing is
    in progress for the user; pressed then, [Start] does nothing at all,
    and no message says so. *)
Theorem start_ignored_before_exit (lib : nat → nat → item_env) (os : os_env) (s : app_state) :
  app_reachable lib s → btn_start (win s) = true → worker_running (win s) = true →
  user_step os UStart s = s ∧ queue s = [] ∧
  ∃ t, thread s = Some t ∧ w_pc t = Returned_ ∧ got s = w_out t.
Proof.
  intros Hs%reachable_app_inv Hb Hr. split.
  - unfold user_step. simpl. rewrite Hb. unfold exec. rewrite start_guarded by auto.
    simpl. rewrite Hr. by destruct s.
  - destruct (running_thread lib s Hs Hr) as [t Ht]. destruct Hs as (_ & Hi & _ & Hbt).
    unfold thread_inv in Hi. rewrite Ht in Hi. destruct Hi as (w & _ & _ & Hi & Hgq & _).
    apply Hbt in Hb as [Hn|Hd]; [congruence|].
    destruct (done_delivered _ _ t _ _ Hi Hgq Hd) as [Hq Hpc].
    split; [done|]. exists t. rewrite Hq, app_nil_r in Hgq. done.
Qed.

Lemma start_ignored_before_exit_witness :
  user_step sample_os UStart sample_returned = sample_returned ∧ queue sample_returned = [] ∧
  ∃ t, thread sample_returned = Some t ∧ w_pc t = Returned_ ∧ got sample_returned = w_out t.
Proof.
  apply (start_ignored_before_exit sample_lib sample_os sample_returned
           sample_returned_reachable); by vm_compute.
Defined.

(** The same press after the thread has ended starts the second run. *)
Example start_after_exit :
  runs (app_exec sample_lib [AUser sample_os UStart; AExit; AUser sample_os UStart]
          sample_returned) = 2.
Proof. by vm_compute. Qed.
